(** * AI-Pdf-Checker: the rule-evaluation engine of [backend/src/index.js]

    A shallow embedding of the backend's evaluation core and the proofs of
    its specified properties, followed by the state handlers of the client,
    [frontend/src/App.tsx], and what they make of the backend's verdicts.

    Modelling conventions.
    - A JavaScript string is a sequence of UTF-16 code units.  The model
      keeps the code units below 256 (Latin-1), one [ascii] per unit, as
      Rocq's [string].  White space ([\s], [trim]) and [toLowerCase] are
      the ECMAScript ones restricted to that range.
    - Lengths and indices are [Z], so that [indexOf] can answer [-1].
    - Numbers that travel as data (the fields of a JSON document) are
      rationals extended with the two infinities: every finite double is a
      rational and [JSON.parse] yields no NaN.  The one arithmetic
      operation the source performs on doubles, [keywords.length * 0.4], is
      computed with binary64 floats.
    - [JSON.parse] and number printing belong to the host; they are the
      fields of the class [Runtime].
    - Exceptions are the [Throw] outcome of a small error monad; [try]/
      [catch] is [catch].
    - The outside world enters as data: what an SDK call settles with (a
      [Reply]: every call is taken to settle, the SDKs rejecting on their
      own time-out), what the PDF library answers (an [Extraction]), and the
      time each concurrent evaluation takes (a latency per rule).  What the
      code does to the outside is recorded as a list of events. *)

From Stdlib Require Import ZArith QArith Qround String Ascii List Lia Floats.
From stdpp Require Import base list strings sorting gmap.

#[local] Set Warnings "-register-all".
Local Open Scope string_scope.

(** ** ECMAScript built-ins used by the source *)

Module JS.

Definition code (c : ascii) : N := N_of_ascii c.

(** [WhiteSpace] and [LineTerminator] code points below 256: TAB, LF, VT,
    FF, CR, SP and NBSP.  This is the class [\s] and what [trim] strips. *)
Definition isWhiteSpace (c : ascii) : bool :=
  let n := code c in
  ((9 <=? n) && (n <=? 13) || (n =? 32) || (n =? 160))%N.

(** Upper-case letters below 256: A-Z, and U+00C0-U+00DE but U+00D7. *)
Definition isUpper (c : ascii) : bool :=
  let n := code c in
  ((65 <=? n) && (n <=? 90)
   || (192 <=? n) && (n <=? 222) && negb (n =? 215))%N.

Definition toLowerChar (c : ascii) : ascii :=
  if isUpper c then ascii_of_N (code c + 32) else c.

Fixpoint toLowerCase (s : string) : string :=
  match s with
  | EmptyString => EmptyString
  | String c s' => String (toLowerChar c) (toLowerCase s')
  end.

Definition length (s : string) : Z := Z.of_nat (String.length s).

Fixpoint trimStart (s : string) : string :=
  match s with
  | EmptyString => EmptyString
  | String c s' => if isWhiteSpace c then trimStart s' else s
  end.

Fixpoint trimEnd (s : string) : string :=
  match s with
  | EmptyString => EmptyString
  | String c s' =>
      match trimEnd s' with
      | EmptyString => if isWhiteSpace c then EmptyString
                       else String c EmptyString
      | t => String c t
      end
  end.

Definition trim (s : string) : string := trimEnd (trimStart s).

(** [s.includes(k)] *)
Fixpoint includes (s k : string) : bool :=
  String.prefix k s
  || match s with
     | EmptyString => false
     | String _ s' => includes s' k
     end.

(** [s.indexOf(k)], counting from position [i] of the whole string. *)
Fixpoint indexOfFrom (i : Z) (s k : string) : Z :=
  if String.prefix k s then i
  else match s with
       | EmptyString => -1
       | String _ s' => indexOfFrom (i + 1) s' k
       end.

Definition indexOf (s k : string) : Z := indexOfFrom 0 s k.

Fixpoint lastIndexOfFrom (i : Z) (s k : string) : Z :=
  match s with
  | EmptyString => if String.prefix k s then i else -1
  | String _ s' =>
      let r := lastIndexOfFrom (i + 1) s' k in
      if (r =? -1)%Z then (if String.prefix k s then i else -1) else r
  end.

Definition lastIndexOf (s k : string) : Z := lastIndexOfFrom 0 s k.

(** [s.slice(start, end)], with the relative (negative) positions of
    ECMAScript. *)
Definition relative (len i : Z) : Z :=
  if (i <? 0)%Z then Z.max (len + i) 0 else Z.min i len.

Definition slice (s : string) (start stop : Z) : string :=
  let len := length s in
  let from := relative len start in
  let to := relative len stop in
  String.substring (Z.to_nat from) (Z.to_nat (Z.max (to - from) 0)) s.

(** [xs.join(sep)] on strings. *)
Definition join (sep : string) (xs : list string) : string :=
  String.concat sep xs.

Definition nonEmpty (s : string) : bool :=
  match s with EmptyString => false | _ => true end.

(** *** Doubles: [Math.ceil], [Math.max] and the comparison [>=] *)

Definition ofInt (z : Z) : float := PrimFloat.of_uint63 (Uint63.of_Z z).

(** [Math.ceil] on a binary64 value [m * 2^e]: integral already when
    [0 <= e], else the quotient by [2^-e] rounded up. *)
Definition Math_ceil (x : float) : float :=
  match Prim2SF x with
  | S754_finite sgn m e =>
      if (0 <=? e)%Z then x
      else
        let d := (2 ^ (- e))%Z in
        let q := (Z.pos m / d)%Z in
        if sgn then PrimFloat.opp (ofInt q)
        else ofInt (if (Z.pos m mod d =? 0)%Z then q else q + 1)
  | _ => x
  end.

Definition Math_max (a b : float) : float :=
  if PrimFloat.is_nan a then a
  else if PrimFloat.is_nan b then b
  else if PrimFloat.ltb a b then b
  else if PrimFloat.ltb b a then a
  else if PrimFloat.get_sign a then b else a.

(** [a >= b] *)
Definition geb (a b : float) : bool := PrimFloat.leb b a.

End JS.

(** ** JavaScript values *)

(** A number as data: a rational, or an infinity ([JSON.parse] overflows to
    one on a literal such as [1e999]). *)
Inductive number : Type :=
| Fin (q : Q)
| PosInf
| NegInf.

Inductive Value : Type :=
| VUndef
| VNull
| VBool (b : bool)
| VNum (n : number)
| VStr (s : string)
| VArr (xs : list Value)
| VObj (props : list (string * Value)).

(** The canonical verdict.  [status] and [source] are string tags as in the
    source; [evidence] and [reasoning] hold whatever value the code puts
    there. *)
Record Verdict : Type := mkVerdict {
  rule : string;
  status : string;
  evidence : Value;
  reasoning : Value;
  confidence : number;
  source : string
}.

Definition num (z : Z) : number := Fin (inject_Z z).

(** ** Heuristic evaluator *)

(** [text.replace(/\s+/g, ' ')]: [inRun] tells that the previous code unit
    was white space, so the run has been replaced already. *)
Fixpoint collapseFrom (inRun : bool) (s : string) : string :=
  match s with
  | EmptyString => EmptyString
  | String c s' =>
      if JS.isWhiteSpace c
      then (if inRun then collapseFrom true s'
            else String " " (collapseFrom true s'))
      else String c (collapseFrom false s')
  end.

Definition collapseWhitespace (s : string) : string := collapseFrom false s.

Definition isTerminator (c : ascii) : bool :=
  (Ascii.eqb c "." || Ascii.eqb c "!" || Ascii.eqb c "?")%bool.

(** [text.split(/(?<=[.!?])\s+/)].  A separator is a maximal white-space run
    whose preceding code unit is [.], [!] or [?].  [afterTerm]: the previous
    unit was such a mark; [inSep]: a separator is being consumed; [cur]: the
    piece read so far. *)
Fixpoint splitFrom (afterTerm inSep : bool) (cur : string) (s : string)
  : list string :=
  match s with
  | EmptyString => [cur]
  | String c s' =>
      if JS.isWhiteSpace c && inSep then splitFrom false true EmptyString s'
      else if JS.isWhiteSpace c && afterTerm
      then cur :: splitFrom false true EmptyString s'
      else splitFrom (isTerminator c) false (cur +:+ String c EmptyString) s'
  end.

Definition splitSentences (s : string) : list string :=
  splitFrom false false EmptyString s.

Definition sentenceSplitter (text : string) : list string :=
  filter (fun s => JS.nonEmpty s = true) (splitSentences (collapseWhitespace text)).

Definition isWordChar (c : ascii) : bool :=
  let n := JS.code c in
  ((97 <=? n) && (n <=? 122) || (48 <=? n) && (n <=? 57))%N.

Definition flush (cur : string) : list string :=
  if JS.nonEmpty cur then [cur] else [].

(** [s.match(/[a-z0-9]+/g) || []]: the maximal runs of [a-z0-9]. *)
Fixpoint matchWordsFrom (cur : string) (s : string) : list string :=
  match s with
  | EmptyString => flush cur
  | String c s' =>
      if isWordChar c then matchWordsFrom (cur +:+ String c EmptyString) s'
      else flush cur ++ matchWordsFrom EmptyString s'
  end.

Definition matchWords (s : string) : list string := matchWordsFrom EmptyString s.

Definition keywordsOf (cleanRule : string) : list string :=
  take 6 (filter (fun word => (4 < JS.length word)%Z)
                 (matchWords (JS.toLowerCase cleanRule))).

Definition matchesOf (keywords : list string) (text : string) : list string :=
  filter (fun keyword => JS.includes text keyword = true) keywords.

(** [Math.max(1, Math.ceil(keywords.length * 0.4))], on doubles. *)
Definition thresholdOf (keywords : list string) : float :=
  JS.Math_max 1 (JS.Math_ceil (JS.ofInt (Z.of_nat (length keywords)) * 0x1.999999999999ap-2)).

Definition mentions (matches : list string) (sentence : string) : bool :=
  existsb (fun keyword =>
             JS.includes (JS.toLowerCase sentence) (JS.toLowerCase keyword))
          matches.

Definition buildFallbackResult (rule documentText : string) : Verdict :=
  let cleanRule := JS.trim rule in
  let text := JS.toLowerCase documentText in
  let keywords := keywordsOf cleanRule in
  let matches := matchesOf keywords text in
  let threshold := thresholdOf keywords in
  let status :=
    if JS.geb (JS.ofInt (Z.of_nat (length matches))) threshold
    then "pass" else "fail" in
  let sentences := sentenceSplitter documentText in
  let evidenceSentence :=
    match matches with
    | [] => None
    | _ => find (mentions matches) sentences
    end in
  {| rule := cleanRule;
     status := status;
     evidence :=
       VStr (match evidenceSentence with
             | Some s => if JS.nonEmpty s then s else "No direct evidence found."
             | None => "No direct evidence found."
             end);
     reasoning :=
       VStr (if String.eqb status "pass"
             then "Heuristic match for keywords: "
                  +:+ (let joined := JS.join ", " matches in
                       if JS.nonEmpty joined then joined else "n/a")
                  +:+ "."
             else "Keywords from the rule were not found in the document text.");
     confidence := if String.eqb status "pass" then num 55 else num 35;
     source := "heuristic" |}.

(** ** Exceptions *)

Inductive Outcome (A : Type) : Type :=
| Ret (a : A)
| Throw (e : string).
Arguments Ret {A} a.
Arguments Throw {A} e.

#[export] Instance Outcome_ret : MRet Outcome := fun A a => Ret a.
#[export] Instance Outcome_bind : MBind Outcome := fun A B f c =>
  match c with
  | Ret a => f a
  | Throw e => Throw e
  end.

(** [try { c } catch (e) { h e }] *)
Definition catch {A : Type} (c : Outcome A) (h : string -> Outcome A) : Outcome A :=
  match c with
  | Ret a => Ret a
  | Throw e => h e
  end.

Definition mapM {A B : Type} (f : A -> Outcome B) : list A -> Outcome (list B) :=
  fix go (l : list A) : Outcome (list B) :=
    match l with
    | [] => Ret []
    | x :: l' => y ← f x; ys ← go l'; Ret (y :: ys)
    end.

(** ** The host: [JSON.parse] and the printing of numbers *)

Class Runtime : Type := {
  (** [JSON.parse(text)]; [None] stands for the [SyntaxError]. *)
  JSON_parse : string -> option Value;
  (** [Number.prototype.toString] *)
  Number_toString : number -> string
}.

(** ** Operations on values *)

Definition truthy (v : Value) : bool :=
  match v with
  | VUndef | VNull => false
  | VBool b => b
  | VNum (Fin q) => negb (Qeq_bool q 0)
  | VNum _ => true
  | VStr s => JS.nonEmpty s
  | VArr _ | VObj _ => true
  end.

Definition nullish (v : Value) : bool :=
  match v with
  | VUndef | VNull => true
  | _ => false
  end.

Fixpoint lookupProp (k : string) (props : list (string * Value)) : Value :=
  match props with
  | [] => VUndef
  | (k', v) :: rest => if String.eqb k k' then v else lookupProp k rest
  end.

Fixpoint hasProp (k : string) (props : list (string * Value)) : bool :=
  match props with
  | [] => false
  | (k', _) :: rest => String.eqb k k' || hasProp k rest
  end.

(** [v?.k], for the keys the source reads (none of them is a property of a
    built-in prototype, so primitives and arrays answer [undefined]). *)
Definition optProp (v : Value) (k : string) : Value :=
  match v with
  | VObj props => lookupProp k props
  | _ => VUndef
  end.

(** [v.k]: a [TypeError] on [null] and [undefined]. *)
Definition getProp (v : Value) (k : string) : Outcome Value :=
  if nullish v then Throw "TypeError: cannot read properties of null or undefined"
  else Ret (optProp v k).

(** [v?.[0]] *)
Definition optFirst (v : Value) : Value :=
  match v with
  | VArr xs => default VUndef (head xs)
  | VStr (String c _) => VStr (String c EmptyString)
  | VObj props => lookupProp "0" props
  | _ => VUndef
  end.

(** [ToString]: an object converts through [Object.prototype.toString]
    unless an own property shadows it (a JSON value is never callable, so
    the conversion then ends in a [TypeError]); an array joins its
    elements with commas, [null] and [undefined] printing as nothing. *)
Fixpoint ToString {RT : Runtime} (v : Value) : Outcome string :=
  match v with
  | VUndef => Ret "undefined"
  | VNull => Ret "null"
  | VBool true => Ret "true"
  | VBool false => Ret "false"
  | VNum n => Ret (Number_toString n)
  | VStr s => Ret s
  | VArr xs =>
      strs ← mapM (fun x => match x with
                            | VUndef | VNull => Ret EmptyString
                            | _ => ToString x
                            end) xs;
      Ret (JS.join "," strs)
  | VObj props =>
      if hasProp "toString" props
      then Throw "TypeError: cannot convert object to primitive value"
      else Ret "[object Object]"
  end.

Definition elementToString {RT : Runtime} (v : Value) : Outcome string :=
  if nullish v then Ret EmptyString else ToString v.

(** [xs.join(sep)] on an array of values *)
Definition joinValues {RT : Runtime} (sep : string) (xs : list Value) : Outcome string :=
  strs ← mapM elementToString xs; Ret (JS.join sep strs).

(** [JSON.parse(v)]: the argument is converted to a string first. *)
Definition parseJSON {RT : Runtime} (v : Value) : Outcome Value :=
  text ← ToString v;
  match JSON_parse text with
  | Some parsed => Ret parsed
  | None => Throw "SyntaxError"
  end.

(** *** Arrays as [content]: [Array.prototype.indexOf], [lastIndexOf] and
    [slice], compared with [===] against a string *)

Definition isString (k : string) (v : Value) : bool :=
  match v with
  | VStr s => String.eqb s k
  | _ => false
  end.

Fixpoint arrayIndexOfFrom (i : Z) (xs : list Value) (k : string) : Z :=
  match xs with
  | [] => -1
  | x :: xs' => if isString k x then i else arrayIndexOfFrom (i + 1) xs' k
  end.

Fixpoint arrayLastIndexOfFrom (i : Z) (xs : list Value) (k : string) : Z :=
  match xs with
  | [] => -1
  | x :: xs' =>
      let r := arrayLastIndexOfFrom (i + 1) xs' k in
      if (r =? -1)%Z then (if isString k x then i else -1) else r
  end.

Definition arraySlice (xs : list Value) (start stop : Z) : list Value :=
  let len := Z.of_nat (length xs) in
  let from := JS.relative len start in
  let to := JS.relative len stop in
  take (Z.to_nat (Z.max (to - from) 0)) (drop (Z.to_nat from) xs).

Definition notAFunction {A : Type} (what : string) : Outcome A :=
  Throw ("TypeError: " +:+ what +:+ " is not a function").

Definition indexOfValue (content : Value) (k : string) : Outcome Z :=
  match content with
  | VStr s => Ret (JS.indexOf s k)
  | VArr xs => Ret (arrayIndexOfFrom 0 xs k)
  | _ => notAFunction "content.indexOf"
  end.

Definition lastIndexOfValue (content : Value) (k : string) : Outcome Z :=
  match content with
  | VStr s => Ret (JS.lastIndexOf s k)
  | VArr xs => Ret (arrayLastIndexOfFrom 0 xs k)
  | _ => notAFunction "content.lastIndexOf"
  end.

Definition sliceValue (content : Value) (start stop : Z) : Outcome Value :=
  match content with
  | VStr s => Ret (VStr (JS.slice s start stop))
  | VArr xs => Ret (VArr (arraySlice xs start stop))
  | _ => notAFunction "content.slice"
  end.

(** *** Numbers as data: [Math.round], [Math.max], [Math.min] *)

Definition num_ltb (a b : number) : bool :=
  match a, b with
  | _, NegInf => false
  | NegInf, _ => true
  | PosInf, _ => false
  | _, PosInf => true
  | Fin p, Fin q => negb (Qle_bool q p)
  end.

(** [Math.round]: the nearest integer, a tie going up. *)
Definition Math_round (n : number) : number :=
  match n with
  | Fin q => num (Qfloor (q + (1 # 2)))
  | _ => n
  end.

Definition Math_max (a b : number) : number := if num_ltb a b then b else a.
Definition Math_min (a b : number) : number := if num_ltb b a then b else a.

(** ** Response normalizer *)

(** [parsed.status?.toLowerCase()] *)
Definition lowerStatus (st : Value) : Outcome Value :=
  match st with
  | VUndef | VNull => Ret VUndef
  | VStr s => Ret (VStr (JS.toLowerCase s))
  | _ => notAFunction "parsed.status.toLowerCase"
  end.

Definition parseLLMJson {RT : Runtime} (content : Value) (fallback : Verdict) (source : string)
  : Outcome Verdict :=
  catch
    (start ← indexOfValue content "{";
     stop ← lastIndexOfValue content "}";
     if ((start =? -1) || (stop =? -1))%Z then Ret fallback
     else
       text ← sliceValue content start (stop + 1);
       parsed ← parseJSON text;
       st ← getProp parsed "status";
       lowered ← lowerStatus st;
       ev ← getProp parsed "evidence";
       re ← getProp parsed "reasoning";
       co ← getProp parsed "confidence";
       Ret {| rule := rule fallback;
              status := if isString "pass" lowered then "pass" else "fail";
              evidence := if truthy ev then ev else evidence fallback;
              reasoning := if truthy re then re else reasoning fallback;
              confidence :=
                match co with
                | VNum n => Math_min (num 100) (Math_max (num 0) (Math_round n))
                | _ => confidence fallback
                end;
              source := source |})
    (fun _ => Ret fallback).

(** ** Process configuration: the module-level state and its start-up *)

Record Env : Type := {
  OPENAI_API_KEY : option string;
  MISTRAL_API_KEY : option string;
  GROQ_API_KEY : option string;
  LLM_PROVIDER : option string;
  OPENAI_MODEL : option string;
  MISTRAL_MODEL : option string;
  GROQ_MODEL : option string
}.

(** [activeProvider], [activeModel] and the three client variables; a
    client is [true] when the variable holds an SDK object, [false] when
    it is [null]. *)
Record Registry : Type := {
  activeProvider : string;
  activeModel : string;
  openai : bool;
  mistral : bool;
  groq : bool
}.

(** truthiness of [process.env.X] and of [process.env.X?.trim()] *)
Definition present (o : option string) : bool :=
  match o with
  | Some s => JS.nonEmpty s
  | None => false
  end.

(** [o || d] *)
Definition orElse (o : option string) (d : string) : string :=
  match o with
  | Some s => if JS.nonEmpty s then s else d
  | None => d
  end.

Definition trimmedOpenAiKey (env : Env) := JS.trim <$> OPENAI_API_KEY env.
Definition trimmedMistralKey (env : Env) := JS.trim <$> MISTRAL_API_KEY env.
Definition trimmedGroqKey (env : Env) := JS.trim <$> GROQ_API_KEY env.
Definition providerPreference (env : Env) := JS.toLowerCase <$> LLM_PROVIDER env.

Definition openaiModel (env : Env) := orElse (OPENAI_MODEL env) "gpt-4o-mini".
Definition mistralModel (env : Env) := orElse (MISTRAL_MODEL env) "mistral-medium-latest".
Definition groqModel (env : Env) := orElse (GROQ_MODEL env) "openai/gpt-oss-20b".

Definition initialRegistry : Registry :=
  {| activeProvider := "heuristic"; activeModel := "heuristic";
     openai := false; mistral := false; groq := false |}.

Definition resolveOpenAI (env : Env) (st : Registry) : Registry :=
  if negb (present (trimmedOpenAiKey env)) then st
  else {| activeProvider := "openai"; activeModel := openaiModel env;
          openai := true; mistral := mistral st; groq := groq st |}.

Definition resolveMistral (env : Env) (st : Registry) : Registry :=
  if negb (present (trimmedMistralKey env)) then st
  else {| activeProvider := "mistral"; activeModel := mistralModel env;
          openai := openai st; mistral := true; groq := groq st |}.

Definition resolveGroq (env : Env) (st : Registry) : Registry :=
  if negb (present (trimmedGroqKey env)) then st
  else {| activeProvider := "groq"; activeModel := groqModel env;
          openai := openai st; mistral := mistral st; groq := true |}.

Definition prefers (env : Env) (name : string) : bool :=
  match providerPreference env with
  | Some p => String.eqb p name
  | None => false
  end.

(** The [if]/[else if] chain run once when the module is loaded. *)
Definition startup (env : Env) : Registry :=
  if prefers env "openai" then resolveOpenAI env initialRegistry
  else if prefers env "mistral" then resolveMistral env initialRegistry
  else if prefers env "groq" then resolveGroq env initialRegistry
  else if present (trimmedOpenAiKey env) then resolveOpenAI env initialRegistry
  else if present (trimmedMistralKey env) then resolveMistral env initialRegistry
  else if present (trimmedGroqKey env) then resolveGroq env initialRegistry
  else initialRegistry.

(** ** Effects: what an evaluation does to the outside *)

Inductive Event : Type :=
| Evaluating (rule documentText : string)
    (** [evaluateRuleWithLLM] has been entered *)
| Requested (provider prompt : string)
    (** a completion has been requested from a backend *).

(** A computation: the events it caused, and how it ended. *)
Record Run (A : Type) : Type := mkRun {
  events : list Event;
  outcome : Outcome A
}.
Arguments mkRun {A} events outcome.
Arguments events {A} r.
Arguments outcome {A} r.

#[export] Instance Run_ret : MRet Run := fun A a => mkRun [] (Ret a).
#[export] Instance Run_bind : MBind Run := fun A B f c =>
  match outcome c with
  | Ret a => mkRun (events c ++ events (f a)) (outcome (f a))
  | Throw e => mkRun (events c) (Throw e)
  end.

Definition emit (e : Event) : Run unit := mkRun [e] (Ret tt).
Definition lift {A : Type} (o : Outcome A) : Run A := mkRun [] o.

Definition catchRun {A : Type} (c : Run A) (h : string -> Run A) : Run A :=
  match outcome c with
  | Ret a => c
  | Throw e => mkRun (events c ++ events (h e)) (outcome (h e))
  end.

(** How the awaited SDK call settles: rejected with an [Error] carrying a
    message, or fulfilled with the response object. *)
Inductive Reply : Type :=
| Rejected (message : string)
| Resolved (response : Value).

Definition await (provider prompt : string) (reply : Reply) : Run Value :=
  _ ← emit (Requested provider prompt);
  match reply with
  | Rejected message => lift (Throw message)
  | Resolved response => mret response
  end.

(** ** Backend adapters *)

Definition nl : string := String "010" EmptyString.
Definition dq : string := String "034" EmptyString.

Definition buildPrompt (rule documentText : string) : string :=
  nl +:+ "You are validating whether a PDF document satisfies a specific rule." +:+ nl
  +:+ "Return strict JSON with the keys: status (" +:+ dq +:+ "pass" +:+ dq
  +:+ " or " +:+ dq +:+ "fail" +:+ dq +:+ "), evidence (short quote)," +:+ nl
  +:+ "reasoning (one sentence), confidence (0-100 integer)." +:+ nl
  +:+ nl
  +:+ "Rule: " +:+ dq +:+ rule +:+ dq +:+ nl
  +:+ "Document text:" +:+ nl
  +:+ dq +:+ dq +:+ dq +:+ nl
  +:+ documentText +:+ nl
  +:+ dq +:+ dq +:+ dq +:+ nl
  +:+ "JSON Response:" +:+ nl.

(** [completion.choices?.[0]?.message?.content] *)
Definition messageContentOf (completion : Value) : Outcome Value :=
  choices ← getProp completion "choices";
  Ret (optProp (optProp (optFirst choices) "message") "content").

(** ['text' in chunk ? chunk.text : chunk?.content ?? ''] *)
Definition mistralChunk (chunk : Value) : Outcome Value :=
  match chunk with
  | VObj props =>
      if hasProp "text" props then Ret (lookupProp "text" props)
      else let c := lookupProp "content" props in
           Ret (if nullish c then VStr EmptyString else c)
  | VArr _ => Ret (VStr EmptyString)
  | _ => Throw "TypeError: cannot use 'in' operator on a primitive"
  end.

Definition mistralContent {RT : Runtime} (messageContent : Value) : Outcome string :=
  match messageContent with
  | VStr s => Ret s
  | VArr chunks => texts ← mapM mistralChunk chunks; joinValues nl texts
  | _ => Ret EmptyString
  end.

(** [chunk?.text?.value || chunk?.text || ''] *)
Definition groqChunk (chunk : Value) : Value :=
  let text := optProp chunk "text" in
  let value := optProp text "value" in
  if truthy value then value
  else if truthy text then text
  else VStr EmptyString.

Definition groqItem {RT : Runtime} (item : Value) : Outcome string :=
  match optProp item "content" with
  | VArr chunks => joinValues EmptyString (groqChunk <$> chunks)
  | _ => Ret EmptyString
  end.

Definition extractGroqText {RT : Runtime} (response : Value) : Outcome string :=
  if negb (truthy response) then Ret EmptyString
  else
    match optProp response "output_text" with
    | VStr s => Ret s
    | VArr parts => joinValues nl parts
    | _ =>
        match optProp response "output" with
        | VArr items => texts ← mapM groqItem items; Ret (JS.join nl texts)
        | _ => Ret EmptyString
        end
    end.

(** ** Evaluation orchestrator *)

Definition noClient (reg : Registry) : bool :=
  negb (openai reg) && negb (mistral reg) && negb (groq reg).

(** [provider || activeProvider] *)
Definition effectiveOf (reg : Registry) (provider : option string) : string :=
  orElse provider (activeProvider reg).

Definition evaluateRuleWithLLM {RT : Runtime} (reg : Registry) (rule documentText : string)
    (provider : option string) (reply : Reply) : Run Verdict :=
  _ ← emit (Evaluating rule documentText);
  let effectiveProvider := effectiveOf reg provider in
  if String.eqb effectiveProvider "heuristic" || noClient reg
  then mret (buildFallbackResult rule documentText)
  else
    let fallback := buildFallbackResult rule documentText in
    let prompt := buildPrompt rule documentText in
    catchRun
      (if String.eqb effectiveProvider "openai" && openai reg then
         completion ← await "openai" prompt reply;
         content ← lift (messageContentOf completion);
         if negb (truthy content) then mret fallback
         else lift (parseLLMJson content fallback "openai")
       else if String.eqb effectiveProvider "mistral" && mistral reg then
         completion ← await "mistral" prompt reply;
         messageContent ← lift (messageContentOf completion);
         content ← lift (mistralContent messageContent);
         if negb (JS.nonEmpty content) then mret fallback
         else lift (parseLLMJson (VStr content) fallback "mistral")
       else if String.eqb effectiveProvider "groq" && groq reg then
         response ← await "groq" prompt reply;
         content ← lift (extractGroqText response);
         if negb (JS.nonEmpty content) then mret fallback
         else lift (parseLLMJson (VStr content) fallback "groq")
       else mret fallback)
      (fun error => mret fallback).

(** ** Document text *)

(** [text.replace(/\u0000/g, '')] *)
Fixpoint stripNul (s : string) : string :=
  match s with
  | EmptyString => EmptyString
  | String c s' =>
      if Ascii.eqb c "000" then stripNul s' else String c (stripNul s')
  end.

(** What the PDF library answers: it throws, or it yields a text (or no
    [text] property) and a page total. *)
Inductive Extraction : Type :=
| ExtractionFailed (message : string)
| Extracted (text : option string) (total : Value).

(** [s || ''] *)
Definition orEmpty (s : string) : string :=
  if JS.nonEmpty s then s else EmptyString.

(** [textResult.text?.replace(/\s+/g, ' ').replace(/\u0000/g, '').trim() || ''] *)
Definition cleanText (text : option string) : string :=
  match text with
  | Some t => orEmpty (JS.trim (stripNul (collapseWhitespace t)))
  | None => EmptyString
  end.

Definition extractTextFromPdf (pdf : Extraction) : Outcome (string * Value) :=
  match pdf with
  | ExtractionFailed message => Throw message
  | Extracted text total =>
      Ret (cleanText text, if truthy total then total else VNull)
  end.

Definition truncateText (text : string) (limit : Z) : string :=
  if (limit <? JS.length text)%Z then JS.slice text 0 limit else text.

(** ** Batch coordinator *)

(** [Promise.all]: promise [i] settles at time [latency i]; a fulfilment
    stores its value in slot [i], the first rejection rejects the whole;
    when every slot is filled the array of slots is the result. *)
Definition earlier (latency : nat -> nat) (i j : nat) : Prop :=
  (latency i <= latency j)%nat.

#[export] Instance earlier_dec (latency : nat -> nat) (i j : nat)
  : Decision (earlier latency i j).
Proof. unfold earlier. apply _. Defined.

Definition completionOrder (latency : nat -> nat) (n : nat) : list nat :=
  merge_sort (earlier latency) (seq 0 n).

Fixpoint settle {A : Type} (ps : list (Outcome A)) (order : list nat)
    (slots : list (option A)) : Outcome (list (option A)) :=
  match order with
  | [] => Ret slots
  | i :: rest =>
      match ps !! i with
      | Some (Ret a) => settle ps rest (<[i := Some a]> slots)
      | Some (Throw e) => Throw e
      | None => settle ps rest slots
      end
  end.

Definition filled {A : Type} (slot : option A) : Outcome A :=
  match slot with
  | Some a => Ret a
  | None => Throw "pending"
  end.

Definition Promise_all {A : Type} (latency : nat -> nat) (ps : list (Outcome A))
  : Outcome (list A) :=
  slots ← settle ps (completionOrder latency (length ps))
                 (replicate (length ps) None);
  mapM filled slots.

(** The calls are started in array order, each running up to its [await];
    the completions come in the order of the latencies. *)
Definition allRuns {A : Type} (latency : nat -> nat) (rs : list (Run A))
  : Run (list A) :=
  mkRun (concat (events <$> rs)) (Promise_all latency (outcome <$> rs)).

(** ** The [/api/check] handler *)

Record Request : Type := {
  req_file : option string;   (** [req.file]: the uploaded bytes *)
  body_rules : Value;         (** [req.body.rules] *)
  body_provider : Value       (** [req.body.provider] *)
}.

Inductive Body : Type :=
| Message (message : string)
| Report (pageCount : Value) (model : string) (textLength : Z)
         (results : list Verdict).

Record Response : Type := {
  statusCode : Z;
  body : Body
}.

Definition reject (code : Z) (message : string) : Run Response :=
  mret {| statusCode := code; body := Message message |}.

(** [typeof rule === 'string' ? rule.trim() : ''] *)
Definition ruleText (rule : Value) : string :=
  match rule with
  | VStr s => JS.trim s
  | _ => EmptyString
  end.

Definition normalizeRules (rules : Value) : Outcome (list string) :=
  match rules with
  | VArr xs => Ret (take 10 (filter (fun r => JS.nonEmpty r = true) (ruleText <$> xs)))
  | _ => notAFunction "rules.map"
  end.

Definition readRules {RT : Runtime} (rawRules : Value) : Outcome Value :=
  match rawRules with
  | VArr _ => Ret rawRules
  | _ => catch (parseJSON rawRules) (fun _ => Ret (VArr [rawRules]))
  end.

Definition allowedProviders : list string := ["groq"; "mistral"; "openai"; "heuristic"].

Definition requestedProviderOf (rawProvider : Value) : option string :=
  match rawProvider with
  | VStr s => Some (JS.trim (JS.toLowerCase s))
  | _ => None
  end.

Definition effectiveProviderOf (reg : Registry) (rawProvider : Value) : string :=
  match requestedProviderOf rawProvider with
  | Some p =>
      if JS.nonEmpty p && bool_decide (p ∈ allowedProviders) then p
      else activeProvider reg
  | None => activeProvider reg
  end.

Definition resolvedModelOf (env : Env) (effectiveProvider : string) : string :=
  if String.eqb effectiveProvider "groq" then groqModel env
  else if String.eqb effectiveProvider "mistral" then mistralModel env
  else if String.eqb effectiveProvider "openai" then openaiModel env
  else "heuristic".

Definition check {RT : Runtime} (env : Env) (reg : Registry) (req : Request)
    (pdf : Extraction) (replies : nat -> Reply) (latency : nat -> nat)
  : Run Response :=
  catchRun
    (match req_file req with
     | None => reject 400 "PDF file is required."
     | Some buffer =>
         let rawRules := body_rules req in
         let rawProvider := body_provider req in
         if negb (truthy rawRules)
         then reject 400 "At least one rule is required."
         else
           rules ← lift (readRules rawRules);
           normalizedRules ← lift (normalizeRules rules);
           if bool_decide (normalizedRules = [])
           then reject 400 "Rules must be non-empty text."
           else
             let effectiveProvider := effectiveProviderOf reg rawProvider in
             '(text, pageCount) ← lift (extractTextFromPdf pdf);
             let documentText := truncateText text 12000 in
             if negb (JS.nonEmpty documentText)
             then reject 422 "Could not extract text from the PDF."
             else
               evaluations ←
                 allRuns latency
                   (imap (fun i rule =>
                            evaluateRuleWithLLM reg rule documentText
                              (Some effectiveProvider) (replies i))
                         normalizedRules);
               mret {| statusCode := 200;
                       body := Report pageCount
                                 (resolvedModelOf env effectiveProvider)
                                 (JS.length documentText) evaluations |}
     end)
    (fun error =>
       reject 500 "An unexpected error occurred while checking the document.").


(** ** A reference host

    A reader for JSON texts (ECMA-404) and a printer of numbers, to run the
    model on concrete inputs.  The reader keeps the exact decimal value of a
    numeral (an overflowing one becomes an infinity) and accepts the
    [\uXXXX] escapes below 256.  The theorems below hold for every host; the
    examples use this one. *)

Module Reference.

Definition isJsonSpace (c : ascii) : bool :=
  let n := JS.code c in ((n =? 32) || (n =? 9) || (n =? 10) || (n =? 13))%N.

Fixpoint skipSpace (s : string) : string :=
  match s with
  | String c s' => if isJsonSpace c then skipSpace s' else s
  | EmptyString => EmptyString
  end.

Definition digitOf (c : ascii) : option Z :=
  let n := JS.code c in
  if ((48 <=? n) && (n <=? 57))%N then Some (Z.of_N (n - 48)) else None.

Definition hexOf (c : ascii) : option N :=
  let n := JS.code c in
  if ((48 <=? n) && (n <=? 57))%N then Some (n - 48)%N
  else if ((97 <=? n) && (n <=? 102))%N then Some (n - 87)%N
  else if ((65 <=? n) && (n <=? 70))%N then Some (n - 55)%N
  else None.

(** [digits acc n s]: the longest run of digits at the head of [s], its
    value appended to [acc], and the number [n] of digits read. *)
Fixpoint digits (acc : Z) (n : nat) (s : string) : Z * nat * string :=
  match s with
  | String c s' =>
      match digitOf c with
      | Some d => digits (10 * acc + d) (S n) s'
      | None => (acc, n, s)
      end
  | EmptyString => (acc, n, s)
  end.

(** From [2^1024 - 2^970] on a numeral rounds to an infinity; up to
    [2^-1075] it rounds to zero. *)
Definition overflowBound : Z := (2 ^ 1024 - 2 ^ 970)%Z.
Definition underflowBound : Q := Qmake 1 (Z.to_pos (2 ^ 1075)).

(** [sign * mant * 10^expo] as data *)
Definition toNumber (negative : bool) (mant expo : Z) : number :=
  let q := if (0 <=? expo)%Z then inject_Z (mant * 10 ^ expo)
           else Qmake mant (Z.to_pos (10 ^ (- expo))) in
  if Qle_bool (inject_Z overflowBound) q
  then (if negative then NegInf else PosInf)
  else if Qle_bool q underflowBound then Fin 0
  else Fin (if negative then Qopp q else q).

Definition readExponent (s : string) : option (Z * string) :=
  match s with
  | String c s' =>
      if (Ascii.eqb c "e" || Ascii.eqb c "E")%bool then
        let '(negative, s1) :=
          match s' with
          | String "-" t => (true, t)
          | String "+" t => (false, t)
          | _ => (false, s')
          end in
        match digits 0 0 s1 with
        | (_, O, _) => None
        | (e, _, rest) => Some (if negative then (- e)%Z else e, rest)
        end
      else Some (0%Z, s)
  | EmptyString => Some (0%Z, s)
  end.

Definition readNumber (s : string) : option (number * string) :=
  let '(negative, s0) :=
    match s with
    | String "-" t => (true, t)
    | _ => (false, s)
    end in
  match s0 with
  | String c _ =>
      match digits 0 0 s0 with
      | (_, O, _) => None
      | (int, n, s1) =>
          if (Ascii.eqb c "0" && negb (Nat.eqb n 1))%bool then None
          else
            let frac :=
              match s1 with
              | String "." t =>
                  match digits int 0 t with
                  | (_, O, _) => None
                  | (mant, k, rest) => Some (mant, Z.of_nat k, rest)
                  end
              | _ => Some (int, 0%Z, s1)
              end in
            match frac with
            | Some (mant, k, s2) =>
                match readExponent s2 with
                | Some (e, rest) => Some (toNumber negative mant (e - k), rest)
                | None => None
                end
            | None => None
            end
      end
  | EmptyString => None
  end.

Definition readHex4 (s : string) : option (ascii * string) :=
  match s with
  | String a (String b (String c (String d rest))) =>
      match hexOf a, hexOf b, hexOf c, hexOf d with
      | Some x, Some y, Some z, Some w =>
          let n := (((x * 16 + y) * 16 + z) * 16 + w)%N in
          if (n <? 256)%N then Some (ascii_of_N n, rest) else None
      | _, _, _, _ => None
      end
  | _ => None
  end.

Definition escapeOf (c : ascii) : option ascii :=
  if Ascii.eqb c "034" then Some "034"%char
  else if Ascii.eqb c "\" then Some "\"%char
  else if Ascii.eqb c "/" then Some "/"%char
  else if Ascii.eqb c "b" then Some "008"%char
  else if Ascii.eqb c "f" then Some "012"%char
  else if Ascii.eqb c "n" then Some "010"%char
  else if Ascii.eqb c "r" then Some "013"%char
  else if Ascii.eqb c "t" then Some "009"%char
  else None.

(** The characters of a string literal, after its opening quote. *)
Fixpoint readChars (fuel : nat) (s : string) : option (string * string) :=
  match fuel with
  | O => None
  | S fuel' =>
      match s with
      | EmptyString => None
      | String c rest =>
          if Ascii.eqb c "034" then Some (EmptyString, rest)
          else if Ascii.eqb c "\" then
            match rest with
            | String "u" rest' =>
                match readHex4 rest' with
                | Some (x, rest'') =>
                    match readChars fuel' rest'' with
                    | Some (str, out) => Some (String x str, out)
                    | None => None
                    end
                | None => None
                end
            | String e rest' =>
                match escapeOf e, readChars fuel' rest' with
                | Some x, Some (str, out) => Some (String x str, out)
                | _, _ => None
                end
            | EmptyString => None
            end
          else if (JS.code c <? 32)%N then None
          else
            match readChars fuel' rest with
            | Some (str, out) => Some (String c str, out)
            | None => None
            end
      end
  end.

Definition readString (s : string) : option (string * string) :=
  readChars (S (String.length s)) s.

Definition keyword (k : string) (v : Value) (s : string) : option (Value * string) :=
  if String.prefix k s
  then Some (v, String.substring (String.length k) (String.length s) s)
  else None.

(** A later member replaces an earlier one of the same name. *)
Fixpoint setProp (k : string) (v : Value) (props : list (string * Value))
  : list (string * Value) :=
  match props with
  | [] => [(k, v)]
  | (k', v') :: rest =>
      if String.eqb k k' then (k, v) :: rest else (k', v') :: setProp k v rest
  end.

Fixpoint readValue (fuel : nat) (s : string) : option (Value * string) :=
  match fuel with
  | O => None
  | S fuel' =>
      match skipSpace s with
      | EmptyString => None
      | String c rest as s0 =>
          if Ascii.eqb c "{" then
            match skipSpace rest with
            | String "}" out => Some (VObj [], out)
            | s1 => readMembers fuel' [] s1
            end
          else if Ascii.eqb c "[" then
            match skipSpace rest with
            | String "]" out => Some (VArr [], out)
            | s1 => readElements fuel' [] s1
            end
          else if Ascii.eqb c "034" then
            match readString rest with
            | Some (str, out) => Some (VStr str, out)
            | None => None
            end
          else if Ascii.eqb c "t" then keyword "true" (VBool true) s0
          else if Ascii.eqb c "f" then keyword "false" (VBool false) s0
          else if Ascii.eqb c "n" then keyword "null" VNull s0
          else
            match readNumber s0 with
            | Some (n, out) => Some (VNum n, out)
            | None => None
            end
      end
  end
with readElements (fuel : nat) (acc : list Value) (s : string)
  : option (Value * string) :=
  match fuel with
  | O => None
  | S fuel' =>
      match readValue fuel' s with
      | Some (v, out) =>
          match skipSpace out with
          | String "," out' => readElements fuel' (acc ++ [v]) out'
          | String "]" out' => Some (VArr (acc ++ [v]), out')
          | _ => None
          end
      | None => None
      end
  end
with readMembers (fuel : nat) (acc : list (string * Value)) (s : string)
  : option (Value * string) :=
  match fuel with
  | O => None
  | S fuel' =>
      match skipSpace s with
      | String "034" s1 =>
          match readString s1 with
          | Some (k, s2) =>
              match skipSpace s2 with
              | String ":" s3 =>
                  match readValue fuel' s3 with
                  | Some (v, out) =>
                      match skipSpace out with
                      | String "," out' => readMembers fuel' (setProp k v acc) out'
                      | String "}" out' => Some (VObj (setProp k v acc), out')
                      | _ => None
                      end
                  | None => None
                  end
              | _ => None
              end
          | None => None
          end
      | _ => None
      end
  end.

Definition parse (text : string) : option Value :=
  match readValue (2 * String.length text + 2) text with
  | Some (v, out) =>
      match skipSpace out with
      | EmptyString => Some v
      | _ => None
      end
  | None => None
  end.

Definition digitChar (d : Z) : ascii := ascii_of_N (Z.to_N d + 48).

Fixpoint natural (fuel : nat) (z : Z) (acc : string) : string :=
  match fuel with
  | O => acc
  | S fuel' =>
      let acc' := String (digitChar (z mod 10)) acc in
      if (z <? 10)%Z then acc' else natural fuel' (z / 10) acc'
  end.

Fixpoint fraction (fuel : nat) (r d : Z) : string :=
  match fuel with
  | O => EmptyString
  | S fuel' =>
      if (r =? 0)%Z then EmptyString
      else String (digitChar (10 * r / d)) (fraction fuel' (10 * r mod d) d)
  end.

(** Integers in full; a fraction to at most 17 places. *)
Definition printNumber (n : number) : string :=
  match n with
  | PosInf => "Infinity"
  | NegInf => "-Infinity"
  | Fin q =>
      let a := Z.abs (Qnum q) in
      let d := Z.pos (Qden q) in
      let whole := natural (Z.to_nat (Z.log2 (a / d)) + 1) (a / d) EmptyString in
      let part := fraction 17 (a mod d) d in
      (if (Qnum q <? 0)%Z then "-" else EmptyString)
      +:+ whole +:+ (if JS.nonEmpty part then "." +:+ part else EmptyString)
  end.

#[export] Instance host : Runtime :=
  {| JSON_parse := parse; Number_toString := printNumber |}.

End Reference.

(** * Properties *)

(** ** Characters and strings *)

Lemma whitespace_not_word (c : ascii) :
  JS.isWhiteSpace c = true -> isWordChar (JS.toLowerChar c) = false.
Proof.
  destruct c as [[] [] [] [] [] [] [] []]; vm_compute; congruence.
Qed.

Lemma trimEnd_cons (c : ascii) (s : string) :
  JS.trimEnd (String c s) = EmptyString
  \/ JS.trimEnd (String c s) = String c (JS.trimEnd s).
Proof.
  simpl. destruct (JS.trimEnd s); [destruct (JS.isWhiteSpace c)|]; auto.
Qed.

Lemma trimEnd_empty_cons (c : ascii) (s : string) :
  JS.trimEnd (String c s) = EmptyString ->
  JS.isWhiteSpace c = true /\ JS.trimEnd s = EmptyString.
Proof.
  simpl. destruct (JS.trimEnd s); [destruct (JS.isWhiteSpace c)|]; auto;
    discriminate.
Qed.

(** The words of a text do not depend on the white space at its ends. *)
Lemma matchWords_trimStart (s : string) :
  matchWords (JS.toLowerCase (JS.trimStart s)) = matchWords (JS.toLowerCase s).
Proof.
  induction s as [|c s IH]; [reflexivity|].
  simpl. destruct (JS.isWhiteSpace c) eqn:Hc; [|reflexivity].
  unfold matchWords in *. simpl.
  rewrite (whitespace_not_word c Hc). exact IH.
Qed.

Lemma matchWords_trimEnd (s cur : string) :
  matchWordsFrom cur (JS.toLowerCase (JS.trimEnd s))
  = matchWordsFrom cur (JS.toLowerCase s).
Proof.
  revert cur. induction s as [|c s IH]; intros cur; [reflexivity|].
  destruct (trimEnd_cons c s) as [He|He]; rewrite He.
  - apply trimEnd_empty_cons in He as [Hc Hs].
    simpl. rewrite (whitespace_not_word c Hc).
    rewrite <- IH, Hs. simpl. now rewrite app_nil_r.
  - simpl. destruct (isWordChar (JS.toLowerChar c)); now rewrite IH.
Qed.

Lemma matchWords_trim (s : string) :
  matchWords (JS.toLowerCase (JS.trim s)) = matchWords (JS.toLowerCase s).
Proof.
  unfold JS.trim, matchWords.
  rewrite matchWords_trimEnd. apply matchWords_trimStart.
Qed.

(** ** Heuristic evaluator *)

(** The keywords of the rule as given, before trimming, and the number of
    them found in the lower-cased document, computed as the code computes
    them for the trimmed rule; [passesUntrimmed] compares this number with
    the threshold of the description, [max(1, ceil(0.4 k))] over the
    rationals. *)
Definition keywordsUntrimmed (rule : string) : list string :=
  take 6 (filter (fun word => (4 < JS.length word)%Z)
                 (matchWords (JS.toLowerCase rule))).

Definition matchCountUntrimmed (rule document : string) : nat :=
  length (filter (fun keyword => JS.includes (JS.toLowerCase document) keyword = true)
                 (keywordsUntrimmed rule)).

Definition spec_threshold (keywordCount : nat) : Z :=
  Z.max 1 (Qceiling ((4 # 10) * inject_Z (Z.of_nat keywordCount))).

Definition passesUntrimmed (rule document : string) : bool :=
  (spec_threshold (length (keywordsUntrimmed rule))
   <=? Z.of_nat (matchCountUntrimmed rule document))%Z.

Lemma keywordsOf_trim (rule : string) :
  keywordsOf (JS.trim rule) = keywordsUntrimmed rule.
Proof. unfold keywordsOf, keywordsUntrimmed. now rewrite matchWords_trim. Qed.

Lemma keywordsOf_length (rule : string) : length (keywordsOf rule) <= 6.
Proof. unfold keywordsOf. rewrite length_take. lia. Qed.

Lemma matchesOf_length (keywords : list string) (text : string) :
  length (matchesOf keywords text) <= length keywords.
Proof. apply length_filter. Qed.

(** On at most six keywords the double product [k * 0.4], rounded up and
    compared as doubles, decides exactly as the rational threshold. *)
Lemma threshold_table (k m : nat) :
  k <= 6 -> m <= 6 ->
  JS.geb (JS.ofInt (Z.of_nat m))
         (JS.Math_max 1 (JS.Math_ceil (JS.ofInt (Z.of_nat k) * 0x1.999999999999ap-2)))
  = (spec_threshold k <=? Z.of_nat m)%Z.
Proof.
  intros Hk Hm.
  destruct k as [|[|[|[|[|[|[|k]]]]]]]; [..|exfalso; lia];
    (destruct m as [|[|[|[|[|[|[|m]]]]]]]; [..|exfalso; lia]);
    vm_compute; reflexivity.
Qed.

Lemma threshold_exact (m : nat) (keywords : list string) :
  length keywords <= 6 -> m <= 6 ->
  JS.geb (JS.ofInt (Z.of_nat m)) (thresholdOf keywords)
  = (spec_threshold (length keywords) <=? Z.of_nat m)%Z.
Proof. intros Hk Hm. unfold thresholdOf. now apply threshold_table. Qed.

Lemma heuristic_status (rule document : string) :
  status (buildFallbackResult rule document)
  = if passesUntrimmed rule document then "pass" else "fail".
Proof.
  unfold buildFallbackResult, passesUntrimmed, matchCountUntrimmed. simpl.
  rewrite keywordsOf_trim.
  rewrite (threshold_exact
             (length (matchesOf (keywordsUntrimmed rule) (JS.toLowerCase document)))).
  - reflexivity.
  - rewrite <- keywordsOf_trim. apply keywordsOf_length.
  - etrans; [apply matchesOf_length|].
    rewrite <- keywordsOf_trim. apply keywordsOf_length.
Qed.

Lemma heuristic_confidence (rule document : string) :
  confidence (buildFallbackResult rule document)
  = if passesUntrimmed rule document then num 55 else num 35.
Proof.
  pose proof (heuristic_status rule document) as H.
  unfold buildFallbackResult in *. simpl in *.
  rewrite H. now destruct (passesUntrimmed rule document).
Qed.

(** ** [Promise.all] *)

Lemma mapM_filled {A : Type} (vs : list A) :
  mapM filled (Some <$> vs) = Ret vs.
Proof.
  induction vs as [|v vs IH]; [reflexivity|].
  rewrite fmap_cons.
  change (mapM filled (Some v :: (Some <$> vs)))
    with (y ← filled (Some v); ys ← mapM filled (Some <$> vs); Ret (y :: ys)).
  now rewrite IH.
Qed.

(** When every promise is fulfilled, the slots named by the completion
    order receive the values of their own positions, whatever the order. *)
Lemma settle_fulfilled {A : Type} (vs : list A) (order : list nat) :
  forall slots : list (option A),
    length slots = length vs ->
    exists slots',
      settle (Ret <$> vs) order slots = Ret slots'
      /\ length slots' = length vs
      /\ (forall j, j ∈ order -> j < length vs -> slots' !! j = Some (vs !! j))
      /\ (forall j, j ∉ order -> slots' !! j = slots !! j).
Proof.
  induction order as [|i rest IH]; intros slots Hlen.
  - exists slots. repeat split; auto. intros j Hj. inversion Hj.
  - simpl. rewrite list_lookup_fmap.
    destruct (vs !! i) as [v|] eqn:Hi; simpl.
    + destruct (IH (<[i := Some v]> slots)) as (slots' & Hs & Hl & Hin & Hout).
      { now rewrite length_insert. }
      exists slots'. split; [exact Hs|]. split; [exact Hl|]. split.
      * intros j Hj Hlt. destruct (decide (j ∈ rest)) as [Hr|Hr]; [now apply Hin|].
        apply elem_of_cons in Hj as [->|Hj]; [|contradiction].
        rewrite (Hout i Hr), Hi. apply list_lookup_insert_eq. lia.
      * intros j Hj. apply not_elem_of_cons in Hj as [Hne Hr].
        rewrite (Hout j Hr). now apply list_lookup_insert_ne.
    + destruct (IH slots Hlen) as (slots' & Hs & Hl & Hin & Hout).
      exists slots'. split; [exact Hs|]. split; [exact Hl|]. split.
      * intros j Hj Hlt. destruct (decide (j ∈ rest)) as [Hr|Hr]; [now apply Hin|].
        apply elem_of_cons in Hj as [->|Hj]; [|contradiction].
        apply lookup_ge_None in Hi. lia.
      * intros j Hj. apply not_elem_of_cons in Hj as [Hne Hr]. now apply Hout.
Qed.

Lemma completionOrder_complete (latency : nat -> nat) (n j : nat) :
  j < n -> j ∈ completionOrder latency n.
Proof.
  intros Hj. unfold completionOrder.
  rewrite merge_sort_Permutation. apply elem_of_seq. lia.
Qed.

(** [Promise.all] over fulfilled promises yields their values in the order
    of the array, for every assignment of latencies. *)
Lemma Promise_all_fulfilled {A : Type} (latency : nat -> nat) (vs : list A) :
  Promise_all latency (Ret <$> vs) = Ret vs.
Proof.
  unfold Promise_all. rewrite length_fmap.
  destruct (settle_fulfilled vs (completionOrder latency (length vs))
              (replicate (length vs) None)) as (slots' & Hs & Hl & Hin & _).
  { apply length_replicate. }
  rewrite Hs. unfold mbind, Outcome_bind.
  replace slots' with (Some <$> vs); [apply mapM_filled|].
  apply list_eq. intros j. rewrite list_lookup_fmap.
  destruct (decide (j < length vs)) as [Hj|Hj].
  - rewrite Hin; [|now apply completionOrder_complete|exact Hj].
    destruct (vs !! j) eqn:E; [reflexivity|].
    apply lookup_ge_None in E. lia.
  - rewrite (proj2 (lookup_ge_None vs j)) by lia.
    symmetry. apply lookup_ge_None. lia.
Qed.

(** ** Normalizer and orchestrator *)

Section Properties.
Context {RT : Runtime}.

Lemma outcome_bind {A B : Type} (c : Run A) (f : A -> Run B) :
  outcome (x ← c; f x)
  = match outcome c with
    | Ret a => outcome (f a)
    | Throw e => Throw e
    end.
Proof. unfold mbind, Run_bind. now destruct (outcome c). Qed.

Lemma outcome_catchRun {A : Type} (c : Run A) (h : string -> Run A) :
  outcome (catchRun c h)
  = match outcome c with
    | Ret a => Ret a
    | Throw e => outcome (h e)
    end.
Proof. unfold catchRun. now destruct (outcome c) eqn:E. Qed.

Lemma outcome_await (provider prompt : string) (reply : Reply) :
  outcome (await provider prompt reply)
  = match reply with
    | Rejected message => Throw message
    | Resolved response => Ret response
    end.
Proof. unfold await. rewrite outcome_bind. now destruct reply. Qed.

(** The normalizer never throws. *)
Lemma parseLLMJson_total (content : Value) (fallback : Verdict) (source : string) :
  exists v, parseLLMJson content fallback source = Ret v.
Proof.
  unfold parseLLMJson, catch.
  match goal with |- exists v, match ?c with _ => _ end = _ => destruct c end; eauto.
Qed.

(** The verdict an evaluation ends with. *)
Definition verdictOf (reg : Registry) (rule documentText : string)
    (provider : option string) (reply : Reply) : Verdict :=
  match outcome (evaluateRuleWithLLM reg rule documentText provider reply) with
  | Ret v => v
  | Throw _ => buildFallbackResult rule documentText
  end.

Definition backends : list string := ["openai"; "mistral"; "groq"].

(** An evaluation ends with a verdict: the heuristic one, or what the
    normalizer made of a backend's payload. *)
Lemma evaluate_outcome (reg : Registry) (rule documentText : string)
    (provider : option string) (reply : Reply) :
  exists v,
    outcome (evaluateRuleWithLLM reg rule documentText provider reply) = Ret v
    /\ (v = buildFallbackResult rule documentText
        \/ exists content source,
             source ∈ backends
             /\ parseLLMJson content (buildFallbackResult rule documentText) source
                = Ret v).
Proof.
  unfold evaluateRuleWithLLM.
  rewrite outcome_bind. cbn [outcome emit].
  destruct (_ || _); [simpl; eauto|].
  rewrite outcome_catchRun.
  set (fb := buildFallbackResult rule documentText).
  destruct (_ && openai reg).
  { rewrite !outcome_bind, outcome_await.
    destruct reply as [msg|response]; [simpl; eauto|].
    rewrite outcome_bind. cbn [outcome lift].
    destruct (messageContentOf response) as [content|e]; [|simpl; eauto].
    destruct (truthy content); cbn [negb]; [|simpl; eauto].
    cbn [outcome lift].
    destruct (parseLLMJson_total content fb "openai") as [v Hv].
    rewrite Hv. exists v. split; [reflexivity|]. right. exists content, "openai".
    split; [|exact Hv]. apply list_elem_of_In; simpl; tauto. }
  destruct (_ && mistral reg).
  { rewrite !outcome_bind, outcome_await.
    destruct reply as [msg|response]; [simpl; eauto|].
    rewrite outcome_bind. cbn [outcome lift].
    destruct (messageContentOf response) as [mc|e]; [|simpl; eauto].
    rewrite outcome_bind. cbn [outcome lift].
    destruct (mistralContent mc) as [content|e]; [|simpl; eauto].
    destruct (JS.nonEmpty content); cbn [negb]; [|simpl; eauto].
    cbn [outcome lift].
    destruct (parseLLMJson_total (VStr content) fb "mistral") as [v Hv].
    rewrite Hv. exists v. split; [reflexivity|]. right. exists (VStr content), "mistral".
    split; [|exact Hv]. apply list_elem_of_In; simpl; tauto. }
  destruct (_ && groq reg).
  { rewrite !outcome_bind, outcome_await.
    destruct reply as [msg|response]; [simpl; eauto|].
    rewrite outcome_bind. cbn [outcome lift].
    destruct (extractGroqText response) as [content|e]; [|simpl; eauto].
    destruct (JS.nonEmpty content); cbn [negb]; [|simpl; eauto].
    cbn [outcome lift].
    destruct (parseLLMJson_total (VStr content) fb "groq") as [v Hv].
    rewrite Hv. exists v. split; [reflexivity|]. right. exists (VStr content), "groq".
    split; [|exact Hv]. apply list_elem_of_In; simpl; tauto. }
  simpl. eauto.
Qed.


Lemma outcome_verdictOf (reg : Registry) (rule documentText : string)
    (provider : option string) (reply : Reply) :
  outcome (evaluateRuleWithLLM reg rule documentText provider reply)
  = Ret (verdictOf reg rule documentText provider reply).
Proof.
  unfold verdictOf.
  destruct (evaluate_outcome reg rule documentText provider reply) as (v & Hv & _).
  now rewrite Hv.
Qed.

(** The batch: every evaluation ends with its verdict, so [Promise.all]
    yields one verdict per rule, in the order of the rules. *)
Lemma allRuns_evaluations (reg : Registry) (documentText : string)
    (provider : option string) (replies : nat -> Reply) (latency : nat -> nat)
    (rules : list string) :
  outcome (allRuns latency
             (imap (fun i rule =>
                      evaluateRuleWithLLM reg rule documentText provider (replies i))
                   rules))
  = Ret (imap (fun i rule => verdictOf reg rule documentText provider (replies i))
              rules).
Proof.
  unfold allRuns. cbn [outcome].
  rewrite fmap_imap.
  rewrite (imap_ext _
             (fun i rule => Ret (verdictOf reg rule documentText provider (replies i)))).
  - rewrite <- (fmap_imap (fun i rule => verdictOf reg rule documentText provider (replies i)) Ret).
    apply Promise_all_fulfilled.
  - intros i rule _. simpl. apply outcome_verdictOf.
Qed.

(** What an adapter hands to the normalizer: the payload unwrapped from
    the response of the named backend. *)
Definition payloadOf (name : string) (response : Value) : Outcome Value :=
  if String.eqb name "openai" then messageContentOf response
  else if String.eqb name "mistral" then
    messageContent ← messageContentOf response;
    content ← mistralContent messageContent;
    Ret (VStr content)
  else if String.eqb name "groq" then
    content ← extractGroqText response; Ret (VStr content)
  else Ret VUndef.

(** The backend call failed: it was rejected, or its response could not be
    unwrapped, or the payload is empty. *)
Definition callFailed (name : string) (reply : Reply) : Prop :=
  match reply with
  | Rejected _ => True
  | Resolved response =>
      match payloadOf name response with
      | Ret content => truthy content = false
      | Throw _ => True
      end
  end.

Lemma truthy_VStr (s : string) : truthy (VStr s) = JS.nonEmpty s.
Proof. reflexivity. Qed.

Lemma evaluate_failed (reg : Registry) (rule documentText : string)
    (provider : option string) (reply : Reply) :
  callFailed (effectiveOf reg provider) reply ->
  outcome (evaluateRuleWithLLM reg rule documentText provider reply)
  = Ret (buildFallbackResult rule documentText).
Proof.
  unfold callFailed, payloadOf, evaluateRuleWithLLM.
  remember (effectiveOf reg provider) as eff eqn:Heff. clear Heff. intros Hf.
  rewrite outcome_bind. cbn [outcome emit].
  destruct (_ || _); [reflexivity|].
  rewrite outcome_catchRun.
  destruct (String.eqb_spec eff "openai") as [E|_]; cbn [andb].
  { subst eff. destruct (openai reg); [|reflexivity].
    rewrite !outcome_bind, outcome_await.
    destruct reply as [msg|response]; [reflexivity|].
    rewrite outcome_bind. cbn [outcome lift].
    cbn in Hf.
    destruct (messageContentOf response) as [content|e]; [|reflexivity].
    now rewrite Hf. }
  destruct (String.eqb_spec eff "mistral") as [E|_]; cbn [andb].
  { subst eff. destruct (mistral reg); [|reflexivity].
    rewrite !outcome_bind, outcome_await.
    destruct reply as [msg|response]; [reflexivity|].
    rewrite outcome_bind. cbn [outcome lift].
    cbn [String.eqb Ascii.eqb Bool.eqb] in Hf. unfold mbind, Outcome_bind in Hf.
    destruct (messageContentOf response) as [mc|e]; [|reflexivity].
    rewrite outcome_bind. cbn [outcome lift].
    destruct (mistralContent mc) as [content|e]; [|reflexivity].
    rewrite truthy_VStr in Hf. now rewrite Hf. }
  destruct (String.eqb_spec eff "groq") as [E|_]; cbn [andb].
  { subst eff. destruct (groq reg); [|reflexivity].
    rewrite !outcome_bind, outcome_await.
    destruct reply as [msg|response]; [reflexivity|].
    rewrite outcome_bind. cbn [outcome lift].
    cbn [String.eqb Ascii.eqb Bool.eqb] in Hf. unfold mbind, Outcome_bind in Hf.
    destruct (extractGroqText response) as [content|e]; [|reflexivity].
    rewrite truthy_VStr in Hf. now rewrite Hf. }
  reflexivity.
Qed.

Lemma evaluate_heuristic (reg : Registry) (rule documentText : string)
    (provider : option string) (reply : Reply) :
  effectiveOf reg provider = "heuristic" \/ noClient reg = true ->
  evaluateRuleWithLLM reg rule documentText provider reply
  = mkRun [Evaluating rule documentText]
          (Ret (buildFallbackResult rule documentText)).
Proof.
  intros H. unfold evaluateRuleWithLLM.
  assert (String.eqb (effectiveOf reg provider) "heuristic" || noClient reg = true) as ->.
  { destruct H as [->| ->]; [reflexivity|apply orb_true_r]. }
  reflexivity.
Qed.

(** C1. The orchestrator always ends with a verdict and never throws.  When
    the backend call fails (a rejection, a response that cannot be
    unwrapped, an empty payload) or no client is configured, the verdict is
    the heuristic fallback, whose source is ["heuristic"]; a batch of N
    rules yields N verdicts, all heuristic when every call fails. *)
Theorem orchestrator_total_availability (reg : Registry) (documentText : string)
    (provider : option string) :
  (forall rule reply,
      exists v,
        outcome (evaluateRuleWithLLM reg rule documentText provider reply) = Ret v)
  /\ (forall rule reply,
        callFailed (effectiveOf reg provider) reply \/ noClient reg = true ->
        outcome (evaluateRuleWithLLM reg rule documentText provider reply)
        = Ret (buildFallbackResult rule documentText)
        /\ source (buildFallbackResult rule documentText) = "heuristic")
  /\ (forall (rules : list string) replies latency,
        exists vs,
          outcome (allRuns latency
                     (imap (fun i rule =>
                              evaluateRuleWithLLM reg rule documentText provider
                                                  (replies i))
                           rules)) = Ret vs
          /\ length vs = length rules
          /\ ((forall i, callFailed (effectiveOf reg provider) (replies i)) ->
              vs = (fun rule => buildFallbackResult rule documentText) <$> rules
              /\ Forall (fun v => source v = "heuristic") vs)).
Proof.
  split; [|split].
  - intros rule reply.
    destruct (evaluate_outcome reg rule documentText provider reply) as (v & Hv & _).
    eauto.
  - intros rule reply [Hf|Hn]; (split; [|reflexivity]).
    + now apply evaluate_failed.
    + rewrite evaluate_heuristic by auto. reflexivity.
  - intros rules replies latency.
    eexists. split; [apply allRuns_evaluations|].
    split; [apply length_imap|].
    intros Hall.
    assert (imap (fun i rule => verdictOf reg rule documentText provider (replies i)) rules
            = (fun rule => buildFallbackResult rule documentText) <$> rules) as ->.
    { apply list_eq. intros i. rewrite list_lookup_imap, list_lookup_fmap.
      destruct (rules !! i) as [rule|]; [|reflexivity]. simpl. f_equal.
      unfold verdictOf. now rewrite evaluate_failed. }
    split; [reflexivity|].
    apply Forall_fmap, Forall_forall. intros rule _. reflexivity.
Qed.


(** ** Response normalizer *)

(** The normalizer in the words of its description.  [extractObject]: the
    text from the first opening brace to the last closing brace, read as
    JSON; [spec_normalized]: the per-field mapping. *)
Definition extractObject (raw : string) : option Value :=
  let start := JS.indexOf raw "{" in
  let stop := JS.lastIndexOf raw "}" in
  if ((start =? -1) || (stop =? -1))%Z then None
  else JSON_parse (JS.slice raw start (stop + 1)).

Definition spec_status (st : Value) : string :=
  match st with
  | VStr s => if String.eqb (JS.toLowerCase s) "pass" then "pass" else "fail"
  | _ => "fail"
  end.

Definition spec_field (parsed fallback : Value) : Value :=
  if truthy parsed then parsed else fallback.

(** Rounded to the nearest integer, then clamped to [0, 100]. *)
Definition spec_clamp (n : number) : number :=
  match n with
  | Fin q => num (Z.max 0 (Z.min 100 (Qfloor (q + (1 # 2)))))
  | PosInf => num 100
  | NegInf => num 0
  end.

Definition spec_confidence (parsed : Value) (fallback : number) : number :=
  match parsed with
  | VNum n => spec_clamp n
  | _ => fallback
  end.

Definition spec_normalized (parsed : Value) (fallback : Verdict) (sourceTag : string)
  : Verdict :=
  {| rule := rule fallback;
     status := spec_status (optProp parsed "status");
     evidence := spec_field (optProp parsed "evidence") (evidence fallback);
     reasoning := spec_field (optProp parsed "reasoning") (reasoning fallback);
     confidence := spec_confidence (optProp parsed "confidence") (confidence fallback);
     source := sourceTag |}.

(** The status values on which [toLowerCase] can be called or is skipped:
    a string, [null], or none. *)
Definition statusReadable (st : Value) : bool :=
  match st with
  | VUndef | VNull | VStr _ => true
  | _ => false
  end.

Lemma bind_ret {A B : Type} (a : A) (f : A -> Outcome B) :
  (x ← Ret a; f x) = f a.
Proof. reflexivity. Qed.

Lemma Qle_bool_inject_Z (a b : Z) :
  Qle_bool (inject_Z a) (inject_Z b) = (a <=? b)%Z.
Proof. unfold Qle_bool. simpl. now rewrite !Z.mul_1_r. Qed.

Lemma num_ltb_num (a b : Z) : num_ltb (num a) (num b) = (a <? b)%Z.
Proof.
  unfold num, num_ltb. rewrite Qle_bool_inject_Z.
  destruct (Z.leb_spec b a), (Z.ltb_spec a b); try reflexivity; lia.
Qed.

(** [Math.min(100, Math.max(0, Math.round(n)))] rounds and clamps. *)
Lemma clamp_round (n : number) :
  Math_min (num 100) (Math_max (num 0) (Math_round n)) = spec_clamp n.
Proof.
  destruct n as [q| |]; [|reflexivity|reflexivity].
  unfold Math_round, Math_min, Math_max, spec_clamp.
  set (z := Qfloor (q + (1 # 2))).
  rewrite num_ltb_num.
  destruct (Z.ltb_spec 0 z) as [Hz|Hz]; rewrite num_ltb_num.
  - destruct (Z.ltb_spec z 100) as [Hh|Hh]; unfold num; do 2 f_equal; lia.
  - change (0 <? 100)%Z with true. unfold num; do 2 f_equal; lia.
Qed.

Lemma spec_clamp_range (n : number) :
  exists z : Z, (0 <= z <= 100)%Z /\ spec_clamp n = num z.
Proof.
  destruct n as [q| |]; simpl.
  - eexists. split; [|reflexivity]. lia.
  - exists 100%Z. split; [lia|reflexivity].
  - exists 0%Z. split; [lia|reflexivity].
Qed.

Lemma status_of_lowered (st : Value) (lowered : Value) :
  lowerStatus st = Ret lowered ->
  (if isString "pass" lowered then "pass" else "fail") = spec_status st.
Proof.
  destruct st; simpl; intros H; inversion H; subst; simpl; try reflexivity.
Qed.

Lemma lowerStatus_throws (st : Value) :
  statusReadable st = false -> exists e, lowerStatus st = Throw e.
Proof. destruct st; simpl; try discriminate; eauto. Qed.

Lemma lowerStatus_returns (st : Value) :
  statusReadable st = true -> exists lowered, lowerStatus st = Ret lowered.
Proof. destruct st; simpl; try discriminate; eauto. Qed.

(** The body of the normalizer once an object text has been located. *)
Lemma parseLLMJson_extracted (raw : string) (fallback : Verdict) (source : string)
    (parsed : Value) :
  extractObject raw = Some parsed ->
  nullish parsed = false ->
  parseLLMJson (VStr raw) fallback source
  = if statusReadable (optProp parsed "status")
    then Ret (spec_normalized parsed fallback source)
    else Ret fallback.
Proof.
  unfold extractObject, parseLLMJson. cbn [indexOfValue lastIndexOfValue].
  rewrite !bind_ret.
  destruct (_ || _)%Z; [discriminate|]. intros Hp Hn.
  cbn [sliceValue]. rewrite bind_ret.
  unfold parseJSON. cbn [ToString]. rewrite bind_ret, Hp, bind_ret.
  unfold getProp. rewrite Hn, !bind_ret.
  destruct (statusReadable (optProp parsed "status")) eqn:Hs.
  - destruct (lowerStatus_returns _ Hs) as [lowered Hl].
    rewrite Hl, !bind_ret. cbn [catch].
    unfold spec_normalized. f_equal. f_equal.
    + now apply status_of_lowered.
    + unfold spec_confidence.
      destruct (optProp parsed "confidence"); try reflexivity. apply clamp_round.
  - destruct (lowerStatus_throws _ Hs) as [e He]. rewrite He. reflexivity.
Qed.

Lemma indexOfFrom_absent (s k : string) (i : Z) :
  JS.includes s k = false -> JS.indexOfFrom i s k = (-1)%Z.
Proof.
  revert i. induction s as [|c s IH]; intros i H;
    cbn [JS.includes JS.indexOfFrom] in *.
  - destruct (String.prefix k ""); [discriminate|reflexivity].
  - destruct (String.prefix k (String c s)); [discriminate|].
    cbn [orb] in H. now apply IH.
Qed.

Lemma lastIndexOfFrom_absent (s k : string) (i : Z) :
  JS.includes s k = false -> JS.lastIndexOfFrom i s k = (-1)%Z.
Proof.
  revert i. induction s as [|c s IH]; intros i H;
    cbn [JS.includes JS.lastIndexOfFrom] in *.
  - destruct (String.prefix k ""); [discriminate|reflexivity].
  - destruct (String.prefix k (String c s)); [discriminate|].
    cbn [orb] in H. now rewrite IH.
Qed.

(** C4. A raw text without an opening brace or without a closing brace,
    and a raw text whose part from the first opening brace to the last
    closing brace is not JSON, are normalized to the fallback itself. *)
Theorem normalizer_returns_fallback (raw : string) (fallback : Verdict)
    (source : string) :
  JS.includes raw "{" = false
  \/ JS.includes raw "}" = false
  \/ JSON_parse (JS.slice raw (JS.indexOf raw "{") (JS.lastIndexOf raw "}" + 1)) = None ->
  parseLLMJson (VStr raw) fallback source = Ret fallback.
Proof.
  intros H. unfold parseLLMJson. cbn [indexOfValue lastIndexOfValue].
  rewrite !bind_ret.
  destruct H as [H|[H|H]].
  - unfold JS.indexOf. rewrite (indexOfFrom_absent _ _ _ H). reflexivity.
  - unfold JS.lastIndexOf. rewrite (lastIndexOfFrom_absent _ _ _ H).
    rewrite orb_true_r. reflexivity.
  - destruct (_ || _)%Z; [reflexivity|].
    cbn [sliceValue]. rewrite bind_ret.
    unfold parseJSON. cbn [ToString]. rewrite bind_ret, H. reflexivity.
Qed.

(** The per-field mapping as claimed for every extracted object. *)
Definition claimed_normalization (raw : string) (fallback : Verdict)
    (source : string) : Prop :=
  forall props,
    extractObject raw = Some (VObj props) ->
    parseLLMJson (VStr raw) fallback source
    = Ret (spec_normalized (VObj props) fallback source).

(** C3 (amended). When a JSON object is extracted and its status is absent,
    [null] or a string, the fields are mapped one by one: status is "pass"
    exactly when the parsed status is "pass" in any letter case, else
    "fail"; evidence and reasoning are the parsed values when truthy, else
    the fallback's; confidence is the parsed number rounded and clamped to
    [0, 100] (132.7 gives 100, -5 gives 0, 73.4 gives 73), else the
    fallback's.  When the status has any other type the fallback is
    returned unchanged. *)
Theorem normalizer_field_mapping (raw : string) (fallback : Verdict)
    (source : string) (props : list (string * Value)) :
  extractObject raw = Some (VObj props) ->
  (statusReadable (lookupProp "status" props) = true ->
   parseLLMJson (VStr raw) fallback source
   = Ret (spec_normalized (VObj props) fallback source))
  /\ (statusReadable (lookupProp "status" props) = false ->
      parseLLMJson (VStr raw) fallback source = Ret fallback)
  /\ (forall s, spec_status (VStr s) = "pass" <-> JS.toLowerCase s = "pass")
  /\ (forall st, spec_status st = "pass" \/ spec_status st = "fail")
  /\ (forall n, exists z : Z, (0 <= z <= 100)%Z /\ spec_clamp n = num z)
  /\ spec_clamp (Fin (1327 # 10)) = num 100
  /\ spec_clamp (Fin (-5 # 1)) = num 0
  /\ spec_clamp (Fin (734 # 10)) = num 73.
Proof.
  intros He.
  pose proof (parseLLMJson_extracted raw fallback source (VObj props) He eq_refl) as H.
  cbn [optProp] in H.
  split; [intros Hs; now rewrite H, Hs|].
  split; [intros Hs; now rewrite H, Hs|].
  split.
  { intros s. simpl. destruct (String.eqb_spec (JS.toLowerCase s) "pass"); split;
      intros; try discriminate; congruence. }
  split.
  { intros st. destruct st; simpl; auto.
    destruct (String.eqb (JS.toLowerCase s) "pass"); auto. }
  split; [apply spec_clamp_range|].
  repeat split.
Qed.


(** ** The shape of a verdict *)

Lemma bind_throw {A B : Type} (e : string) (f : A -> Outcome B) :
  (x ← Throw e; f x) = Throw e.
Proof. reflexivity. Qed.

Ltac step_bind H :=
  match type of H with
  | context [@mbind Outcome _ _ _ _ ?c] =>
      let E := fresh "E" in
      destruct c eqn:E; [rewrite bind_ret in H|rewrite bind_throw in H]
  end.

(** What the normalizer can return: the fallback itself, or a verdict that
    keeps the fallback's rule, has a status tag, the given source, a
    clamped or inherited confidence, and truthy or inherited texts. *)
Lemma parseLLMJson_shape (content : Value) (fallback v : Verdict) (src : string) :
  parseLLMJson content fallback src = Ret v ->
  v = fallback
  \/ (rule v = rule fallback
      /\ (status v = "pass" \/ status v = "fail")
      /\ (evidence v = evidence fallback \/ truthy (evidence v) = true)
      /\ (reasoning v = reasoning fallback \/ truthy (reasoning v) = true)
      /\ (confidence v = confidence fallback
          \/ exists n, confidence v = spec_clamp n)
      /\ source v = src).
Proof.
  unfold parseLLMJson. intros H.
  step_bind H; [|left; cbn in H; congruence].
  step_bind H; [|left; cbn in H; congruence].
  destruct (_ || _)%Z; [left; cbn in H; congruence|].
  step_bind H; [|left; cbn in H; congruence].
  step_bind H; [|left; cbn in H; congruence].
  step_bind H; [|left; cbn in H; congruence].
  step_bind H; [|left; cbn in H; congruence].
  step_bind H; [|left; cbn in H; congruence].
  step_bind H; [|left; cbn in H; congruence].
  step_bind H; [|left; cbn in H; congruence].
  cbn [catch] in H. injection H as <-. right. cbn.
  split; [reflexivity|].
  split; [destruct (isString "pass" _); auto|].
  split; [destruct (truthy a5) eqn:T; auto|].
  split; [destruct (truthy a6) eqn:T; auto|].
  split; [|reflexivity].
  destruct a7; auto. right. eexists. apply clamp_round.
Qed.

Lemma nonEmpty_append (a b : string) :
  JS.nonEmpty a = true -> JS.nonEmpty (a +:+ b) = true.
Proof. destruct a; [discriminate|reflexivity]. Qed.

Definition isText (v : Value) : Prop :=
  exists s, v = VStr s /\ JS.nonEmpty s = true.

Lemma fallback_evidence (rule documentText : string) :
  isText (evidence (buildFallbackResult rule documentText)).
Proof.
  unfold buildFallbackResult. cbn [evidence].
  eexists. split; [reflexivity|].
  match goal with |- JS.nonEmpty (match ?e with _ => _ end) = true => destruct e as [s|] end;
    [|reflexivity].
  destruct (JS.nonEmpty s) eqn:E; [exact E|reflexivity].
Qed.

Lemma fallback_reasoning (rule documentText : string) :
  isText (reasoning (buildFallbackResult rule documentText)).
Proof.
  unfold buildFallbackResult. cbn [reasoning].
  eexists. split; [reflexivity|].
  match goal with |- JS.nonEmpty (if ?b then _ else _) = true => destruct b end;
    reflexivity.
Qed.

Lemma isText_truthy (v : Value) : isText v -> truthy v = true.
Proof. intros (s & -> & H). exact H. Qed.

Definition isPercentage (n : number) : Prop :=
  exists z : Z, (0 <= z <= 100)%Z /\ n = num z.

Lemma fallback_confidence (rule documentText : string) :
  isPercentage (confidence (buildFallbackResult rule documentText)).
Proof.
  rewrite heuristic_confidence.
  destruct (passesUntrimmed rule documentText); eexists; (split; [|reflexivity]); lia.
Qed.

Lemma fallback_status (rule documentText : string) :
  status (buildFallbackResult rule documentText) = "pass"
  \/ status (buildFallbackResult rule documentText) = "fail".
Proof. rewrite heuristic_status. destruct (passesUntrimmed _ _); auto. Qed.

(** Every verdict of the orchestrator echoes the trimmed rule, carries a
    status tag, a percentage and the tag of its producer; its evidence and
    reasoning are truthy values (texts, unless a backend sent another
    kind of value). *)
Lemma verdict_shape (reg : Registry) (rule0 documentText : string)
    (provider : option string) (reply : Reply) :
  let v := verdictOf reg rule0 documentText provider reply in
  rule v = JS.trim rule0
  /\ (status v = "pass" \/ status v = "fail")
  /\ truthy (evidence v) = true
  /\ truthy (reasoning v) = true
  /\ isPercentage (confidence v)
  /\ source v ∈ "heuristic" :: backends.
Proof.
  intros v. subst v.
  destruct (evaluate_outcome reg rule0 documentText provider reply)
    as (v & Hv & Hcase).
  unfold verdictOf. rewrite Hv.
  set (fb := buildFallbackResult rule0 documentText) in *.
  assert (Hfb : rule fb = JS.trim rule0
                /\ (status fb = "pass" \/ status fb = "fail")
                /\ truthy (evidence fb) = true
                /\ truthy (reasoning fb) = true
                /\ isPercentage (confidence fb)
                /\ source fb ∈ "heuristic" :: backends).
  { split; [reflexivity|]. split; [apply fallback_status|].
    split; [apply isText_truthy, fallback_evidence|].
    split; [apply isText_truthy, fallback_reasoning|].
    split; [apply fallback_confidence|]. apply list_elem_of_In. simpl. auto. }
  destruct Hcase as [->|(content & src & Hsrc & Hp)]; [exact Hfb|].
  apply parseLLMJson_shape in Hp as [->|(Hr & Hs & He & Hre & Hc & Hsrc')];
    [exact Hfb|].
  destruct Hfb as (Fr & Fs & Fe & Fre & Fc & _).
  split; [congruence|]. split; [exact Hs|].
  split; [destruct He as [->|]; auto|].
  split; [destruct Hre as [->|]; auto|].
  split; [destruct Hc as [->|[n ->]]; [exact Fc|apply spec_clamp_range]|].
  rewrite Hsrc'. now apply list_elem_of_further.
Qed.


(** ** Trimming *)

Lemma trimEnd_idem (s : string) : JS.trimEnd (JS.trimEnd s) = JS.trimEnd s.
Proof.
  induction s as [|c s IH]; [reflexivity|].
  cbn [JS.trimEnd]. destruct (JS.trimEnd s) as [|a t] eqn:E.
  - destruct (JS.isWhiteSpace c) eqn:Hc; [reflexivity|].
    cbn [JS.trimEnd]. now rewrite Hc.
  - change (JS.trimEnd (String c (String a t)))
      with (match JS.trimEnd (String a t) with
            | EmptyString => if JS.isWhiteSpace c then EmptyString
                             else String c EmptyString
            | String a' t' => String c (String a' t')
            end).
    now rewrite IH.
Qed.

Lemma trimStart_fixed (c : ascii) (s : string) :
  JS.isWhiteSpace c = false -> JS.trimStart (String c s) = String c s.
Proof. intros H. cbn [JS.trimStart]. now rewrite H. Qed.

Lemma trimStart_head (s : string) :
  JS.trimStart s = EmptyString
  \/ exists c t, JS.trimStart s = String c t /\ JS.isWhiteSpace c = false.
Proof.
  induction s as [|c s IH]; [now left|].
  cbn [JS.trimStart]. destruct (JS.isWhiteSpace c) eqn:Hc; [exact IH|].
  right. eauto.
Qed.

Lemma trim_idem (s : string) : JS.trim (JS.trim s) = JS.trim s.
Proof.
  unfold JS.trim.
  destruct (trimStart_head s) as [->|(c & t & -> & Hc)]; [reflexivity|].
  destruct (trimEnd_cons c t) as [He|He].
  - apply trimEnd_empty_cons in He as [Hw _]. congruence.
  - rewrite He, (trimStart_fixed c _ Hc), <- He. apply trimEnd_idem.
Qed.

(** ** Batch coordinator *)

Definition trimmed (r : string) : Prop := JS.trim r = r.

Lemma verdictOf_rule (reg : Registry) (rule0 documentText : string)
    (provider : option string) (reply : Reply) :
  rule (verdictOf reg rule0 documentText provider reply) = JS.trim rule0.
Proof. apply verdict_shape. Qed.



(** ** The handler *)

Lemma run_eta {A : Type} (r : Run A) : mkRun (events r) (outcome r) = r.
Proof. now destruct r. Qed.

Lemma run_bind_ret {A B : Type} (a : A) (f : A -> Run B) :
  (x ← lift (Ret a); f x) = f a.
Proof. unfold mbind, Run_bind. cbn. apply run_eta. Qed.

Lemma run_bind_throw {A B : Type} (e : string) (f : A -> Run B) :
  (x ← lift (Throw e); f x) = lift (Throw e).
Proof. reflexivity. Qed.

Lemma catchRun_throw {A : Type} (e : string) (h : string -> Run A) :
  catchRun (lift (Throw e)) h = h e.
Proof. unfold catchRun. cbn. apply run_eta. Qed.

Lemma catchRun_ret {A : Type} (c : Run A) (h : string -> Run A) (a : A) :
  outcome c = Ret a -> catchRun c h = c.
Proof. unfold catchRun. now intros ->. Qed.

(** The events of the whole batch, and the report sent on success. *)
Definition batchEvents (reg : Registry) (rules : list string)
    (documentText effectiveProvider : string) (replies : nat -> Reply)
  : list Event :=
  concat (events <$> imap (fun i rule =>
                             evaluateRuleWithLLM reg rule documentText
                               (Some effectiveProvider) (replies i))
                          rules).

Definition report (env : Env) (reg : Registry) (rules : list string)
    (documentText : string) (pageCount : Value) (effectiveProvider : string)
    (replies : nat -> Reply) : Response :=
  {| statusCode := 200;
     body := Report pageCount (resolvedModelOf env effectiveProvider)
               (JS.length documentText)
               (imap (fun i rule =>
                        verdictOf reg rule documentText (Some effectiveProvider)
                                  (replies i))
                     rules) |}.

(** What the handler decides before any evaluation: a rejection, or the
    rules, the document text and the page count to work with. *)
Definition intake (req : Request) (pdf : Extraction)
  : Z * string + list string * string * Value :=
  match req_file req with
  | None => inl (400%Z, "PDF file is required.")
  | Some _ =>
      if negb (truthy (body_rules req))
      then inl (400%Z, "At least one rule is required.")
      else
        match rules ← readRules (body_rules req); normalizeRules rules with
        | Throw _ =>
            inl (500%Z, "An unexpected error occurred while checking the document.")
        | Ret [] => inl (400%Z, "Rules must be non-empty text.")
        | Ret normalizedRules =>
            match extractTextFromPdf pdf with
            | Throw _ =>
                inl (500%Z, "An unexpected error occurred while checking the document.")
            | Ret (text, pageCount) =>
                let documentText := truncateText text 12000 in
                if JS.nonEmpty documentText
                then inr (normalizedRules, documentText, pageCount)
                else inl (422%Z, "Could not extract text from the PDF.")
            end
        end
  end.

Lemma check_intake (env : Env) (reg : Registry) (req : Request)
    (pdf : Extraction) (replies : nat -> Reply) (latency : nat -> nat) :
  check env reg req pdf replies latency
  = match intake req pdf with
    | inl (code, message) => reject code message
    | inr (rules, documentText, pageCount) =>
        let effectiveProvider := effectiveProviderOf reg (body_provider req) in
        mkRun (batchEvents reg rules documentText effectiveProvider replies)
              (Ret (report env reg rules documentText pageCount effectiveProvider
                           replies))
    end.
Proof.
  unfold check, intake.
  destruct (req_file req) as [buffer|]; [|reflexivity].
  destruct (truthy (body_rules req)); cbn [negb]; [|reflexivity].
  destruct (readRules (body_rules req)) as [rules|e];
    [rewrite run_bind_ret, bind_ret|rewrite run_bind_throw, bind_throw; exact (catchRun_throw _ _)].
  destruct (normalizeRules rules) as [normalizedRules|e];
    [rewrite run_bind_ret|rewrite run_bind_throw; exact (catchRun_throw _ _)].
  destruct normalizedRules as [|r rs]; [reflexivity|].
  rewrite bool_decide_eq_false_2 by discriminate.
  destruct (extractTextFromPdf pdf) as [[text pageCount]|e];
    [rewrite run_bind_ret|rewrite run_bind_throw; exact (catchRun_throw _ _)].
  cbv zeta.
  destruct (JS.nonEmpty (truncateText text 12000)); cbn [negb]; [|reflexivity].
  set (nrules := r :: rs).
  set (p := effectiveProviderOf reg (body_provider req)).
  set (doc := truncateText text 12000).
  pose proof (allRuns_evaluations reg doc (Some p) replies latency nrules) as Hall.
  erewrite catchRun_ret.
  - unfold mbind, Run_bind. rewrite Hall. cbn [events outcome mret Run_ret].
    rewrite app_nil_r. reflexivity.
  - rewrite outcome_bind, Hall. reflexivity.
Qed.


(** ** Backend selection *)

(** The named backend has a client. *)
Definition configured (reg : Registry) (name : string) : bool :=
  if String.eqb name "openai" then openai reg
  else if String.eqb name "mistral" then mistral reg
  else if String.eqb name "groq" then groq reg
  else String.eqb name "heuristic".

(** The resolution as claimed: the requested backend when it is a valid
    selector and configured, else the process default. *)
Definition claimed_effective (reg : Registry) (rawProvider : Value) : string :=
  match requestedProviderOf rawProvider with
  | Some p =>
      if bool_decide (p ∈ allowedProviders) && configured reg p then p
      else activeProvider reg
  | None => activeProvider reg
  end.

Lemma events_bind {A B : Type} (c : Run A) (f : A -> Run B) :
  events (x ← c; f x)
  = match outcome c with
    | Ret a => (events c ++ events (f a))%list
    | Throw _ => events c
    end.
Proof. unfold mbind, Run_bind. now destruct (outcome c). Qed.

(** An evaluation without a usable client for its backend is the heuristic
    one and requests nothing. *)
Lemma evaluate_unconfigured (reg : Registry) (rule documentText name : string)
    (reply : Reply) :
  JS.nonEmpty name = true ->
  configured reg name = false ->
  evaluateRuleWithLLM reg rule documentText (Some name) reply
  = mkRun [Evaluating rule documentText]
          (Ret (buildFallbackResult rule documentText)).
Proof.
  intros Hne Hc. unfold evaluateRuleWithLLM, effectiveOf, orElse. rewrite Hne.
  unfold configured in Hc.
  destruct (String.eqb_spec name "openai") as [->|_].
  { rewrite Hc. cbn [String.eqb Ascii.eqb Bool.eqb andb orb].
    destruct (noClient reg); reflexivity. }
  destruct (String.eqb_spec name "mistral") as [->|_].
  { rewrite Hc. cbn [String.eqb Ascii.eqb Bool.eqb andb orb].
    destruct (noClient reg); reflexivity. }
  destruct (String.eqb_spec name "groq") as [->|_].
  { rewrite Hc. cbn [String.eqb Ascii.eqb Bool.eqb andb orb].
    destruct (noClient reg); reflexivity. }
  cbn [andb]. destruct (_ || _); reflexivity.
Qed.

Lemma events_await (provider prompt : string) (reply : Reply) :
  events (await provider prompt reply) = [Requested provider prompt].
Proof. unfold await. rewrite events_bind. now destruct reply. Qed.

Lemma events_bind_silent {A B : Type} (c : Run A) (f : A -> Run B) :
  (forall a, events (f a) = []) -> events (x ← c; f x) = events c.
Proof.
  intros H. rewrite events_bind. destruct (outcome c); [|reflexivity].
  now rewrite H, app_nil_r.
Qed.

Lemma events_catch_silent {A : Type} (c : Run A) (h : string -> Run A) :
  (forall e, events (h e) = []) -> events (catchRun c h) = events c.
Proof.
  intros H. unfold catchRun. destruct (outcome c); [reflexivity|].
  cbn [events]. now rewrite H, app_nil_r.
Qed.

Ltac silent_tail :=
  repeat first
    [ reflexivity
    | rewrite events_bind_silent; [reflexivity|intros ?]
    | match goal with |- events (if ?b then _ else _) = _ => destruct b end ].

(** An evaluation with a client for its backend requests one completion,
    with the prompt built from the rule and the document text. *)
Lemma evaluate_configured_events (reg : Registry) (rule documentText name : string)
    (reply : Reply) :
  name ∈ backends ->
  configured reg name = true ->
  events (evaluateRuleWithLLM reg rule documentText (Some name) reply)
  = [Evaluating rule documentText;
     Requested name (buildPrompt rule documentText)].
Proof.
  intros Hin Hc.
  assert (Hcases : name = "openai" \/ name = "mistral" \/ name = "groq").
  { apply list_elem_of_In in Hin. simpl in Hin. intuition auto. }
  assert (Hno : noClient reg = false).
  { unfold noClient. revert Hc. unfold configured.
    destruct Hcases as [->|[->| ->]]; cbn; intros ->; cbn;
      rewrite ?andb_false_r; reflexivity. }
  unfold evaluateRuleWithLLM, effectiveOf, orElse.
  assert (JS.nonEmpty name = true) as ->
    by (destruct Hcases as [->|[->| ->]]; reflexivity).
  rewrite Hno. unfold configured in Hc.
  rewrite events_bind. cbn [events outcome emit].
  destruct Hcases as [->|[->| ->]]; cbn in Hc; rewrite Hc;
    cbn [String.eqb Ascii.eqb Bool.eqb orb andb app];
    (rewrite events_catch_silent; [|reflexivity]);
    (rewrite events_bind_silent; [now rewrite events_await|intros ?]);
    silent_tail.
Qed.

(** After start-up at most one client exists, and it is the client of the
    default backend. *)
Lemma startup_cases (env : Env) :
  let reg := startup env in
  (activeProvider reg, openai reg, mistral reg, groq reg)
  ∈ [("heuristic", false, false, false); ("openai", true, false, false);
     ("mistral", false, true, false); ("groq", false, false, true)].
Proof.
  unfold startup, resolveOpenAI, resolveMistral, resolveGroq.
  apply list_elem_of_In.
  destruct (prefers env "openai"), (prefers env "mistral"), (prefers env "groq"),
    (present (trimmedOpenAiKey env)), (present (trimmedMistralKey env)),
    (present (trimmedGroqKey env)); simpl; tauto.
Qed.

Lemma startup_active_nonEmpty (env : Env) :
  JS.nonEmpty (activeProvider (startup env)) = true.
Proof.
  pose proof (startup_cases env) as H. apply list_elem_of_In in H. simpl in H.
  destruct H as [H|[H|[H|[H|[]]]]]; injection H as <- _ _ _; reflexivity.
Qed.

(** C7 (amended). The effective backend is the requested one whenever it is
    a valid selector, configured or not, and the process default
    otherwise.  When the effective backend is "heuristic", or no client
    exists at all, or the effective backend has no client, the rule is
    evaluated by the heuristic evaluator alone; when it is a backend with a
    client, that backend is asked. *)
Theorem backend_selection (env : Env) (rawProvider : Value) :
  let reg := startup env in
  let effective := effectiveProviderOf reg rawProvider in
  (forall s, rawProvider = VStr s ->
             JS.trim (JS.toLowerCase s) ∈ allowedProviders ->
             effective = JS.trim (JS.toLowerCase s))
  /\ (forall s, rawProvider = VStr s ->
                JS.trim (JS.toLowerCase s) ∉ allowedProviders ->
                effective = activeProvider reg)
  /\ ((forall s, rawProvider <> VStr s) -> effective = activeProvider reg)
  /\ configured reg (activeProvider reg) = true
  /\ (forall rule documentText reply,
        effective = "heuristic" \/ noClient reg = true
        \/ configured reg effective = false ->
        evaluateRuleWithLLM reg rule documentText (Some effective) reply
        = mkRun [Evaluating rule documentText]
                (Ret (buildFallbackResult rule documentText)))
  /\ (forall rule documentText reply,
        effective ∈ backends -> configured reg effective = true ->
        events (evaluateRuleWithLLM reg rule documentText (Some effective) reply)
        = [Evaluating rule documentText;
           Requested effective (buildPrompt rule documentText)]).
Proof.
  intros reg effective.
  assert (Hvalid : forall s, JS.trim (JS.toLowerCase s) ∈ allowedProviders ->
                             JS.nonEmpty (JS.trim (JS.toLowerCase s)) = true).
  { intros s Hin. apply list_elem_of_In in Hin. simpl in Hin.
    destruct Hin as [<-|[<-|[<-|[<-|[]]]]]; reflexivity. }
  assert (Hne : JS.nonEmpty effective = true).
  { subst effective. unfold effectiveProviderOf.
    destruct (requestedProviderOf rawProvider) as [p|];
      [|apply startup_active_nonEmpty].
    destruct (JS.nonEmpty p) eqn:E; cbn [andb]; [|apply startup_active_nonEmpty].
    destruct (bool_decide _); [exact E|apply startup_active_nonEmpty]. }
  split; [|split; [|split; [|split; [|split]]]].
  - intros s -> Hin. subst effective. unfold effectiveProviderOf.
    cbn [requestedProviderOf].
    now rewrite (bool_decide_eq_true_2 _ Hin), (Hvalid s Hin).
  - intros s -> Hin. subst effective. unfold effectiveProviderOf.
    cbn [requestedProviderOf].
    rewrite (bool_decide_eq_false_2 _ Hin). now rewrite andb_false_r.
  - intros Hs. subst effective. unfold effectiveProviderOf.
    destruct rawProvider; try reflexivity. now destruct (Hs s).
  - pose proof (startup_cases env) as H. apply list_elem_of_In in H. simpl in H.
    fold reg in H. unfold configured.
    destruct H as [H|[H|[H|[H|[]]]]]; injection H as <- <- <- <-; reflexivity.
  - intros rule documentText reply [H|[H|H]].
    + apply evaluate_heuristic. left. unfold effectiveOf, orElse. now rewrite Hne.
    + apply evaluate_heuristic. now right.
    + now apply evaluate_unconfigured.
  - intros rule documentText reply. apply evaluate_configured_events.
Qed.


(** ** Document text *)

Fixpoint every (p : ascii -> bool) (s : string) : bool :=
  match s with
  | EmptyString => true
  | String c s' => p c && every p s'
  end.



Definition documentTextOf (text : option string) : string :=
  truncateText (cleanText text) 12000.


Lemma append_cons (c : ascii) (a b : string) :
  String c a +:+ b = String c (a +:+ b).
Proof. reflexivity. Qed.

Lemma append_empty_r (s : string) : s +:+ EmptyString = s.
Proof.
  induction s as [|c s IH]; [reflexivity|]. now rewrite append_cons, IH.
Qed.

Lemma substring_length (m : nat) (s : string) :
  String.length (String.substring 0 m s) <= m.
Proof.
  revert s. induction m as [|m IH]; intros [|c s]; simpl; try lia.
  specialize (IH s). lia.
Qed.


Lemma slice_head (s : string) (limit : Z) :
  (0 <= limit)%Z ->
  JS.slice s 0 limit
  = String.substring 0 (Z.to_nat (Z.min limit (JS.length s))) s.
Proof.
  intros H. unfold JS.slice, JS.relative, JS.length.
  destruct (Z.ltb_spec limit 0); [lia|].
  change (0 <? 0)%Z with false. cbv iota.
  rewrite (Z.min_l 0) by lia. f_equal. lia.
Qed.

Lemma truncateText_length (text : string) (limit : Z) :
  (0 <= limit)%Z -> (JS.length (truncateText text limit) <= limit)%Z.
Proof.
  intros H. unfold truncateText.
  destruct (Z.ltb_spec limit (JS.length text)) as [Hl|Hl]; [|exact Hl].
  rewrite slice_head by exact H. unfold JS.length in *.
  pose proof (substring_length (Z.to_nat (Z.min limit (Z.of_nat (String.length text)))) text).
  lia.
Qed.





Lemma every_append (p : ascii -> bool) (a b : string) :
  every p (a +:+ b) = every p a && every p b.
Proof.
  induction a as [|c a IH]; [reflexivity|].
  rewrite append_cons. simpl. now rewrite IH, andb_assoc.
Qed.



Lemma every_trimStart (p : ascii -> bool) (s : string) :
  every p s = true -> every p (JS.trimStart s) = true.
Proof.
  induction s as [|c s IH]; [reflexivity|].
  intros H. simpl in *. apply andb_true_iff in H as [Hc Hs].
  destruct (JS.isWhiteSpace c); [now apply IH|].
  simpl. now rewrite Hc, Hs.
Qed.

Lemma every_trimEnd (p : ascii -> bool) (s : string) :
  every p s = true -> every p (JS.trimEnd s) = true.
Proof.
  induction s as [|c s IH]; [reflexivity|].
  intros H. simpl in H. apply andb_true_iff in H as [Hc Hs].
  destruct (trimEnd_cons c s) as [->| ->]; [reflexivity|].
  simpl. now rewrite Hc, IH.
Qed.

Lemma orEmpty_id (s : string) : orEmpty s = s.
Proof. now destruct s. Qed.



Lemma extractTextFromPdf_text (pdf : Extraction) (text : string) (pageCount : Value) :
  extractTextFromPdf pdf = Ret (text, pageCount) ->
  exists raw total, pdf = Extracted raw total /\ text = cleanText raw.
Proof.
  destruct pdf as [e|raw total]; simpl; [discriminate|].
  intros H. injection H as <- _. eauto.
Qed.






(** The non-blank text entries of a rule list, trimmed. *)
Definition textRules (rules : Value) : list string :=
  match rules with
  | VArr xs => filter (fun r => JS.nonEmpty r = true) (ruleText <$> xs)
  | _ => []
  end.

(** What makes the handler evaluate: a file, a truthy rules field that is
    or parses to an array with a non-blank text entry, and a document whose
    extraction succeeds with a non-empty text. *)
Definition accepted (req : Request) (pdf : Extraction) : Prop :=
  is_Some (req_file req)
  /\ truthy (body_rules req) = true
  /\ (exists xs, readRules (body_rules req) = Ret (VArr xs)
                 /\ textRules (VArr xs) <> [])
  /\ (exists raw total, pdf = Extracted raw total
                        /\ JS.nonEmpty (documentTextOf raw) = true).

Lemma normalizeRules_textRules (rules : Value) (normalizedRules : list string) :
  normalizeRules rules = Ret normalizedRules ->
  exists xs, rules = VArr xs /\ normalizedRules = take 10 (textRules rules).
Proof.
  destruct rules; simpl; try discriminate.
  intros H. injection H as <-. eauto.
Qed.

Lemma take_nil_inv {A : Type} (n : nat) (l : list A) :
  0 < n -> take n l = [] -> l = [].
Proof. destruct n, l; simpl; try lia; auto; discriminate. Qed.

Lemma intake_accepted (req : Request) (pdf : Extraction)
    (rules : list string) (documentText : string) (pageCount : Value) :
  intake req pdf = inr (rules, documentText, pageCount) ->
  exists xs raw total,
    is_Some (req_file req)
    /\ truthy (body_rules req) = true
    /\ readRules (body_rules req) = Ret (VArr xs)
    /\ rules = take 10 (textRules (VArr xs))
    /\ rules <> []
    /\ pdf = Extracted raw total
    /\ documentText = documentTextOf raw
    /\ JS.nonEmpty documentText = true
    /\ pageCount = (if truthy total then total else VNull).
Proof.
  unfold intake.
  destruct (req_file req) as [buffer|]; [|discriminate].
  destruct (truthy (body_rules req)); cbn [negb]; [|discriminate].
  destruct (readRules (body_rules req)) as [rs|e];
    [rewrite bind_ret|rewrite bind_throw; discriminate].
  destruct (normalizeRules rs) as [[|r nrules]|e] eqn:Hn; try discriminate.
  apply normalizeRules_textRules in Hn as (xs & -> & Hn).
  destruct pdf as [e|raw total]; cbn [extractTextFromPdf]; [discriminate|].
  cbv zeta. fold (documentTextOf raw).
  destruct (JS.nonEmpty (documentTextOf raw)) eqn:Hd; [|discriminate].
  intros H. injection H as <- <- <-.
  exists xs, raw, total. rewrite Hn. repeat split; eauto. now rewrite <- Hn.
Qed.

Lemma accepted_intake (req : Request) (pdf : Extraction) :
  accepted req pdf ->
  exists rules documentText pageCount,
    intake req pdf = inr (rules, documentText, pageCount).
Proof.
  intros ([buffer Hf] & Ht & (xs & Hr & Hx) & (raw & total & -> & Hd)).
  unfold intake. rewrite Hf, Ht, Hr, bind_ret. cbn [negb normalizeRules].
  fold (textRules (VArr xs)).
  destruct (take 10 (textRules (VArr xs))) as [|r rs] eqn:E.
  { apply take_nil_inv in E; [contradiction|lia]. }
  cbn [extractTextFromPdf]. cbv zeta. fold (documentTextOf raw).
  rewrite Hd. eauto.
Qed.



(** ** Rejections *)








(** ** More than ten rules *)

Lemma ruleText_trimmed (x : Value) : trimmed (ruleText x).
Proof. destruct x; try reflexivity. apply trim_idem. Qed.

Lemma textRules_trimmed (rules : Value) :
  Forall (fun r => trimmed r /\ JS.nonEmpty r = true) (textRules rules).
Proof.
  destruct rules; try constructor. unfold textRules.
  apply Forall_forall. intros r Hr.
  apply list_elem_of_filter in Hr as [Hne Hin].
  apply list_elem_of_fmap in Hin as (x & -> & _).
  split; [apply ruleText_trimmed|exact Hne].
Qed.

Lemma textRules_of_texts (l : list string) :
  Forall (fun r => trimmed r /\ JS.nonEmpty r = true) l ->
  textRules (VArr (VStr <$> l)) = l.
Proof.
  unfold textRules.
  induction 1 as [|r l [Ht Hne] _ IH]; [reflexivity|].
  rewrite !fmap_cons. cbn [ruleText]. rewrite Ht.
  rewrite filter_cons_True by exact Hne. now rewrite IH.
Qed.

Definition withRules (req : Request) (rules : Value) : Request :=
  {| req_file := req_file req;
     body_rules := rules;
     body_provider := body_provider req |}.

Lemma intake_withRules (req : Request) (pdf : Extraction) (xs : list Value) :
  truthy (body_rules req) = true ->
  readRules (body_rules req) = Ret (VArr xs) ->
  intake (withRules req (VArr (VStr <$> take 10 (textRules (VArr xs))))) pdf
  = intake req pdf.
Proof.
  intros Ht Hr. unfold intake, withRules. cbn [req_file body_rules].
  rewrite Ht, Hr. cbn [truthy negb readRules]. rewrite !bind_ret.
  cbn [normalizeRules].
  fold (textRules (VArr xs)).
  fold (textRules (VArr (VStr <$> take 10 (textRules (VArr xs))))).
  rewrite textRules_of_texts by apply Forall_take, textRules_trimmed.
  rewrite take_take. reflexivity.
Qed.

(** C10. When the rule list holds more than ten non-blank text entries,
    the handler answers as it would to the first ten alone, so nothing in
    the response tells that rules were dropped; when the request is
    otherwise in order the answer is 200 with ten verdicts, those of the
    first ten rules. *)
Theorem excess_rules_dropped (env : Env) (reg : Registry) (req : Request)
    (pdf : Extraction) (replies : nat -> Reply) (latency : nat -> nat)
    (xs : list Value) :
  truthy (body_rules req) = true ->
  readRules (body_rules req) = Ret (VArr xs) ->
  10 < length (textRules (VArr xs)) ->
  let kept := take 10 (textRules (VArr xs)) in
  check env reg req pdf replies latency
  = check env reg (withRules req (VArr (VStr <$> kept))) pdf replies latency
  /\ (forall raw total,
        is_Some (req_file req) ->
        pdf = Extracted raw total ->
        JS.nonEmpty (documentTextOf raw) = true ->
        exists pageCount model textLength results,
          outcome (check env reg req pdf replies latency)
          = Ret {| statusCode := 200;
                   body := Report pageCount model textLength results |}
          /\ length results = 10
          /\ rule <$> results = kept).
Proof.
  intros Ht Hr Hlen kept. split.
  - rewrite !check_intake. unfold kept. rewrite intake_withRules by assumption.
    reflexivity.
  - intros raw total Hf Hpdf Hd.
    assert (Hacc : accepted req pdf).
    { split; [exact Hf|]. split; [exact Ht|]. split.
      - exists xs. split; [exact Hr|]. intros He. rewrite He in Hlen. simpl in Hlen. lia.
      - exists raw, total. now split. }
    destruct (accepted_intake req pdf Hacc) as (rules & d & pc & Hi).
    pose proof Hi as Hi'.
    apply intake_accepted in Hi' as (xs' & _ & _ & _ & _ & Hr' & Hrules & _).
    rewrite Hr in Hr'. injection Hr' as <-. fold kept in Hrules. subst rules.
    assert (Hk : Forall (fun r => trimmed r /\ JS.nonEmpty r = true) kept)
      by apply Forall_take, textRules_trimmed.
    rewrite check_intake, Hi. cbv zeta. cbn [outcome report].
    do 4 eexists. split; [reflexivity|].
    split; [rewrite length_imap; unfold kept; rewrite length_take; lia|].
    apply list_eq. intros i. rewrite list_lookup_fmap, list_lookup_imap.
    destruct (kept !! i) as [r|] eqn:Ei; [|reflexivity].
    simpl. rewrite verdictOf_rule. f_equal.
    eapply Forall_lookup_1 in Hk as [Hk _]; [exact Hk|exact Ei].
Qed.

(** An accepted request is answered with one verdict per normalized rule,
    in their order. *)
Lemma check_accepted_results (env : Env) (reg : Registry) (req : Request)
    (pdf : Extraction) (replies : nat -> Reply) (latency : nat -> nat) :
  accepted req pdf ->
  exists xs pageCount model textLength results,
    readRules (body_rules req) = Ret (VArr xs)
    /\ outcome (check env reg req pdf replies latency)
       = Ret {| statusCode := 200;
                body := Report pageCount model textLength results |}
    /\ rule <$> results = take 10 (textRules (VArr xs)).
Proof.
  intros Hacc.
  destruct (accepted_intake req pdf Hacc) as (rules & d & pc & Hi).
  pose proof Hi as Hi'.
  apply intake_accepted in Hi' as (xs & raw & total & _ & _ & Hr & Hrules & _).
  rewrite check_intake, Hi. cbv zeta. cbn [outcome report].
  exists xs. do 4 eexists. split; [exact Hr|]. split; [reflexivity|].
  subst rules. apply list_eq. intros i.
  rewrite list_lookup_fmap, list_lookup_imap.
  destruct (take 10 (textRules (VArr xs)) !! i) as [r|] eqn:Ei; [|reflexivity].
  simpl. rewrite verdictOf_rule. f_equal.
  assert (Hk : Forall (fun r => trimmed r /\ JS.nonEmpty r = true)
                      (take 10 (textRules (VArr xs))))
    by apply Forall_take, textRules_trimmed.
  eapply Forall_lookup_1 in Hk as [Hk _]; [exact Hk|exact Ei].
Qed.

End Properties.

(** * Concrete runs, on the reference host *)

Definition quoted (s : string) : string := dq +:+ s +:+ dq.

(** A process started with a Groq key only. *)
Definition groqOnly : Env :=
  {| OPENAI_API_KEY := None; MISTRAL_API_KEY := None; GROQ_API_KEY := Some "gsk-key";
     LLM_PROVIDER := None; OPENAI_MODEL := None; MISTRAL_MODEL := None;
     GROQ_MODEL := None |}.

(** A process started with an OpenAI key only. *)
Definition openaiOnly : Env :=
  {| OPENAI_API_KEY := Some "sk-key"; MISTRAL_API_KEY := None; GROQ_API_KEY := None;
     LLM_PROVIDER := None; OPENAI_MODEL := None; MISTRAL_MODEL := None;
     GROQ_MODEL := None |}.

Definition planText : string :=
  "This plan starts March 2024. Jane Doe is responsible for delivery.".

Definition dateRule : string :=
  "The document must mention at least one concrete date.".

Definition ownerRule : string := "Someone responsible for delivery is named.".

(** The envelope of a chat completion whose message has the given content. *)
Definition completionWith (content : Value) : Value :=
  VObj [("choices", VArr [VObj [("message", VObj [("content", content)])]])].

Example startup_groqOnly :
  startup groqOnly
  = {| activeProvider := "groq"; activeModel := "openai/gpt-oss-20b";
       openai := false; mistral := false; groq := true |}.
Proof. reflexivity. Qed.

(** The scenario of the specification: none of the keywords "document",
    "mention", "least", "concrete" occurs in the plan. *)
Example heuristic_date_rule :
  keywordsOf (JS.trim dateRule) = ["document"; "mention"; "least"; "concrete"]
  /\ buildFallbackResult dateRule planText
     = {| rule := dateRule; status := "fail";
          evidence := VStr "No direct evidence found.";
          reasoning := VStr "Keywords from the rule were not found in the document text.";
          confidence := num 35; source := "heuristic" |}.
Proof. split; vm_compute; reflexivity. Qed.

Example heuristic_owner_rule :
  buildFallbackResult ownerRule planText
  = {| rule := ownerRule; status := "pass";
       evidence := VStr "Jane Doe is responsible for delivery.";
       reasoning := VStr "Heuristic match for keywords: responsible, delivery.";
       confidence := num 55; source := "heuristic" |}.
Proof. vm_compute. reflexivity. Qed.

(** Unquoted keys are not JSON: the normalizer answers the fallback. *)
Lemma normalizer_returns_fallback_witness :
  let raw := "Sure, here you go: {status: pass, evidence: ...}" in
  let fallback := buildFallbackResult dateRule planText in
  JSON_parse (Runtime := Reference.host)
    (JS.slice raw (JS.indexOf raw "{") (JS.lastIndexOf raw "}" + 1)) = None
  /\ parseLLMJson (RT := Reference.host) (VStr raw) fallback "groq" = Ret fallback.
Proof.
  intros raw fallback.
  assert (H : JSON_parse (Runtime := Reference.host)
                (JS.slice raw (JS.indexOf raw "{") (JS.lastIndexOf raw "}" + 1)) = None)
    by (vm_compute; reflexivity).
  split; [exact H|].
  apply (normalizer_returns_fallback (RT := Reference.host) raw fallback "groq").
  right. right. exact H.
Defined.

(** A well-formed answer wrapped in prose. *)
Definition wrappedAnswer : string :=
  "Here is the JSON: {" +:+ quoted "status" +:+ ": " +:+ quoted "PASS" +:+ ", "
  +:+ quoted "evidence" +:+ ": " +:+ quoted "starts March 2024" +:+ ", "
  +:+ quoted "confidence" +:+ ": 132.7} Hope this helps.".

Definition wrappedProps : list (string * Value) :=
  [("status", VStr "PASS"); ("evidence", VStr "starts March 2024");
   ("confidence", VNum (Fin (1327 # 10)))].

Lemma normalizer_field_mapping_witness :
  let fallback := buildFallbackResult dateRule planText in
  extractObject (RT := Reference.host) wrappedAnswer = Some (VObj wrappedProps)
  /\ parseLLMJson (RT := Reference.host) (VStr wrappedAnswer) fallback "groq"
     = Ret {| rule := dateRule; status := "pass";
              evidence := VStr "starts March 2024";
              reasoning := reasoning fallback;
              confidence := num 100; source := "groq" |}.
Proof.
  intros fallback.
  assert (H : extractObject (RT := Reference.host) wrappedAnswer
              = Some (VObj wrappedProps)) by (vm_compute; reflexivity).
  split; [exact H|].
  destruct (normalizer_field_mapping (RT := Reference.host) wrappedAnswer fallback
              "groq" wrappedProps H) as [Hmap _].
  rewrite (Hmap eq_refl). reflexivity.
Defined.

(** A status that is a number: the whole answer is discarded, and the
    verdict keeps the status and the source of the fallback. *)
Definition numericStatus : string :=
  "{" +:+ quoted "status" +:+ ": 1, " +:+ quoted "evidence" +:+ ": "
  +:+ quoted "Jane Doe is responsible" +:+ "}".

Lemma normalizer_field_mapping_counterexample :
  ~ claimed_normalization (RT := Reference.host) numericStatus
      (buildFallbackResult ownerRule planText) "groq".
Proof.
  intros H.
  specialize (H [("status", VNum (num 1)); ("evidence", VStr "Jane Doe is responsible")]).
  assert (He : extractObject (RT := Reference.host) numericStatus
               = Some (VObj [("status", VNum (num 1));
                             ("evidence", VStr "Jane Doe is responsible")]))
    by (vm_compute; reflexivity).
  specialize (H He). vm_compute in H. discriminate H.
Qed.

Example numeric_status_falls_back :
  parseLLMJson (RT := Reference.host) (VStr numericStatus)
    (buildFallbackResult ownerRule planText) "groq"
  = Ret (buildFallbackResult ownerRule planText)
  /\ status (buildFallbackResult ownerRule planText) = "pass".
Proof. split; vm_compute; reflexivity. Qed.

Definition untypedAnswer : string :=
  "{" +:+ quoted "status" +:+ ": " +:+ quoted "pass" +:+ ", "
  +:+ quoted "evidence" +:+ ": 42, "
  +:+ quoted "reasoning" +:+ ": [" +:+ quoted "dated" +:+ "], "
  +:+ quoted "confidence" +:+ ": 90}".

(** C2, at a failing input: OpenAI answers with a number as evidence and a
    list as reasoning; both pass into the verdict as they are, where a text
    is required. *)
Theorem untyped_evidence_in_verdict :
  outcome (evaluateRuleWithLLM (RT := Reference.host) (startup openaiOnly)
             dateRule planText (Some "openai")
             (Resolved (completionWith (VStr untypedAnswer))))
  = Ret {| rule := dateRule; status := "pass";
           evidence := VNum (num 42);
           reasoning := VArr [VStr "dated"];
           confidence := num 90; source := "openai" |}.
Proof. vm_compute. reflexivity. Qed.

(** C7: "openai" is requested of a process that has Groq only.  The
    effective backend is "openai", not the default; the rule is evaluated
    heuristically and Groq is not asked. *)
Lemma backend_selection_counterexample :
  let reg := startup groqOnly in
  effectiveProviderOf reg (VStr "openai") = "openai"
  /\ claimed_effective reg (VStr "openai") = "groq"
  /\ effectiveProviderOf reg (VStr "openai") <> claimed_effective reg (VStr "openai")
  /\ evaluateRuleWithLLM (RT := Reference.host) reg ownerRule planText
       (Some (effectiveProviderOf reg (VStr "openai")))
       (Resolved (VObj [("output_text", VStr wrappedAnswer)]))
     = mkRun [Evaluating ownerRule planText]
             (Ret (buildFallbackResult ownerRule planText)).
Proof.
  intros reg. repeat split; try (vm_compute; reflexivity).
  vm_compute. discriminate.
Qed.

(** C8: a control character other than NUL and white space is kept. *)
Definition bellText : string := "Total" +:+ String "007" "due".


Example bell_kept : documentTextOf (Some bellText) = bellText.
Proof. vm_compute. reflexivity. Qed.

(** A text of 12001 characters is cut to its first 12000. *)
Fixpoint repeated (n : nat) (c : ascii) : string :=
  match n with
  | O => EmptyString
  | S n' => String c (repeated n' c)
  end.

Example long_text_cut :
  documentTextOf (Some (repeated (Z.to_nat 12000) "a" +:+ "b")) = repeated (Z.to_nat 12000) "a".
Proof. vm_compute. reflexivity. Qed.

(** A NUL between two spaces leaves both spaces. *)
Example nul_between_spaces :
  cleanText (Some ("a " +:+ String "000" " b")) = "a  b".
Proof. vm_compute. reflexivity. Qed.

(** C9: a rule list with a text and a number is evaluated on the text. *)
Definition mixedRules : Request :=
  {| req_file := Some "%PDF-1.7";
     body_rules := VStr ("[" +:+ quoted ownerRule +:+ ", 42]");
     body_provider := VUndef |}.

Definition planPdf : Extraction := Extracted (Some planText) (VNum (num 1)).


Example mixed_rules_response :
  outcome (check (RT := Reference.host) groqOnly (startup groqOnly) mixedRules planPdf
             (fun _ => Rejected "503") (fun i => i))
  = Ret {| statusCode := 200;
           body := Report (VNum (num 1)) "openai/gpt-oss-20b" 66
                     [buildFallbackResult ownerRule planText] |}.
Proof. vm_compute. reflexivity. Qed.

(** A rules field holding a JSON number is answered 500. *)
Example numeric_rules_field :
  check (RT := Reference.host) groqOnly (startup groqOnly)
    {| req_file := Some "%PDF-1.7"; body_rules := VStr "123"; body_provider := VUndef |}
    planPdf (fun _ => Rejected "503") (fun i => i)
  = reject 500 "An unexpected error occurred while checking the document.".
Proof. vm_compute. reflexivity. Qed.

(** C10: eleven rules, ten verdicts. *)
Definition elevenRules : list Value :=
  VStr <$> ["rule one"; "rule two"; "rule three"; "rule four"; "rule five";
            "rule six"; "rule seven"; "rule eight"; "rule nine"; "rule ten";
            "rule eleven"].

Definition elevenRequest : Request :=
  {| req_file := Some "%PDF-1.7"; body_rules := VArr elevenRules;
     body_provider := VStr "heuristic" |}.

Lemma excess_rules_dropped_witness :
  truthy (body_rules elevenRequest) = true
  /\ readRules (RT := Reference.host) (body_rules elevenRequest) = Ret (VArr elevenRules)
  /\ 10 < length (textRules (VArr elevenRules))
  /\ check (RT := Reference.host) groqOnly (startup groqOnly)
       elevenRequest planPdf (fun _ => Rejected "503") (fun i => i)
     = check (RT := Reference.host) groqOnly (startup groqOnly)
         (withRules elevenRequest
            (VArr (VStr <$> take 10 (textRules (VArr elevenRules)))))
         planPdf (fun _ => Rejected "503") (fun i => i).
Proof.
  assert (Hl : 10 < length (textRules (VArr elevenRules))) by (vm_compute; lia).
  split; [reflexivity|]. split; [reflexivity|]. split; [exact Hl|].
  exact (proj1 (excess_rules_dropped (RT := Reference.host) groqOnly
                  (startup groqOnly) elevenRequest planPdf
                  (fun _ => Rejected "503") (fun i => i) elevenRules
                  eq_refl eq_refl Hl)).
Defined.

Example eleven_rules_response :
  exists pageCount model textLength results,
    outcome (check (RT := Reference.host) groqOnly (startup groqOnly)
               elevenRequest planPdf (fun _ => Rejected "503") (fun i => i))
    = Ret {| statusCode := 200;
             body := Report pageCount model textLength results |}
    /\ rule <$> results
       = ["rule one"; "rule two"; "rule three"; "rule four"; "rule five";
          "rule six"; "rule seven"; "rule eight"; "rule nine"; "rule ten"].
Proof. do 4 eexists. split; vm_compute; reflexivity. Qed.

(** The confidences of the specification's examples, through the whole
    normalizer. *)
Definition confidenceOnly (numeral : string) : string :=
  "{" +:+ quoted "confidence" +:+ ": " +:+ numeral +:+ "}".

Example confidence_examples :
  let fallback := buildFallbackResult dateRule planText in
  confidence <$> [parseLLMJson (RT := Reference.host) (VStr (confidenceOnly "132.7")) fallback "groq";
                  parseLLMJson (RT := Reference.host) (VStr (confidenceOnly "-5")) fallback "groq";
                  parseLLMJson (RT := Reference.host) (VStr (confidenceOnly "73.4")) fallback "groq";
                  parseLLMJson (RT := Reference.host) (VStr (confidenceOnly "72.5")) fallback "groq";
                  parseLLMJson (RT := Reference.host) (VStr (confidenceOnly "1e999")) fallback "groq"]
  ≫= (fun o => match o with Ret v => [v] | Throw _ => [] end)
  = [num 100; num 0; num 73; num 73; num 100].
Proof. vm_compute. reflexivity. Qed.

(** Three rules whose evaluations complete in reverse order. *)
Example order_under_reverse_latency :
  exists pageCount model textLength results,
    outcome (check (RT := Reference.host) groqOnly (startup groqOnly)
               {| req_file := Some "%PDF-1.7";
                  body_rules := VArr [VStr "R1"; VStr "R2"; VStr "R3"];
                  body_provider := VStr "groq" |}
               planPdf
               (fun _ => Resolved (VObj [("output_text", VStr wrappedAnswer)]))
               (fun i => 3 - i))
    = Ret {| statusCode := 200;
             body := Report pageCount model textLength results |}
    /\ rule <$> results = ["R1"; "R2"; "R3"]
    /\ source <$> results = ["groq"; "groq"; "groq"].
Proof. do 4 eexists. split; [|split]; vm_compute; reflexivity. Qed.

(** Ten rules while the backend rejects every call: ten heuristic
    verdicts. *)
Definition tenRules : list Value :=
  VStr <$> ["states a purpose"; "mentions a date"; "names an owner";
            "gives a budget"; "lists milestones"; "describes risks";
            "defines scope"; "names reviewers"; "sets a deadline";
            "is responsible for delivery"].

Example ten_rules_backend_down :
  exists pageCount model textLength results,
    outcome (check (RT := Reference.host) groqOnly (startup groqOnly)
               {| req_file := Some "%PDF-1.7"; body_rules := VArr tenRules;
                  body_provider := VUndef |}
               planPdf (fun _ => Rejected "connect ECONNREFUSED") (fun i => i))
    = Ret {| statusCode := 200;
             body := Report pageCount model textLength results |}
    /\ length results = 10
    /\ source <$> results = replicate 10 "heuristic".
Proof. do 4 eexists. split; [|split]; vm_compute; reflexivity. Qed.

(** * Further properties *)

(** ** Words, inclusion and letter case *)

Lemma wordChar_plain (c : ascii) :
  isWordChar c = true -> JS.isWhiteSpace c = false /\ JS.toLowerChar c = c.
Proof.
  destruct c as [[] [] [] [] [] [] [] []]; vm_compute; intros H;
    first [discriminate H | split; reflexivity].
Qed.

Lemma toLowerChar_idem (c : ascii) :
  JS.toLowerChar (JS.toLowerChar c) = JS.toLowerChar c.
Proof. destruct c as [[] [] [] [] [] [] [] []]; vm_compute; reflexivity. Qed.

Lemma toLowerChar_space (c : ascii) :
  JS.isWhiteSpace (JS.toLowerChar c) = JS.isWhiteSpace c
  /\ isTerminator (JS.toLowerChar c) = isTerminator c.
Proof. destruct c as [[] [] [] [] [] [] [] []]; vm_compute; split; reflexivity. Qed.

Lemma toLowerCase_idem (s : string) :
  JS.toLowerCase (JS.toLowerCase s) = JS.toLowerCase s.
Proof.
  induction s as [|c s IH]; [reflexivity|].
  simpl. now rewrite toLowerChar_idem, IH.
Qed.

Lemma toLowerCase_append (a b : string) :
  JS.toLowerCase (a +:+ b) = JS.toLowerCase a +:+ JS.toLowerCase b.
Proof.
  induction a as [|c a IH]; [reflexivity|].
  rewrite append_cons. simpl. now rewrite IH.
Qed.

Lemma toLowerCase_word (k : string) :
  every isWordChar k = true -> JS.toLowerCase k = k.
Proof.
  induction k as [|c k IH]; [reflexivity|].
  simpl. intros H. apply andb_true_iff in H as [Hc Hk].
  destruct (wordChar_plain c Hc) as [_ ->]. now rewrite IH.
Qed.

Lemma append_assoc (a b c : string) : (a +:+ b) +:+ c = a +:+ (b +:+ c).
Proof.
  induction a as [|x a IH]; [reflexivity|].
  rewrite !append_cons. now rewrite IH.
Qed.

Lemma includes_unfold (s k : string) :
  JS.includes s k
  = String.prefix k s
    || match s with
       | EmptyString => false
       | String _ s' => JS.includes s' k
       end.
Proof. now destruct s. Qed.

Lemma includes_cons (c : ascii) (s k : string) :
  JS.includes s k = true -> JS.includes (String c s) k = true.
Proof. intros H. rewrite includes_unfold, H. apply orb_true_r. Qed.

Lemma prefix_cons (x y : ascii) (k s : string) :
  String.prefix (String x k) (String y s) = Ascii.eqb x y && String.prefix k s.
Proof.
  simpl. destruct (Ascii.eqb_spec x y) as [->|Hne].
  - destruct (ascii_dec y y); [reflexivity|contradiction].
  - destruct (ascii_dec x y); [contradiction|reflexivity].
Qed.

Lemma prefix_empty (s : string) : String.prefix EmptyString s = true.
Proof. now destruct s. Qed.

Lemma prefix_of_empty (c : ascii) (k : string) :
  String.prefix (String c k) EmptyString = false.
Proof. reflexivity. Qed.

(** A word found at the head of a text extends to the text followed by
    anything. *)
Lemma prefix_append (k s t : string) :
  String.prefix k s = true -> String.prefix k (s +:+ t) = true.
Proof.
  revert s. induction k as [|x k IH]; intros s H; [apply prefix_empty|].
  destruct s as [|y s]; [discriminate|].
  rewrite append_cons, prefix_cons in *.
  apply andb_true_iff in H as [-> H]. now rewrite IH.
Qed.

Lemma includes_append_r (s t k : string) :
  JS.includes s k = true -> JS.includes (s +:+ t) k = true.
Proof.
  induction s as [|c s IH]; intros H.
  - rewrite includes_unfold in H. rewrite orb_false_r in H.
    destruct k; [|discriminate]. rewrite includes_unfold. now rewrite prefix_empty.
  - rewrite includes_unfold in H. apply orb_true_iff in H as [H|H].
    + rewrite includes_unfold. now rewrite (prefix_append _ _ t H).
    + rewrite append_cons. apply includes_cons. now apply IH.
Qed.

Lemma includes_append_l (s t k : string) :
  JS.includes t k = true -> JS.includes (s +:+ t) k = true.
Proof.
  induction s as [|c s IH]; intros H; [exact H|].
  rewrite append_cons. apply includes_cons. now apply IH.
Qed.

(** A text free of white space does not reach across a white-space unit. *)
Lemma prefix_stops_at_space (k a b : string) (c : ascii) :
  every (fun x => negb (JS.isWhiteSpace x)) k = true ->
  JS.isWhiteSpace c = true ->
  String.prefix k (a +:+ String c b) = true ->
  String.prefix k a = true.
Proof.
  intros Hk Hc. revert a. induction k as [|x k IH]; intros a H; [apply prefix_empty|].
  simpl in Hk. apply andb_true_iff in Hk as [Hx Hk].
  destruct a as [|y a].
  - change (EmptyString +:+ String c b) with (String c b) in H.
    rewrite prefix_cons in H. apply andb_true_iff in H as [E _].
    apply Ascii.eqb_eq in E. subst x. rewrite Hc in Hx. discriminate.
  - rewrite append_cons, prefix_cons in H. rewrite prefix_cons.
    apply andb_true_iff in H as [-> H]. now rewrite (IH Hk a H).
Qed.

Lemma includes_splits_at_space (k a b : string) (c : ascii) :
  every (fun x => negb (JS.isWhiteSpace x)) k = true ->
  JS.isWhiteSpace c = true ->
  JS.includes (a +:+ String c b) k = true ->
  JS.includes a k = true \/ JS.includes b k = true.
Proof.
  intros Hk Hc. induction a as [|y a IH]; intros H.
  - change (EmptyString +:+ String c b) with (String c b) in H.
    rewrite includes_unfold in H. apply orb_true_iff in H as [H|H]; [|now right].
    left. rewrite includes_unfold.
    now rewrite (prefix_stops_at_space k EmptyString b c Hk Hc H).
  - rewrite append_cons, includes_unfold in H. apply orb_true_iff in H as [H|H].
    + left. rewrite includes_unfold.
      rewrite <- append_cons in H.
      now rewrite (prefix_stops_at_space k (String y a) b c Hk Hc H).
    + destruct (IH H) as [Ha|Hb]; [left|now right]. now apply includes_cons.
Qed.

Lemma includes_nonEmpty (s k : string) :
  JS.includes s k = true -> JS.nonEmpty k = true -> JS.nonEmpty s = true.
Proof. destruct s; [|reflexivity]. destruct k; simpl; congruence. Qed.

(** The keywords: non-empty runs of [a-z0-9]. *)
Definition wordy (k : string) : Prop :=
  JS.nonEmpty k = true /\ every isWordChar k = true.

Lemma wordy_spaceless (k : string) :
  every isWordChar k = true ->
  every (fun x => negb (JS.isWhiteSpace x)) k = true.
Proof.
  induction k as [|c k IH]; [reflexivity|].
  simpl. intros H. apply andb_true_iff in H as [Hc Hk].
  destruct (wordChar_plain c Hc) as [-> _]. now rewrite IH.
Qed.

Lemma matchWordsFrom_wordy (s cur : string) :
  every isWordChar cur = true -> Forall wordy (matchWordsFrom cur s).
Proof.
  revert cur. induction s as [|c s IH]; intros cur Hcur; simpl.
  - unfold flush. destruct (JS.nonEmpty cur) eqn:E; repeat constructor; assumption.
  - destruct (isWordChar c) eqn:Hc.
    + apply IH. rewrite every_append, Hcur. simpl. now rewrite Hc.
    + apply Forall_app. split; [|now apply IH].
      unfold flush. destruct (JS.nonEmpty cur) eqn:E; repeat constructor; assumption.
Qed.

Lemma keywordsOf_wordy (cleanRule : string) : Forall wordy (keywordsOf cleanRule).
Proof.
  unfold keywordsOf. apply Forall_take.
  apply Forall_forall. intros w Hw. apply list_elem_of_filter in Hw as [_ Hw].
  revert w Hw. apply Forall_forall. now apply matchWordsFrom_wordy.
Qed.

Lemma matchesOf_spec (keywords : list string) (text k : string) :
  k ∈ matchesOf keywords text <-> JS.includes text k = true /\ k ∈ keywords.
Proof. unfold matchesOf. now rewrite list_elem_of_filter. Qed.

(** ** The heuristic evaluator and the document *)

Lemma filter_length_mono {A : Type} (P Q : A -> Prop)
    `{forall x, Decision (P x)} `{forall x, Decision (Q x)} (l : list A) :
  (forall x, x ∈ l -> P x -> Q x) -> length (filter P l) <= length (filter Q l).
Proof.
  induction l as [|x l IH]; intros HPQ; [reflexivity|].
  assert (IH' : length (filter P l) <= length (filter Q l)).
  { apply IH. intros y Hy. apply HPQ. now apply list_elem_of_further. }
  rewrite !filter_cons.
  destruct (decide (P x)) as [HP|HP].
  - rewrite decide_True by (apply HPQ; [apply list_elem_of_here|exact HP]).
    simpl. lia.
  - destruct (decide (Q x)); simpl; lia.
Qed.

Lemma filter_pointwise {A : Type} (P Q : A -> Prop)
    `{forall x, Decision (P x)} `{forall x, Decision (Q x)} (l : list A) :
  (forall x, x ∈ l -> (P x <-> Q x)) -> filter P l = filter Q l.
Proof.
  induction l as [|x l IH]; intros HPQ; [reflexivity|].
  rewrite !filter_cons.
  assert (IH' : filter P l = filter Q l).
  { apply IH. intros y Hy. apply HPQ. now apply list_elem_of_further. }
  pose proof (HPQ x (list_elem_of_here x l)) as Hx.
  destruct (decide (P x)) as [HP|HP].
  - rewrite decide_True by tauto. now rewrite IH'.
  - rewrite decide_False by tauto. exact IH'.
Qed.

(** The verdict of the heuristic as a function of the keywords found. *)
Lemma buildFallbackResult_status_matches (rule document : string) :
  status (buildFallbackResult rule document) = "pass" ->
  matchesOf (keywordsOf (JS.trim rule)) (JS.toLowerCase document) <> [].
Proof.
  intros Hs Hm. rewrite heuristic_status in Hs.
  assert (Hp : passesUntrimmed rule document = false); [|rewrite Hp in Hs; discriminate].
  unfold passesUntrimmed, matchCountUntrimmed. rewrite <- keywordsOf_trim.
  fold (matchesOf (keywordsOf (JS.trim rule)) (JS.toLowerCase document)).
  rewrite Hm. apply Z.leb_gt. unfold spec_threshold. simpl length. lia.
Qed.

(** Text added around a document never turns a pass into a fail. *)
Theorem heuristic_monotone (rule document before after : string) :
  status (buildFallbackResult rule document) = "pass" ->
  status (buildFallbackResult rule (before +:+ document +:+ after)) = "pass".
Proof.
  rewrite !heuristic_status.
  destruct (passesUntrimmed rule document) eqn:Hp; [intros _|discriminate].
  assert (Hq : passesUntrimmed rule (before +:+ document +:+ after) = true);
    [|now rewrite Hq].
  unfold passesUntrimmed in *. apply Z.leb_le in Hp. apply Z.leb_le.
  etrans; [exact Hp|]. apply Nat2Z.inj_le.
  unfold matchCountUntrimmed. apply filter_length_mono.
  intros k _ Hk. rewrite !toLowerCase_append.
  now apply includes_append_l, includes_append_r.
Qed.

(** Letter case plays no part: rules and documents that agree up to case
    get the same status, reasoning and confidence. *)
Theorem heuristic_case_insensitive (rule rule' document document' : string) :
  JS.toLowerCase rule' = JS.toLowerCase rule ->
  JS.toLowerCase document' = JS.toLowerCase document ->
  status (buildFallbackResult rule' document')
  = status (buildFallbackResult rule document)
  /\ reasoning (buildFallbackResult rule' document')
     = reasoning (buildFallbackResult rule document)
  /\ confidence (buildFallbackResult rule' document')
     = confidence (buildFallbackResult rule document).
Proof.
  intros Hr Hd.
  assert (Hk : keywordsOf (JS.trim rule') = keywordsOf (JS.trim rule)).
  { rewrite !keywordsOf_trim. unfold keywordsUntrimmed. now rewrite Hr. }
  unfold buildFallbackResult. cbn [status reasoning confidence].
  rewrite Hk, Hd. repeat split.
Qed.

(** ** White-space layout *)

Definition spaceless (k : string) : Prop :=
  every (fun x => negb (JS.isWhiteSpace x)) k = true.

Lemma collapseFrom_idem (s : string) (inRun : bool) :
  collapseFrom inRun (collapseFrom inRun s) = collapseFrom inRun s.
Proof.
  revert inRun. induction s as [|c s IH]; intros inRun; [reflexivity|].
  simpl. destruct (JS.isWhiteSpace c) eqn:Hc.
  - destruct inRun; [apply IH|].
    simpl. change (JS.isWhiteSpace " ") with true. cbv iota. now rewrite IH.
  - simpl. rewrite Hc. now rewrite IH.
Qed.

Lemma collapseWhitespace_idem (s : string) :
  collapseWhitespace (collapseWhitespace s) = collapseWhitespace s.
Proof. apply collapseFrom_idem. Qed.

Lemma collapseFrom_lower (s : string) (inRun : bool) :
  collapseFrom inRun (JS.toLowerCase s) = JS.toLowerCase (collapseFrom inRun s).
Proof.
  revert inRun. induction s as [|c s IH]; intros inRun; [reflexivity|].
  simpl. destruct (toLowerChar_space c) as [-> _].
  destruct (JS.isWhiteSpace c); [destruct inRun|]; simpl; now rewrite IH.
Qed.

Lemma prefix_collapse (k s : string) (inRun : bool) :
  spaceless k -> String.prefix k s = true ->
  String.prefix k (collapseFrom inRun s) = true.
Proof.
  unfold spaceless. revert s inRun.
  induction k as [|x k IH]; intros s inRun Hk H; [apply prefix_empty|].
  simpl in Hk. apply andb_true_iff in Hk as [Hx Hk].
  destruct s as [|y s]; [discriminate|].
  rewrite prefix_cons in H. apply andb_true_iff in H as [E H].
  apply Ascii.eqb_eq in E. subst y. simpl collapseFrom.
  apply negb_true_iff in Hx. rewrite Hx.
  rewrite prefix_cons, Ascii.eqb_refl. now apply IH.
Qed.

Lemma prefix_collapse_inv (k s : string) :
  spaceless k -> String.prefix k (collapseFrom false s) = true ->
  String.prefix k s = true.
Proof.
  unfold spaceless. revert s.
  induction k as [|x k IH]; intros s Hk H; [apply prefix_empty|].
  simpl in Hk. apply andb_true_iff in Hk as [Hx Hk].
  apply negb_true_iff in Hx.
  destruct s as [|y s]; [discriminate|].
  simpl collapseFrom in H. destruct (JS.isWhiteSpace y) eqn:Hy.
  - rewrite prefix_cons in H. apply andb_true_iff in H as [E _].
    apply Ascii.eqb_eq in E. subst x. discriminate.
  - rewrite prefix_cons in *. apply andb_true_iff in H as [-> H]. now rewrite IH.
Qed.

Lemma includes_collapse (k s : string) (inRun : bool) :
  spaceless k -> JS.includes s k = true ->
  JS.includes (collapseFrom inRun s) k = true.
Proof.
  intros Hk. revert inRun. induction s as [|c s IH]; intros inRun H; [exact H|].
  rewrite includes_unfold in H. apply orb_true_iff in H as [H|H].
  - rewrite includes_unfold. now rewrite (prefix_collapse k _ inRun Hk H).
  - simpl collapseFrom.
    destruct (JS.isWhiteSpace c); [destruct inRun|];
      [now apply IH|apply includes_cons|apply includes_cons]; now apply IH.
Qed.

Lemma includes_collapse_inv (k s : string) (inRun : bool) :
  spaceless k -> JS.nonEmpty k = true ->
  JS.includes (collapseFrom inRun s) k = true -> JS.includes s k = true.
Proof.
  intros Hk Hne. revert inRun. induction s as [|c s IH]; intros inRun H; [exact H|].
  simpl collapseFrom in H. destruct (JS.isWhiteSpace c) eqn:Hc.
  - apply includes_cons. destruct inRun; [now apply (IH true)|].
    rewrite includes_unfold in H. apply orb_true_iff in H as [H|H];
      [|now apply (IH true)].
    exfalso. destruct k as [|x k]; [discriminate|].
    rewrite prefix_cons in H. apply andb_true_iff in H as [E _].
    apply Ascii.eqb_eq in E. subst x. unfold spaceless in Hk. simpl in Hk.
    discriminate.
  - rewrite includes_unfold in H. apply orb_true_iff in H as [H|H].
    + rewrite includes_unfold.
      assert (Hp : String.prefix k (String c s) = true); [|now rewrite Hp].
      apply prefix_collapse_inv; [exact Hk|]. simpl collapseFrom. now rewrite Hc.
    + apply includes_cons. now apply (IH false).
Qed.

Lemma wordy_includes_collapse (k document : string) :
  wordy k ->
  JS.includes (JS.toLowerCase (collapseWhitespace document)) k = true
  <-> JS.includes (JS.toLowerCase document) k = true.
Proof.
  intros [Hne Hw]. unfold collapseWhitespace. rewrite <- collapseFrom_lower.
  split.
  - apply includes_collapse_inv; [now apply wordy_spaceless|exact Hne].
  - apply includes_collapse. now apply wordy_spaceless.
Qed.

(** The heuristic verdict does not depend on how the white space of the
    document is laid out: collapsing every run to one space changes no
    field. *)
Theorem heuristic_layout_independent (rule document : string) :
  buildFallbackResult rule (collapseWhitespace document)
  = buildFallbackResult rule document.
Proof.
  assert (Hm : matchesOf (keywordsOf (JS.trim rule))
                         (JS.toLowerCase (collapseWhitespace document))
               = matchesOf (keywordsOf (JS.trim rule)) (JS.toLowerCase document)).
  { unfold matchesOf. apply filter_pointwise. intros k Hk.
    apply wordy_includes_collapse.
    revert k Hk. apply Forall_forall, keywordsOf_wordy. }
  unfold buildFallbackResult, sentenceSplitter.
  now rewrite Hm, collapseWhitespace_idem.
Qed.

(** ** Sentences *)

Fixpoint lastChar (s : string) : option ascii :=
  match s with
  | EmptyString => None
  | String c s' =>
      match lastChar s' with
      | Some x => Some x
      | None => Some c
      end
  end.

Definition endsWithTerminator (s : string) : bool :=
  match lastChar s with
  | Some c => isTerminator c
  | None => false
  end.

(** White space occurs only as single spaces; [afterSpace]: the unit before
    the text was white space. *)
Fixpoint singleSpaced (afterSpace : bool) (s : string) : bool :=
  match s with
  | EmptyString => true
  | String c s' =>
      if JS.isWhiteSpace c
      then Ascii.eqb c " " && negb afterSpace && singleSpaced true s'
      else singleSpaced false s'
  end.

Lemma lastChar_snoc (s : string) (c : ascii) :
  lastChar (s +:+ String c EmptyString) = Some c.
Proof.
  induction s as [|x s IH]; [reflexivity|].
  rewrite append_cons. simpl. now rewrite IH.
Qed.

Lemma endsWithTerminator_nonEmpty (s : string) :
  endsWithTerminator s = true -> JS.nonEmpty s = true.
Proof. destruct s; [discriminate|reflexivity]. Qed.

Lemma singleSpaced_collapse (s : string) (inRun : bool) :
  singleSpaced inRun (collapseFrom inRun s) = true.
Proof.
  revert inRun. induction s as [|c s IH]; intros inRun; [reflexivity|].
  simpl. destruct (JS.isWhiteSpace c) eqn:Hc.
  - destruct inRun; [apply IH|].
    simpl. change (JS.isWhiteSpace " ") with true. cbv iota.
    now rewrite IH.
  - simpl. now rewrite Hc, IH.
Qed.

Lemma singleSpaced_weaken (s : string) (afterSpace : bool) :
  singleSpaced afterSpace s = true -> singleSpaced false s = true.
Proof.
  destruct s as [|c s]; [reflexivity|]. simpl.
  destruct (JS.isWhiteSpace c); [|auto].
  destruct afterSpace; [|auto]. rewrite andb_false_r. discriminate.
Qed.

Lemma splitFrom_nonempty (s cur : string) (afterTerm inSep : bool) :
  splitFrom afterTerm inSep cur s <> [].
Proof.
  revert afterTerm inSep cur. induction s as [|c s IH]; intros a i cur; simpl.
  - discriminate.
  - destruct (JS.isWhiteSpace c && i); [apply IH|].
    destruct (JS.isWhiteSpace c && a); [discriminate|apply IH].
Qed.

Lemma join_cons (sep x : string) (l : list string) :
  l <> [] -> JS.join sep (x :: l) = x +:+ sep +:+ JS.join sep l.
Proof. destruct l; [contradiction|reflexivity]. Qed.

(** Splitting a single-spaced text and joining the pieces with one space
    gives the text back. *)
Lemma join_splitFrom (s cur : string) (afterTerm inSep : bool) :
  singleSpaced inSep s = true ->
  JS.join " " (splitFrom afterTerm inSep cur s) = cur +:+ s.
Proof.
  revert afterTerm inSep cur.
  induction s as [|c s IH]; intros a i cur Hs.
  - simpl. now rewrite append_empty_r.
  - simpl in Hs. cbn [splitFrom]. destruct (JS.isWhiteSpace c) eqn:Hc.
    + apply andb_true_iff in Hs as [Hs Hs'].
      apply andb_true_iff in Hs as [Hsp Hi].
      apply negb_true_iff in Hi. subst i. apply Ascii.eqb_eq in Hsp. subst c.
      cbn [andb]. destruct a.
      * rewrite join_cons by apply splitFrom_nonempty.
        rewrite (IH false true EmptyString Hs'). reflexivity.
      * rewrite (IH _ false _ (singleSpaced_weaken _ _ Hs')).
        now rewrite append_assoc.
    + cbn [andb]. rewrite (IH _ false _ Hs). now rewrite append_assoc.
Qed.

(** Every piece but the last ends with a terminator. *)
Lemma splitFrom_pieces (s cur : string) (afterTerm inSep : bool) :
  (afterTerm = true -> endsWithTerminator cur = true) ->
  exists init last,
    splitFrom afterTerm inSep cur s = (init ++ [last])%list
    /\ Forall (fun p => endsWithTerminator p = true) init.
Proof.
  revert afterTerm inSep cur.
  induction s as [|c s IH]; intros a i cur Ha.
  - exists [], cur. split; [reflexivity|constructor].
  - cbn [splitFrom]. destruct (JS.isWhiteSpace c && i).
    { apply IH. discriminate. }
    destruct (JS.isWhiteSpace c && a) eqn:E.
    + apply andb_true_iff in E as [_ ->].
      destruct (IH false true EmptyString) as (init & last & -> & Hinit);
        [discriminate|].
      exists (cur :: init), last. split; [reflexivity|].
      constructor; [now apply Ha|exact Hinit].
    + apply IH. intros Ht. unfold endsWithTerminator. now rewrite lastChar_snoc.
Qed.

Lemma filter_app_last (init : list string) (last : string) :
  Forall (fun p => endsWithTerminator p = true) init ->
  filter (fun s => JS.nonEmpty s = true) (init ++ [last])%list
  = (init ++ flush last)%list.
Proof.
  intros H. rewrite filter_app. f_equal.
  - induction H as [|p init Hp _ IH]; [reflexivity|].
    rewrite filter_cons_True by now apply endsWithTerminator_nonEmpty.
    now rewrite IH.
  - unfold flush. rewrite filter_cons.
    destruct (decide (JS.nonEmpty last = true)) as [->|Hn]; [reflexivity|].
    now apply not_true_is_false in Hn as ->.
Qed.

(** The sentences of a text: none is empty, every one but the last ends
    with a full stop, an exclamation mark or a question mark. *)
Theorem sentences_shape (text : string) :
  let sentences := sentenceSplitter text in
  Forall (fun s => JS.nonEmpty s = true) sentences
  /\ forall i s, sentences !! i = Some s -> S i < length sentences ->
                 endsWithTerminator s = true.
Proof.
  intros sentences. subst sentences. unfold sentenceSplitter, splitSentences.
  destruct (splitFrom_pieces (collapseWhitespace text) EmptyString false false)
    as (init & last & -> & Hinit); [discriminate|].
  rewrite (filter_app_last init last Hinit). split.
  - apply Forall_app. split.
    + eapply Forall_impl; [exact Hinit|]. apply endsWithTerminator_nonEmpty.
    + unfold flush. destruct (JS.nonEmpty last) eqn:E; repeat constructor. exact E.
  - intros i s Hi Hlt. rewrite length_app in Hlt.
    assert (Hlen : length (flush last) <= 1)
      by (unfold flush; destruct (JS.nonEmpty last); simpl; lia).
    rewrite lookup_app_l in Hi by lia.
    eapply Forall_lookup_1 in Hinit; [exact Hinit|exact Hi].
Qed.

(** Joining the sentences with single spaces gives back the text with its
    white space collapsed, but for a space left at the end. *)
Theorem sentences_join (text : string) :
  let collapsed := collapseWhitespace text in
  JS.join " " (sentenceSplitter text) = collapsed
  \/ JS.join " " (sentenceSplitter text) +:+ " " = collapsed.
Proof.
  intros collapsed. subst collapsed.
  pose proof (join_splitFrom (collapseWhitespace text) EmptyString false false
                (singleSpaced_collapse text false)) as Hjoin.
  change (EmptyString +:+ collapseWhitespace text) with (collapseWhitespace text) in Hjoin.
  unfold sentenceSplitter, splitSentences.
  destruct (splitFrom_pieces (collapseWhitespace text) EmptyString false false)
    as (init & last & Hsplit & Hinit); [discriminate|].
  rewrite Hsplit in *. rewrite (filter_app_last init last Hinit).
  unfold flush. destruct (JS.nonEmpty last) eqn:E; [now left|].
  destruct last; [|discriminate]. rewrite app_nil_r.
  destruct init as [|p init]; [now left|].
  right. rewrite <- Hjoin. clear.
  revert p. induction init as [|q init IH]; intros p; [reflexivity|].
  change (JS.join " " ((p :: q :: init) ++ [EmptyString])%list)
    with (p +:+ " " +:+ JS.join " " ((q :: init) ++ [EmptyString])%list).
  rewrite <- IH.
  change (JS.join " " (p :: q :: init)) with (p +:+ " " +:+ JS.join " " (q :: init)).
  now rewrite !append_assoc.
Qed.

(** ** Evidence *)

Lemma splitFrom_lower (s cur : string) (afterTerm inSep : bool) :
  JS.toLowerCase <$> splitFrom afterTerm inSep cur s
  = splitFrom afterTerm inSep (JS.toLowerCase cur) (JS.toLowerCase s).
Proof.
  revert afterTerm inSep cur. induction s as [|c s IH]; intros a i cur; [reflexivity|].
  cbn [splitFrom JS.toLowerCase].
  destruct (toLowerChar_space c) as [-> ->].
  destruct (JS.isWhiteSpace c && i); [apply IH|].
  destruct (JS.isWhiteSpace c && a).
  - rewrite fmap_cons. now rewrite IH.
  - rewrite IH, toLowerCase_append. reflexivity.
Qed.

(** A text free of white space that occurs in a text occurs in one of its
    pieces. *)
Lemma splitFrom_covers (k s cur : string) (afterTerm inSep : bool) :
  spaceless k -> JS.nonEmpty k = true ->
  (inSep = true -> cur = EmptyString) ->
  JS.includes (cur +:+ s) k = true ->
  exists piece, piece ∈ splitFrom afterTerm inSep cur s
                /\ JS.includes piece k = true.
Proof.
  intros Hk Hne. revert afterTerm inSep cur.
  induction s as [|c s IH]; intros a i cur Hi H.
  - exists cur. split; [apply list_elem_of_here|]. now rewrite append_empty_r in H.
  - cbn [splitFrom]. destruct (JS.isWhiteSpace c) eqn:Hc; cbn [andb].
    + destruct (includes_splits_at_space k cur s c Hk Hc H) as [Hcur|Hs].
      * destruct i.
        { rewrite (Hi eq_refl) in Hcur.
          pose proof (includes_nonEmpty _ _ Hcur Hne). discriminate. }
        destruct a.
        { exists cur. split; [apply list_elem_of_here|exact Hcur]. }
        apply IH; [discriminate|].
        apply includes_append_r. now apply includes_append_r.
      * destruct i.
        { apply IH; [reflexivity|exact Hs]. }
        destruct a.
        { destruct (IH false true EmptyString) as (p & Hp & Hin);
            [reflexivity|exact Hs|].
          exists p. split; [now apply list_elem_of_further|exact Hin]. }
        apply IH; [discriminate|]. now apply includes_append_l.
    + apply IH; [discriminate|]. now rewrite append_assoc.
Qed.

Lemma sentence_for_keyword (k document : string) :
  wordy k ->
  JS.includes (JS.toLowerCase document) k = true ->
  exists s, s ∈ sentenceSplitter document
            /\ JS.includes (JS.toLowerCase s) k = true.
Proof.
  intros Hw Hk. pose proof Hw as [Hne Hchars].
  apply (wordy_includes_collapse k document Hw) in Hk.
  destruct (splitFrom_covers k (JS.toLowerCase (collapseWhitespace document))
              EmptyString false false) as (p' & Hp' & Hin);
    [now apply wordy_spaceless|exact Hne|discriminate|exact Hk|].
  change EmptyString with (JS.toLowerCase EmptyString) in Hp'.
  rewrite <- splitFrom_lower in Hp'.
  apply list_elem_of_fmap in Hp' as (p & -> & Hp).
  exists p. split; [|exact Hin].
  unfold sentenceSplitter, splitSentences. apply list_elem_of_filter. split; [|exact Hp].
  pose proof (includes_nonEmpty _ _ Hin Hne) as Hlow. now destruct p.
Qed.

Definition noEvidence : string := "No direct evidence found.".

(** The evidence of the heuristic verdict: the placeholder when no keyword
    is found in the document; otherwise a sentence of the document that
    holds one of the keywords found, in any letter case.  A passing verdict
    always quotes such a sentence. *)
Theorem heuristic_evidence (rule document : string) :
  let v := buildFallbackResult rule document in
  let matches := matchesOf (keywordsOf (JS.trim rule)) (JS.toLowerCase document) in
  (matches = [] -> evidence v = VStr noEvidence)
  /\ (matches <> [] ->
      exists s k, evidence v = VStr s
                  /\ s ∈ sentenceSplitter document
                  /\ k ∈ matches
                  /\ JS.includes (JS.toLowerCase s) k = true)
  /\ (status v = "pass" -> matches <> []).
Proof.
  intros v matches.
  split; [|split].
  - intros Hm. subst v. unfold buildFallbackResult. cbn [evidence].
    fold matches. now rewrite Hm.
  - intros Hm.
    assert (Hwordy : Forall wordy matches).
    { apply Forall_forall. intros k Hk. apply matchesOf_spec in Hk as [_ Hk].
      revert k Hk. apply Forall_forall, keywordsOf_wordy. }
    destruct (find (mentions matches) (sentenceSplitter document)) as [s|] eqn:Hfind.
    + pose proof Hfind as Hfound. apply find_some in Hfound as [Hs Hment].
      apply list_elem_of_In in Hs.
      unfold mentions in Hment. apply existsb_exists in Hment as (k & Hk & Hin).
      apply list_elem_of_In in Hk.
      assert (Hkw : wordy k) by (exact (proj1 (Forall_forall _ _) Hwordy k Hk)).
      rewrite (toLowerCase_word k (proj2 Hkw)) in Hin.
      exists s, k. split; [|auto].
      subst v. unfold buildFallbackResult. cbn [evidence]. fold matches.
      destruct matches; [contradiction|]. rewrite Hfind.
      assert (JS.nonEmpty s = true) as ->; [|reflexivity].
      apply list_elem_of_filter in Hs as [Hs _]. exact Hs.
    + exfalso. destruct matches as [|k rest] eqn:Em; [contradiction|].
      assert (Hk : k ∈ matchesOf (keywordsOf (JS.trim rule)) (JS.toLowerCase document)).
      { fold matches. rewrite Em. apply list_elem_of_here. }
      apply matchesOf_spec in Hk as [Hinc _].
      assert (Hkw : wordy k) by (inversion Hwordy; assumption).
      destruct (sentence_for_keyword k document Hkw Hinc) as (s & Hs & Hin).
      apply list_elem_of_In in Hs.
      pose proof (find_none _ _ Hfind s Hs) as Hf.
      unfold mentions in Hf. simpl in Hf.
      rewrite (toLowerCase_word k (proj2 Hkw)), Hin in Hf. discriminate.
  - apply buildFallbackResult_status_matches.
Qed.

(** ** The heuristic evaluator against its description

    The description speaks of the lower-case alphanumeric words of the
    rule and of keywords occurring in the document.  Both are stated here
    without the code: the alphanumerics are listed, the words of a text are
    given by how the text divides into gaps and words, and a keyword occurs
    in a text that is some text, the keyword, and some text. *)

Definition alphanumerics : string := "abcdefghijklmnopqrstuvwxyz0123456789".

Definition alphanumeric (c : ascii) : bool :=
  existsb (Ascii.eqb c) (list_ascii_of_string alphanumerics).

(** A word: a text of alphanumerics that is not empty. *)
Definition isWord (w : string) : Prop :=
  w <> EmptyString /\ every alphanumeric w = true.

(** A gap: a text without alphanumerics, possibly empty. *)
Definition isGap (g : string) : Prop :=
  every (fun c => negb (alphanumeric c)) g = true.

(** The text does not go on with an alphanumeric: a word before it ends
    there. *)
Definition wordEnds (rest : string) : Prop :=
  match rest with
  | EmptyString => True
  | String c _ => alphanumeric c = false
  end.

(** The words of a text, in their order: a text without alphanumerics has
    none; otherwise the text is a gap, its first word, which ends there,
    and a rest with the other words. *)
Inductive wordsIn : string -> list string -> Prop :=
| words_none (gap : string) :
    isGap gap -> wordsIn gap []
| words_cons (gap w rest : string) (ws : list string) :
    isGap gap -> isWord w -> wordEnds rest -> wordsIn rest ws ->
    wordsIn (gap +:+ w +:+ rest) (w :: ws).

(** [k] occurs in [d] as a substring. *)
Definition occursIn (k d : string) : Prop :=
  exists before after, d = before +:+ k +:+ after.

Lemma isWordChar_alphanumeric (c : ascii) : isWordChar c = alphanumeric c.
Proof. destruct c as [[] [] [] [] [] [] [] []]; vm_compute; reflexivity. Qed.

Lemma matchWordsFrom_gap (gap s : string) :
  isGap gap ->
  matchWordsFrom EmptyString (gap +:+ s) = matchWordsFrom EmptyString s.
Proof.
  unfold isGap. induction gap as [|c gap IH]; intros H; [reflexivity|].
  simpl in H. apply andb_true_iff in H as [Hc Hg]. apply negb_true_iff in Hc.
  rewrite append_cons. cbn [matchWordsFrom].
  rewrite isWordChar_alphanumeric, Hc. cbn [flush JS.nonEmpty app].
  now apply IH.
Qed.

Lemma matchWordsFrom_ends (cur rest : string) :
  cur <> EmptyString -> wordEnds rest ->
  matchWordsFrom cur rest = cur :: matchWordsFrom EmptyString rest.
Proof.
  intros Hcur Hrest.
  assert (Hflush : flush cur = [cur]) by (destruct cur; [contradiction|reflexivity]).
  destruct rest as [|c rest]; cbn [matchWordsFrom].
  - now rewrite Hflush.
  - cbn [wordEnds] in Hrest. rewrite isWordChar_alphanumeric, Hrest.
    now rewrite Hflush.
Qed.

Lemma matchWordsFrom_word (w cur rest : string) :
  every alphanumeric w = true -> cur +:+ w <> EmptyString -> wordEnds rest ->
  matchWordsFrom cur (w +:+ rest)
  = (cur +:+ w) :: matchWordsFrom EmptyString rest.
Proof.
  revert cur. induction w as [|c w IH]; intros cur Hw Hne Hrest.
  - rewrite append_empty_r in *. now apply matchWordsFrom_ends.
  - simpl in Hw. apply andb_true_iff in Hw as [Hc Hw].
    rewrite append_cons. cbn [matchWordsFrom].
    rewrite isWordChar_alphanumeric, Hc.
    assert (Heq : (cur +:+ String c EmptyString) +:+ w = cur +:+ String c w)
      by now rewrite append_assoc.
    rewrite IH; [now rewrite Heq|exact Hw|now rewrite Heq|exact Hrest].
Qed.

(** The words of a text are what the code collects from it, and nothing
    else is. *)
Lemma wordsIn_matchWords (s : string) (ws : list string) :
  wordsIn s ws -> matchWords s = ws.
Proof.
  unfold matchWords.
  induction 1 as [gap Hgap|gap w rest ws Hgap [Hne Hw] Hrest _ IH].
  - rewrite <- (append_empty_r gap). now rewrite matchWordsFrom_gap.
  - rewrite matchWordsFrom_gap by exact Hgap.
    rewrite (matchWordsFrom_word w EmptyString rest Hw Hne Hrest).
    now rewrite IH.
Qed.

Lemma wordsIn_total (s : string) : exists ws, wordsIn s ws.
Proof.
  induction s as [|c s [ws IH]].
  - exists []. now apply words_none.
  - destruct (alphanumeric c) eqn:Hc.
    + assert (Hword : isWord (String c EmptyString))
        by (split; [discriminate|simpl; now rewrite Hc]).
      inversion IH as [gap Hgap Hs Hws|gap w rest ws' Hgap Hw Hrest Hrec Hs Hws];
        subst.
      * exists [String c EmptyString].
        apply (words_cons EmptyString (String c EmptyString) s []);
          [reflexivity|exact Hword| |now apply words_none].
        destruct s as [|x s]; [exact I|].
        simpl in Hgap. apply andb_true_iff in Hgap as [Hx _].
        now apply negb_true_iff in Hx.
      * destruct gap as [|x gap].
        -- exists (String c w :: ws').
           apply (words_cons EmptyString (String c w) rest ws');
             [reflexivity| |exact Hrest|exact Hrec].
           destruct Hw as [_ Hw]. split; [discriminate|]. simpl. now rewrite Hc.
        -- exists (String c EmptyString :: w :: ws').
           apply (words_cons EmptyString (String c EmptyString)
                    (String x gap +:+ w +:+ rest) (w :: ws'));
             [reflexivity|exact Hword| |exact IH].
           rewrite append_cons. simpl in Hgap.
           apply andb_true_iff in Hgap as [Hx _]. now apply negb_true_iff in Hx.
    + inversion IH as [gap Hgap Hs Hws|gap w rest ws' Hgap Hw Hrest Hrec Hs Hws];
        subst.
      * exists []. apply words_none. unfold isGap. simpl. now rewrite Hc.
      * exists (w :: ws').
        apply (words_cons (String c gap) w rest ws'); [|exact Hw|exact Hrest|exact Hrec].
        unfold isGap. simpl. now rewrite Hc.
Qed.

Lemma matchWords_wordsIn (s : string) : wordsIn s (matchWords s).
Proof.
  destruct (wordsIn_total s) as [ws Hws].
  now rewrite (wordsIn_matchWords s ws Hws).
Qed.

Lemma prefix_occurs (k s : string) :
  String.prefix k s = true <-> exists after, s = k +:+ after.
Proof.
  revert s. induction k as [|x k IH]; intros s.
  - rewrite prefix_empty. split; [intros _; now exists s|reflexivity].
  - destruct s as [|y s].
    + rewrite prefix_of_empty. split; [discriminate|intros [after H]; discriminate].
    + rewrite prefix_cons, andb_true_iff, IH. split.
      * intros [Hxy [after ->]]. apply Ascii.eqb_eq in Hxy as ->. now exists after.
      * intros [after H]. rewrite append_cons in H. injection H as -> ->.
        split; [apply Ascii.eqb_refl|now exists after].
Qed.

Lemma includes_occursIn (d k : string) :
  JS.includes d k = true <-> occursIn k d.
Proof.
  split.
  - induction d as [|c d IH]; rewrite includes_unfold, orb_true_iff.
    + intros [H|H]; [|discriminate].
      apply prefix_occurs in H as [after ->]. now exists EmptyString, after.
    + intros [H|H].
      * apply prefix_occurs in H as [after ->]. now exists EmptyString, after.
      * destruct (IH H) as (before & after & ->).
        now exists (String c before), after.
  - intros (before & after & ->).
    apply includes_append_l. rewrite includes_unfold.
    assert (String.prefix k (k +:+ after) = true) as ->
      by (apply prefix_occurs; now exists after).
    reflexivity.
Qed.

#[export] Instance occursIn_dec (k d : string) : Decision (occursIn k d).
Proof.
  destruct (JS.includes d k) eqn:E.
  - left. now apply includes_occursIn.
  - right. intros H. apply includes_occursIn in H. congruence.
Defined.

(** C5. The keywords of the heuristic evaluator are the words of the
    lower-cased rule, in the sense above, that are longer than four
    characters, the first six of them; the matches are the keywords that
    occur in the lower-cased document.  The verdict passes exactly when the
    number of matches reaches [max(1, ceil(0.4 * keywordCount))], so a
    rule without keywords fails; the confidence is 55 on pass and 35 on
    fail. *)
Theorem heuristic_evaluator_spec (rule document : string) :
  let v := buildFallbackResult rule document in
  exists words,
    wordsIn (JS.toLowerCase rule) words
    /\ (forall others, wordsIn (JS.toLowerCase rule) others -> others = words)
    /\ let keywords := take 6 (filter (fun w => 4 < String.length w) words) in
       let found :=
         filter (fun k => occursIn k (JS.toLowerCase document)) keywords in
       let threshold := spec_threshold (List.length keywords) in
       keywordsOf (JS.trim rule) = keywords
       /\ matchesOf (keywordsOf (JS.trim rule)) (JS.toLowerCase document) = found
       /\ (status v = "pass" <-> (threshold <= Z.of_nat (List.length found))%Z)
       /\ (status v = "fail" <-> ~ (threshold <= Z.of_nat (List.length found))%Z)
       /\ (keywords = [] -> status v = "fail")
       /\ (status v = "pass" -> confidence v = num 55)
       /\ (status v = "fail" -> confidence v = num 35).
Proof.
  cbv zeta. exists (matchWords (JS.toLowerCase rule)).
  split; [apply matchWords_wordsIn|].
  split.
  { intros others Ho. symmetry. now apply wordsIn_matchWords. }
  set (keywords := take 6 (filter (fun w => 4 < String.length w)
                                  (matchWords (JS.toLowerCase rule)))).
  assert (Hk : keywordsOf (JS.trim rule) = keywords).
  { rewrite keywordsOf_trim. unfold keywordsUntrimmed, keywords. f_equal.
    apply filter_pointwise. intros w _. unfold JS.length. lia. }
  assert (Hm : matchesOf keywords (JS.toLowerCase document)
               = filter (fun k => occursIn k (JS.toLowerCase document)) keywords).
  { unfold matchesOf. apply filter_pointwise. intros k _. apply includes_occursIn. }
  pose proof (heuristic_status rule document) as Hs.
  pose proof (heuristic_confidence rule document) as Hc.
  assert (Hp : passesUntrimmed rule document = true <->
               (spec_threshold (List.length keywords)
                <= Z.of_nat (List.length
                               (filter (fun k => occursIn k (JS.toLowerCase document))
                                       keywords)))%Z).
  { unfold passesUntrimmed, matchCountUntrimmed.
    rewrite <- keywordsOf_trim, Hk.
    fold (matchesOf keywords (JS.toLowerCase document)). rewrite Hm.
    apply Z.leb_le. }
  rewrite Hk. split; [reflexivity|]. split; [exact Hm|].
  rewrite Hs, Hc.
  destruct (passesUntrimmed rule document) eqn:E.
  - assert (Hle := proj1 Hp eq_refl).
    split; [tauto|].
    split; [split; [discriminate|tauto]|].
    split; [|split; [reflexivity|discriminate]].
    intros Hnil. exfalso. revert Hle. rewrite Hnil. cbn. unfold spec_threshold.
    cbn. lia.
  - assert (Hn : ~ (spec_threshold (List.length keywords)
                    <= Z.of_nat
                         (List.length
                            (filter (fun k => occursIn k (JS.toLowerCase document))
                                    keywords)))%Z)
      by (rewrite <- Hp; discriminate).
    split; [split; [discriminate|tauto]|].
    split; [tauto|].
    split; [reflexivity|split; [discriminate|reflexivity]].
Qed.

(** ** The normalizer and the prose around an object *)

Definition lacks (c : ascii) (s : string) : Prop :=
  every (fun x => negb (Ascii.eqb c x)) s = true.

Lemma prefix_unit (c x : ascii) (s : string) :
  String.prefix (String c EmptyString) (String x s) = Ascii.eqb c x.
Proof. rewrite prefix_cons, prefix_empty. apply andb_true_r. Qed.

Lemma length_append (a b : string) :
  String.length (a +:+ b) = String.length a + String.length b.
Proof.
  induction a as [|x a IH]; [reflexivity|].
  rewrite append_cons. simpl. now rewrite IH.
Qed.

Lemma indexOfFrom_skip (c : ascii) (p s : string) (i : Z) :
  lacks c p ->
  JS.indexOfFrom i (p +:+ s) (String c EmptyString)
  = JS.indexOfFrom (i + Z.of_nat (String.length p)) s (String c EmptyString).
Proof.
  unfold lacks. revert i. induction p as [|x p IH]; intros i Hp.
  - simpl String.length. rewrite Z.add_0_r. reflexivity.
  - simpl in Hp. apply andb_true_iff in Hp as [Hx Hp].
    apply negb_true_iff in Hx.
    rewrite append_cons. cbn [JS.indexOfFrom]. rewrite prefix_unit, Hx.
    rewrite IH by exact Hp. f_equal. simpl String.length. lia.
Qed.

Lemma indexOfFrom_head (c : ascii) (s : string) (i : Z) :
  JS.indexOfFrom i (String c s) (String c EmptyString) = i.
Proof. cbn [JS.indexOfFrom]. now rewrite prefix_unit, Ascii.eqb_refl. Qed.

Lemma lastIndexOfFrom_lacks (c : ascii) (q : string) (i : Z) :
  lacks c q -> JS.lastIndexOfFrom i q (String c EmptyString) = (-1)%Z.
Proof.
  unfold lacks. revert i. induction q as [|x q IH]; intros i Hq; [reflexivity|].
  simpl in Hq. apply andb_true_iff in Hq as [Hx Hq]. apply negb_true_iff in Hx.
  cbn [JS.lastIndexOfFrom]. rewrite (IH _ Hq), prefix_unit, Hx. reflexivity.
Qed.

Lemma lastIndexOfFrom_last (c : ascii) (a q : string) (i : Z) :
  (0 <= i)%Z -> lacks c q ->
  JS.lastIndexOfFrom i (a +:+ String c q) (String c EmptyString)
  = (i + Z.of_nat (String.length a))%Z.
Proof.
  intros Hi Hq. revert i Hi. induction a as [|x a IH]; intros i Hi.
  - change (EmptyString +:+ String c q) with (String c q).
    cbn [JS.lastIndexOfFrom]. rewrite (lastIndexOfFrom_lacks c q _ Hq).
    rewrite prefix_unit, Ascii.eqb_refl. simpl. lia.
  - rewrite append_cons. cbn [JS.lastIndexOfFrom].
    rewrite IH by lia.
    destruct (Z.eqb_spec (i + 1 + Z.of_nat (String.length a)) (-1)); [lia|].
    simpl String.length. lia.
Qed.

Lemma substring_skip (p s : string) (m : nat) :
  String.substring (String.length p) m (p +:+ s) = String.substring 0 m s.
Proof.
  induction p as [|x p IH]; [reflexivity|].
  rewrite append_cons. simpl. exact IH.
Qed.

Lemma substring_whole (a b : string) :
  String.substring 0 (String.length a) (a +:+ b) = a.
Proof.
  induction a as [|x a IH]; [now destruct b|].
  rewrite append_cons. simpl. now rewrite IH.
Qed.

Lemma slice_middle (p obj q : string) :
  JS.slice (p +:+ obj +:+ q) (Z.of_nat (String.length p))
           (Z.of_nat (String.length p) + Z.of_nat (String.length obj))
  = obj.
Proof.
  unfold JS.slice, JS.relative, JS.length. rewrite !length_append.
  destruct (Z.ltb_spec (Z.of_nat (String.length p)) 0); [lia|].
  destruct (Z.ltb_spec (Z.of_nat (String.length p) + Z.of_nat (String.length obj)) 0);
    [lia|].
  rewrite !Z.min_l by lia.
  replace (Z.to_nat (Z.of_nat (String.length p))) with (String.length p) by lia.
  replace (Z.to_nat (Z.max _ 0)) with (String.length obj) by lia.
  rewrite substring_skip. apply substring_whole.
Qed.

Section Normalizer.
Context {RT : Runtime}.

(** What the normalizer does depends on the text only through the part from
    the first opening brace to the last closing brace. *)
Lemma parseLLMJson_located (raw : string) (fallback : Verdict) (source : string)
    (start stop : Z) (object : string) :
  JS.indexOf raw "{" = start -> JS.lastIndexOf raw "}" = stop ->
  (0 <= start)%Z -> (0 <= stop)%Z ->
  JS.slice raw start (stop + 1) = object ->
  parseLLMJson (VStr raw) fallback source
  = catch
      (parsed ← parseJSON (VStr object);
       st ← getProp parsed "status";
       lowered ← lowerStatus st;
       ev ← getProp parsed "evidence";
       re ← getProp parsed "reasoning";
       co ← getProp parsed "confidence";
       Ret {| rule := rule fallback;
              status := if isString "pass" lowered then "pass" else "fail";
              evidence := if truthy ev then ev else evidence fallback;
              reasoning := if truthy re then re else reasoning fallback;
              confidence :=
                match co with
                | VNum n => Math_min (num 100) (Math_max (num 0) (Math_round n))
                | _ => confidence fallback
                end;
              source := source |})
      (fun _ => Ret fallback).
Proof.
  intros Hs Ht Hs0 Ht0 Hobj. unfold parseLLMJson.
  cbn [indexOfValue lastIndexOfValue]. rewrite !bind_ret, Hs, Ht.
  destruct (Z.eqb_spec start (-1)); [lia|].
  destruct (Z.eqb_spec stop (-1)); [lia|].
  cbn [orb sliceValue]. rewrite bind_ret, Hobj. reflexivity.
Qed.

(** Prose before and after the object is ignored: a text without an
    opening brace in front and a text without a closing brace behind change
    nothing. *)
Theorem normalizer_ignores_prose (before body after : string)
    (fallback : Verdict) (source : string) :
  lacks "{" before -> lacks "}" after ->
  let object := "{" +:+ body +:+ "}" in
  parseLLMJson (VStr (before +:+ object +:+ after)) fallback source
  = parseLLMJson (VStr object) fallback source.
Proof.
  intros Hb Ha object.
  assert (Hobj : object = String "{" (body +:+ String "}" EmptyString)) by reflexivity.
  assert (Hlen : String.length object = S (String.length body + 1)).
  { rewrite Hobj. simpl. now rewrite length_append. }
  rewrite (parseLLMJson_located (before +:+ object +:+ after) fallback source
             (Z.of_nat (String.length before))
             (Z.of_nat (String.length before) + Z.of_nat (String.length object) - 1)
             object).
  - rewrite (parseLLMJson_located object fallback source 0
               (Z.of_nat (String.length object) - 1) object); [reflexivity|..].
    + rewrite Hobj. apply indexOfFrom_head.
    + unfold JS.lastIndexOf. rewrite Hlen, Hobj.
      change (String "{" (body +:+ String "}" EmptyString))
        with (String "{" body +:+ String "}" EmptyString).
      rewrite lastIndexOfFrom_last; [|lia|reflexivity].
      simpl String.length. lia.
    + lia.
    + lia.
    + replace (Z.of_nat (String.length object) - 1 + 1)%Z
        with (0 + Z.of_nat (String.length object))%Z by lia.
      pose proof (slice_middle EmptyString object EmptyString) as H.
      change (EmptyString +:+ object +:+ EmptyString) with (object +:+ EmptyString) in H.
      rewrite append_empty_r in H. exact H.
  - unfold JS.indexOf. rewrite indexOfFrom_skip by exact Hb.
    rewrite Hobj, append_cons. rewrite indexOfFrom_head. lia.
  - unfold JS.lastIndexOf.
    replace (before +:+ object +:+ after)
      with ((before +:+ String "{" body) +:+ String "}" after).
    + rewrite lastIndexOfFrom_last; [|lia|exact Ha].
      rewrite length_append, Hlen. simpl String.length. lia.
    + rewrite Hobj, !append_assoc, !append_cons. rewrite append_assoc. reflexivity.
  - lia.
  - lia.
  - replace (Z.of_nat (String.length before) + Z.of_nat (String.length object) - 1 + 1)%Z
      with (Z.of_nat (String.length before) + Z.of_nat (String.length object))%Z by lia.
    apply slice_middle.
Qed.

End Normalizer.

(** ** Start-up: which backend becomes the process default *)

(** The trimmed API key of a backend is set and not empty. *)
Definition hasKey (env : Env) (name : string) : bool :=
  if String.eqb name "openai" then present (trimmedOpenAiKey env)
  else if String.eqb name "mistral" then present (trimmedMistralKey env)
  else if String.eqb name "groq" then present (trimmedGroqKey env)
  else false.

(** The default as the chain of start-up decides it: a recognised
    preference alone decides, and falls to the heuristic when its key is
    missing; without one the first backend with a key wins. *)
Definition chosenBackend (env : Env) : string :=
  match find (prefers env) backends with
  | Some p => if hasKey env p then p else "heuristic"
  | None => default "heuristic" (find (hasKey env) backends)
  end.

(** The process default is the backend chosen by preference first and by
    the order openai, mistral, groq of the keys second; a recognised
    preference whose key is missing leaves the heuristic, whatever other
    keys are set. *)
Theorem startup_choice (env : Env) :
  activeProvider (startup env) = chosenBackend env.
Proof.
  unfold chosenBackend, startup, resolveOpenAI, resolveMistral, resolveGroq,
    backends, hasKey.
  cbn [find String.eqb Ascii.eqb Bool.eqb].
  destruct (prefers env "openai"), (prefers env "mistral"), (prefers env "groq"),
    (present (trimmedOpenAiKey env)), (present (trimmedMistralKey env)),
    (present (trimmedGroqKey env)); reflexivity.
Qed.

(** After start-up a client exists exactly for the process default, so at
    most one client exists, and the model recorded at start-up is the model
    the handler reports for the default. *)
Theorem startup_consistent (env : Env) :
  let reg := startup env in
  openai reg = String.eqb (activeProvider reg) "openai"
  /\ mistral reg = String.eqb (activeProvider reg) "mistral"
  /\ groq reg = String.eqb (activeProvider reg) "groq"
  /\ noClient reg = String.eqb (activeProvider reg) "heuristic"
  /\ activeModel reg = resolvedModelOf env (activeProvider reg).
Proof.
  unfold startup, resolveOpenAI, resolveMistral, resolveGroq, noClient,
    resolvedModelOf.
  destruct (prefers env "openai"), (prefers env "mistral"), (prefers env "groq"),
    (present (trimmedOpenAiKey env)), (present (trimmedMistralKey env)),
    (present (trimmedGroqKey env)); cbn; tauto.
Qed.

(** ** The handler: what a response can look like *)

Section Handler.
Context {RT : Runtime}.

(** The five refusals of the handler. *)
Definition rejections : list (Z * string) :=
  [(400%Z, "PDF file is required.");
   (400%Z, "At least one rule is required.");
   (400%Z, "Rules must be non-empty text.");
   (422%Z, "Could not extract text from the PDF.");
   (500%Z, "An unexpected error occurred while checking the document.")].

Lemma intake_rejections (req : Request) (pdf : Extraction)
    (code : Z) (message : string) :
  intake req pdf = inl (code, message) -> (code, message) ∈ rejections.
Proof.
  assert (Hin : forall p : Z * string,
             p ∈ rejections ->
             inl p = (inl (code, message) : Z * string + list string * string * Value) ->
             (code, message) ∈ rejections).
  { intros p Hp Heq. now injection Heq as <-. }
  unfold intake.
  destruct (req_file req); [|apply Hin; apply list_elem_of_In; simpl; tauto].
  destruct (negb _); [apply Hin; apply list_elem_of_In; simpl; tauto|].
  destruct (_ ≫= _) as [[|r rs]|e];
    [apply Hin; apply list_elem_of_In; simpl; tauto|
    |apply Hin; apply list_elem_of_In; simpl; tauto].
  destruct (extractTextFromPdf pdf) as [[text pc]|e];
    [|apply Hin; apply list_elem_of_In; simpl; tauto].
  cbv zeta. destruct (JS.nonEmpty _); [discriminate|].
  apply Hin; apply list_elem_of_In; simpl; tauto.
Qed.

(** What holds of every verdict in a report.  Evidence and reasoning are
    truthy; they are texts when the source is the heuristic, while a value
    taken from a backend's answer is passed on whatever its type, so this
    is less than the client's type of a result asks for. *)
Definition reported (v : Verdict) : Prop :=
  trimmed (rule v) /\ JS.nonEmpty (rule v) = true
  /\ (status v = "pass" \/ status v = "fail")
  /\ truthy (evidence v) = true
  /\ truthy (reasoning v) = true
  /\ (source v = "heuristic" -> isText (evidence v) /\ isText (reasoning v))
  /\ isPercentage (confidence v)
  /\ source v ∈ "heuristic" :: backends.

Lemma heuristic_source_texts (reg : Registry) (rule0 documentText : string)
    (provider : option string) (reply : Reply) :
  let v := verdictOf reg rule0 documentText provider reply in
  source v = "heuristic" -> isText (evidence v) /\ isText (reasoning v).
Proof.
  cbv zeta. unfold verdictOf.
  destruct (evaluate_outcome reg rule0 documentText provider reply)
    as (v & -> & [->|(content & src & Hsrc & Hv)]).
  - intros _. split; [apply fallback_evidence|apply fallback_reasoning].
  - apply parseLLMJson_shape in Hv as [->|(_ & _ & _ & _ & _ & Hs)].
    + intros _. split; [apply fallback_evidence|apply fallback_reasoning].
    + rewrite Hs. intros ->. apply list_elem_of_In in Hsrc. simpl in Hsrc.
      destruct Hsrc as [H|[H|[H|[]]]]; discriminate H.
Qed.

Lemma nonEmpty_length (s : string) :
  JS.nonEmpty s = true -> (1 <= JS.length s)%Z.
Proof. destruct s; [discriminate|]. unfold JS.length. simpl String.length. lia. Qed.

(** Every response of the handler is one of the five refusals, or a report
    with status 200 that holds between one and ten verdicts, each with a
    non-blank trimmed rule, a status tag, truthy evidence and reasoning
    (texts when the source is the heuristic, of any type when taken from a
    backend's answer), a whole confidence from 0 to 100 and a known source,
    for a document text of 1 to 12000 characters, a page count that is null
    or truthy, and the model of one of the backends or ["heuristic"]. *)
Theorem response_envelope (env : Env) (reg : Registry) (req : Request)
    (pdf : Extraction) (replies : nat -> Reply) (latency : nat -> nat) :
  exists r,
    outcome (check env reg req pdf replies latency) = Ret r
    /\ match body r with
       | Message message => (statusCode r, message) ∈ rejections
       | Report pageCount model textLength results =>
           statusCode r = 200%Z
           /\ 1 <= List.length results <= 10
           /\ (1 <= textLength <= 12000)%Z
           /\ (pageCount = VNull \/ truthy pageCount = true)
           /\ model ∈ ["heuristic"; openaiModel env; mistralModel env; groqModel env]
           /\ Forall reported results
       end.
Proof.
  rewrite check_intake.
  destruct (intake req pdf) as [[code message]|[[rules documentText] pageCount]] eqn:Hi.
  - eexists. split; [reflexivity|]. cbn [body statusCode].
    exact (intake_rejections req pdf code message Hi).
  - apply intake_accepted in Hi
      as (xs & raw & total & _ & _ & _ & Hrules & Hne & _ & Hd & Hdne & Hpc).
    eexists. split; [reflexivity|]. cbn [body statusCode report].
    split; [reflexivity|]. rewrite length_imap.
    split.
    { split.
      - destruct rules; [congruence|simpl; lia].
      - rewrite Hrules, length_take. lia. }
    split.
    { split; [now apply nonEmpty_length|].
      rewrite Hd. unfold documentTextOf. now apply truncateText_length. }
    split.
    { rewrite Hpc. destruct (truthy total) eqn:Ht; auto. }
    split.
    { unfold resolvedModelOf. apply list_elem_of_In.
      repeat match goal with |- context [if ?b then _ else _] => destruct b end;
        simpl; tauto. }
    apply Forall_forall. intros v Hv.
    apply elem_of_lookup_imap_1 in Hv as (i & r & -> & Hr).
    pose proof (verdict_shape reg r documentText
                  (Some (effectiveProviderOf reg (body_provider req))) (replies i))
      as (Hrule & Hst & Hev & Hre & Hco & Hso).
    assert (Hr' : trimmed r /\ JS.nonEmpty r = true).
    { assert (Hall : Forall (fun r => trimmed r /\ JS.nonEmpty r = true) rules)
        by (rewrite Hrules; apply Forall_take, textRules_trimmed).
      exact (proj1 (Forall_forall _ _) Hall r (list_elem_of_lookup_2 _ _ _ Hr)). }
    destruct Hr' as [Htr Hnr].
    pose proof (heuristic_source_texts reg r documentText
                  (Some (effectiveProviderOf reg (body_provider req))) (replies i))
      as Htexts.
    unfold reported. rewrite Hrule, Htr. unfold trimmed. rewrite Htr. auto 10.
Qed.

End Handler.

(** ** The orchestrator: when a backend's answer is used *)

Section Orchestrator.
Context {RT : Runtime}.

(** The backend is one of the three and its client exists. *)
Definition answers (reg : Registry) (name : string) : bool :=
  bool_decide (name ∈ backends) && configured reg name.

Lemma answers_cases (reg : Registry) (name : string) :
  answers reg name = true ->
  (name = "openai" /\ openai reg = true)
  \/ (name = "mistral" /\ mistral reg = true)
  \/ (name = "groq" /\ groq reg = true).
Proof.
  unfold answers. intros H. apply andb_true_iff in H as [Hin Hc].
  apply bool_decide_eq_true in Hin. apply list_elem_of_In in Hin. simpl in Hin.
  destruct Hin as [<-|[<-|[<-|[]]]]; cbn in Hc; auto.
Qed.

Lemma answers_other (reg : Registry) (name : string) :
  name <> "openai" -> name <> "mistral" -> name <> "groq" ->
  answers reg name = false.
Proof.
  intros Ho Hm Hg. unfold answers.
  rewrite bool_decide_eq_false_2; [reflexivity|].
  intros Hin. apply list_elem_of_In in Hin. simpl in Hin.
  destruct Hin as [<-|[<-|[<-|[]]]]; congruence.
Qed.

(** The whole of an evaluation: the entry is recorded; a backend that
    answers is asked once and its payload, when there is one, goes through
    the normalizer; everything else ends with the heuristic verdict. *)
Lemma evaluate_run (reg : Registry) (rule documentText : string)
    (provider : option string) (reply : Reply) :
  let name := effectiveOf reg provider in
  let fallback := buildFallbackResult rule documentText in
  evaluateRuleWithLLM reg rule documentText provider reply
  = if answers reg name then
      mkRun [Evaluating rule documentText;
             Requested name (buildPrompt rule documentText)]
            match reply with
            | Rejected _ => Ret fallback
            | Resolved response =>
                match payloadOf name response with
                | Ret content =>
                    if truthy content then parseLLMJson content fallback name
                    else Ret fallback
                | Throw _ => Ret fallback
                end
            end
    else mkRun [Evaluating rule documentText] (Ret fallback).
Proof.
  cbv zeta. unfold evaluateRuleWithLLM.
  remember (effectiveOf reg provider) as eff eqn:Heff. clear Heff.
  set (fb := buildFallbackResult rule documentText).
  destruct (String.eqb_spec eff "openai") as [->|Ho].
  { unfold answers, configured, noClient, payloadOf.
    cbn [String.eqb Ascii.eqb Bool.eqb andb orb].
    rewrite bool_decide_eq_true_2 by (apply list_elem_of_In; simpl; tauto).
    destruct (openai reg); cbn [negb andb orb];
      [|destruct (mistral reg), (groq reg); reflexivity].
    destruct reply as [msg|response]; [reflexivity|].
    destruct (messageContentOf response) as [content|e] eqn:Hc;
      unfold await, catchRun, mbind, Run_bind, mret, Run_ret, lift, emit;
      cbn [outcome events app]; rewrite Hc; cbn [outcome events app];
      [|reflexivity].
    destruct (truthy content); cbn [negb outcome events app]; [|reflexivity].
    destruct (parseLLMJson_total content fb "openai") as [v Hv].
    rewrite Hv. reflexivity. }
  destruct (String.eqb_spec eff "mistral") as [->|Hm].
  { unfold answers, configured, noClient, payloadOf.
    cbn [String.eqb Ascii.eqb Bool.eqb andb orb].
    rewrite bool_decide_eq_true_2 by (apply list_elem_of_In; simpl; tauto).
    destruct (mistral reg); cbn [negb andb orb]; rewrite ?andb_false_r;
      cbn [negb andb orb];
      [|destruct (openai reg), (groq reg); reflexivity].
    destruct reply as [msg|response]; [reflexivity|].
    destruct (messageContentOf response) as [mc|e] eqn:Hc;
      unfold await, catchRun, mbind, Run_bind, mret, Run_ret, lift, emit;
      cbn [outcome events app]; rewrite Hc; cbn [outcome events app Outcome_bind];
      [|reflexivity].
    destruct (mistralContent mc) as [content|e];
      cbn [outcome events app Outcome_bind]; [|reflexivity].
    rewrite truthy_VStr.
    destruct (JS.nonEmpty content); cbn [negb outcome events app]; [|reflexivity].
    destruct (parseLLMJson_total (VStr content) fb "mistral") as [v Hv].
    rewrite Hv. reflexivity. }
  destruct (String.eqb_spec eff "groq") as [->|Hg].
  { unfold answers, configured, noClient, payloadOf.
    cbn [String.eqb Ascii.eqb Bool.eqb andb orb].
    rewrite bool_decide_eq_true_2 by (apply list_elem_of_In; simpl; tauto).
    destruct (groq reg); cbn [negb andb orb]; rewrite ?andb_false_r;
      cbn [negb andb orb];
      [|destruct (openai reg), (mistral reg); reflexivity].
    destruct reply as [msg|response]; [reflexivity|].
    unfold await, catchRun, mbind, Run_bind, mret, Run_ret, lift, emit;
      cbn [outcome events app Outcome_bind].
    destruct (extractGroqText response) as [content|e];
      cbn [outcome events app Outcome_bind]; [|reflexivity].
    rewrite truthy_VStr.
    destruct (JS.nonEmpty content); cbn [negb outcome events app]; [|reflexivity].
    destruct (parseLLMJson_total (VStr content) fb "groq") as [v Hv].
    rewrite Hv. reflexivity. }
  rewrite (answers_other reg eff Ho Hm Hg).
  destruct (_ || _); reflexivity.
Qed.

(** The answer of a backend is used: when the effective backend has a
    client and its response unwraps to a payload that is not empty, the
    verdict is what the normalizer makes of this payload, with the
    heuristic verdict as its fallback and the backend as its source. *)
Theorem orchestrator_uses_answer (reg : Registry) (rule documentText : string)
    (provider : option string) (response content : Value) :
  let name := effectiveOf reg provider in
  answers reg name = true ->
  payloadOf name response = Ret content ->
  truthy content = true ->
  outcome (evaluateRuleWithLLM reg rule documentText provider (Resolved response))
  = parseLLMJson content (buildFallbackResult rule documentText) name.
Proof.
  cbv zeta. intros Ha Hp Ht.
  pose proof (evaluate_run reg rule documentText provider (Resolved response)) as H.
  cbv zeta in H. rewrite H, Ha. cbn [outcome]. now rewrite Hp, Ht.
Qed.

(** The source of a verdict: ["heuristic"], or the effective backend, and
    the latter only when that backend has a client and answered with a
    payload that is not empty. *)
Theorem verdict_source (reg : Registry) (rule documentText : string)
    (provider : option string) (reply : Reply) :
  let name := effectiveOf reg provider in
  let v := verdictOf reg rule documentText provider reply in
  source v = "heuristic"
  \/ (source v = name
      /\ answers reg name = true
      /\ exists response content,
           reply = Resolved response
           /\ payloadOf name response = Ret content
           /\ truthy content = true).
Proof.
  cbv zeta. unfold verdictOf.
  pose proof (evaluate_run reg rule documentText provider reply) as H.
  cbv zeta in H. rewrite H. clear H.
  destruct (answers reg (effectiveOf reg provider)) eqn:Ha; cbn [outcome];
    [|now left].
  destruct reply as [msg|response]; [now left|].
  destruct (payloadOf _ response) as [content|e] eqn:Hp; [|now left].
  destruct (truthy content) eqn:Ht; [|now left].
  destruct (parseLLMJson content _ _) as [v|e] eqn:Hv; [|now left].
  apply parseLLMJson_shape in Hv as [->|(_ & _ & _ & _ & _ & Hs)]; [now left|].
  right. split; [exact Hs|]. split; [reflexivity|]. eauto.
Qed.

(** The backend named in a request for a completion. *)
Definition requested (e : Event) : option string :=
  match e with
  | Requested provider _ => Some provider
  | Evaluating _ _ => None
  end.

Lemma effectiveOf_effective (reg : Registry) (rawProvider : Value) :
  effectiveOf reg (Some (effectiveProviderOf reg rawProvider))
  = effectiveProviderOf reg rawProvider.
Proof.
  unfold effectiveOf, orElse.
  destruct (JS.nonEmpty (effectiveProviderOf reg rawProvider)) eqn:E; [reflexivity|].
  revert E. unfold effectiveProviderOf.
  destruct (requestedProviderOf rawProvider) as [p|]; [|reflexivity].
  destruct (JS.nonEmpty p) eqn:Hp; cbn [andb]; [|reflexivity].
  destruct (bool_decide _); [congruence|reflexivity].
Qed.

Lemma batch_requests (reg : Registry) (rules : list string)
    (documentText : string) (rawProvider : Value) (replies : nat -> Reply) :
  let name := effectiveProviderOf reg rawProvider in
  omap requested (batchEvents reg rules documentText name replies)
  = if answers reg name then replicate (List.length rules) name else [].
Proof.
  cbv zeta. unfold batchEvents.
  set (name := effectiveProviderOf reg rawProvider).
  assert (Hgen : forall k,
             omap requested
               (concat (events <$> imap (fun i rule =>
                                           evaluateRuleWithLLM reg rule documentText
                                             (Some name) (replies (k + i)))
                                        rules))
             = if answers reg name then replicate (List.length rules) name else []).
  { induction rules as [|r rules IH]; intros k.
    - now destruct (answers reg name).
    - cbn [imap fmap list_fmap concat]. rewrite omap_app.
      rewrite (imap_ext _ (fun i rule =>
                             evaluateRuleWithLLM reg rule documentText (Some name)
                               (replies (S k + i)))) by
        (intros i x _; unfold compose; now replace (k + S i) with (S k + i) by lia).
      change (list_fmap _ _ events ?l) with (events <$> l).
      rewrite (IH (S k)).
      pose proof (evaluate_run reg r documentText (Some name) (replies (k + 0))) as H.
      cbv zeta in H. unfold name in H at 1 2 3.
      rewrite effectiveOf_effective in H. fold name in H. rewrite H.
      destruct (answers reg name); reflexivity. }
  exact (Hgen 0).
Qed.

(** One request per rule: a run of the handler asks the effective backend
    once for every verdict it reports when that backend has a client, and
    asks nobody otherwise; a refused request asks nobody. *)
Theorem one_request_per_rule (env : Env) (reg : Registry) (req : Request)
    (pdf : Extraction) (replies : nat -> Reply) (latency : nat -> nat) :
  let run := check env reg req pdf replies latency in
  let name := effectiveProviderOf reg (body_provider req) in
  let reported :=
    match outcome run with
    | Ret {| body := Report _ _ _ results |} => List.length results
    | _ => 0
    end in
  omap requested (events run)
  = if answers reg name then replicate reported name else [].
Proof.
  cbv zeta. rewrite check_intake.
  destruct (intake req pdf) as [[code message]|[[rules documentText] pageCount]].
  - cbn. now destruct (answers reg _).
  - cbv zeta. cbn [events outcome report]. rewrite length_imap.
    apply batch_requests.
Qed.

(** With the registry of start-up only the process default is ever asked,
    and at most ten times for a request: selecting another backend in a
    request never reaches that backend. *)
Theorem only_default_asked (env : Env) (req : Request)
    (pdf : Extraction) (replies : nat -> Reply) (latency : nat -> nat) :
  let asked :=
    omap requested (events (check env (startup env) req pdf replies latency)) in
  List.length asked <= 10
  /\ Forall (fun name => name = activeProvider (startup env) /\ name ∈ backends)
            asked.
Proof.
  cbv zeta. rewrite check_intake.
  destruct (intake req pdf) as [[code message]|[[rules documentText] pageCount]] eqn:Hi.
  - cbn. split; [lia|constructor].
  - cbv zeta. cbn [events]. rewrite batch_requests.
    apply intake_accepted in Hi as (xs & _ & _ & _ & _ & _ & Hrules & _).
    destruct (answers (startup env) _) eqn:Ha; [|cbn; split; [lia|constructor]].
    split.
    + rewrite length_replicate, Hrules, length_take. lia.
    + apply Forall_replicate.
      pose proof (startup_cases env) as Hc. cbv zeta in Hc.
      apply list_elem_of_In in Hc. simpl in Hc.
      apply answers_cases in Ha.
      split.
      * destruct Hc as [Hc|[Hc|[Hc|[Hc|[]]]]]; injection Hc as Hp Ho Hm Hg;
          rewrite <- Hp; destruct Ha as [[-> Ha]|[[-> Ha]|[-> Ha]]];
          congruence.
      * destruct Ha as [[-> _]|[[-> _]|[-> _]]]; apply list_elem_of_In; simpl; tauto.
Qed.

End Orchestrator.

(** ** The rules field as a text *)

Section RulesField.
Context {RT : Runtime}.

Lemma nonEmpty_trim (s : string) :
  JS.nonEmpty (JS.trim s) = true -> JS.nonEmpty s = true.
Proof. now destruct s. Qed.

(** A rules field that is a text but not a JSON text is taken as one rule:
    the handler reports a single verdict, that of the trimmed text. *)
Theorem rules_plain_text (env : Env) (reg : Registry) (req : Request)
    (raw : option string) (total : Value) (replies : nat -> Reply)
    (latency : nat -> nat) (s : string) :
  is_Some (req_file req) ->
  body_rules req = VStr s ->
  JSON_parse s = None ->
  JS.nonEmpty (JS.trim s) = true ->
  JS.nonEmpty (documentTextOf raw) = true ->
  exists pageCount model textLength,
    outcome (check env reg req (Extracted raw total) replies latency)
    = Ret {| statusCode := 200;
             body := Report pageCount model textLength
                       [verdictOf reg (JS.trim s) (documentTextOf raw)
                          (Some (effectiveProviderOf reg (body_provider req)))
                          (replies 0)] |}.
Proof.
  intros [buffer Hf] Hr Hp Hs Hd.
  assert (Hi : intake req (Extracted raw total)
               = inr ([JS.trim s], documentTextOf raw,
                      if truthy total then total else VNull)).
  { unfold intake. rewrite Hf, Hr. cbn [truthy]. rewrite (nonEmpty_trim s Hs).
    cbn [negb readRules]. unfold parseJSON. cbn [ToString]. rewrite bind_ret, Hp.
    cbn [catch]. rewrite bind_ret.
    cbn [normalizeRules fmap list_fmap ruleText].
    rewrite filter_cons_True by exact Hs. rewrite filter_nil.
    cbn [take extractTextFromPdf]. cbv zeta. fold (documentTextOf raw).
    now rewrite Hd. }
  rewrite check_intake, Hi. cbv zeta. cbn [outcome report imap].
  eauto.
Qed.

(** A rules field that is a JSON text of anything but an array (a number,
    a quoted text, an object, null) is answered with status 500, before the
    document is read and without any evaluation. *)
Theorem rules_not_a_list (env : Env) (reg : Registry) (req : Request)
    (pdf : Extraction) (replies : nat -> Reply) (latency : nat -> nat)
    (s : string) (parsed : Value) :
  is_Some (req_file req) ->
  body_rules req = VStr s ->
  JS.nonEmpty s = true ->
  JSON_parse s = Some parsed ->
  (forall xs, parsed <> VArr xs) ->
  check env reg req pdf replies latency
  = reject 500 "An unexpected error occurred while checking the document.".
Proof.
  intros [buffer Hf] Hr Hs Hp Hna.
  assert (Hi : intake req pdf
               = inl (500%Z, "An unexpected error occurred while checking the document.")).
  { unfold intake. rewrite Hf, Hr. cbn [truthy]. rewrite Hs.
    cbn [negb readRules]. unfold parseJSON. cbn [ToString]. rewrite bind_ret, Hp.
    cbn [catch]. rewrite bind_ret.
    destruct parsed as [| | | | |xs|]; try reflexivity. now destruct (Hna xs). }
  rewrite check_intake, Hi. reflexivity.
Qed.

End RulesField.

(** ** Cleaning the extracted text *)

Definition nulFree (s : string) : Prop :=
  every (fun c => negb (Ascii.eqb c "000")) s = true.

Lemma nulFree_collapse (s : string) (inRun : bool) :
  nulFree s -> nulFree (collapseFrom inRun s).
Proof.
  unfold nulFree. revert inRun. induction s as [|c s IH]; intros inRun H;
    [reflexivity|].
  simpl in H. apply andb_true_iff in H as [Hc Hs].
  simpl. destruct (JS.isWhiteSpace c).
  - destruct inRun; [now apply IH|]. simpl. now apply IH.
  - simpl. rewrite Hc. now apply IH.
Qed.

Lemma stripNul_nulFree (s : string) : nulFree s -> stripNul s = s.
Proof.
  unfold nulFree. induction s as [|c s IH]; [reflexivity|].
  simpl. intros H. apply andb_true_iff in H as [Hc Hs].
  apply negb_true_iff in Hc. rewrite Hc. now rewrite IH.
Qed.

Lemma singleSpaced_trimStart (s : string) (afterSpace : bool) :
  singleSpaced afterSpace s = true -> singleSpaced false (JS.trimStart s) = true.
Proof.
  revert afterSpace. induction s as [|c s IH]; intros b H; [reflexivity|].
  cbn [JS.trimStart]. cbn [singleSpaced] in H.
  destruct (JS.isWhiteSpace c) eqn:Hc.
  - apply andb_true_iff in H as [_ H]. exact (IH true H).
  - cbn [singleSpaced]. now rewrite Hc.
Qed.

Lemma singleSpaced_trimEnd (s : string) (afterSpace : bool) :
  singleSpaced afterSpace s = true -> singleSpaced afterSpace (JS.trimEnd s) = true.
Proof.
  revert afterSpace. induction s as [|c s IH]; intros b H; [reflexivity|].
  destruct (trimEnd_cons c s) as [->| ->]; [reflexivity|].
  cbn [singleSpaced] in *. destruct (JS.isWhiteSpace c).
  - apply andb_true_iff in H as [H1 H2]. rewrite H1. exact (IH true H2).
  - exact (IH false H).
Qed.

Lemma collapseFrom_fixed (s : string) (inRun : bool) :
  singleSpaced inRun s = true -> collapseFrom inRun s = s.
Proof.
  revert inRun. induction s as [|c s IH]; intros b H; [reflexivity|].
  cbn [singleSpaced] in H. cbn [collapseFrom].
  destruct (JS.isWhiteSpace c).
  - apply andb_true_iff in H as [H1 H2]. apply andb_true_iff in H1 as [Hsp Hb].
    apply Ascii.eqb_eq in Hsp. subst c. destruct b; [discriminate|].
    now rewrite (IH true H2).
  - now rewrite (IH false H).
Qed.

(** A text without NUL is cleaned to a text whose white space is single
    spaces between other characters, and cleaning such a text again changes
    nothing.  (With NUL the spaces around it are left side by side, and a
    second cleaning would merge them.) *)
Theorem cleaning_idempotent (text : string) :
  nulFree text ->
  let cleaned := cleanText (Some text) in
  singleSpaced false cleaned = true
  /\ trimmed cleaned
  /\ cleanText (Some cleaned) = cleaned.
Proof.
  intros Hnul. cbv zeta. unfold cleanText. rewrite !orEmpty_id.
  pose proof (nulFree_collapse text false Hnul) as Hc.
  fold (collapseWhitespace text) in Hc.
  rewrite (stripNul_nulFree _ Hc).
  assert (Hss : singleSpaced false (JS.trim (collapseWhitespace text)) = true).
  { unfold JS.trim. apply singleSpaced_trimEnd.
    apply (singleSpaced_trimStart _ false), singleSpaced_collapse. }
  split; [exact Hss|]. split; [apply trim_idem|].
  unfold collapseWhitespace at 1. rewrite (collapseFrom_fixed _ _ Hss).
  rewrite stripNul_nulFree; [apply trim_idem|].
  unfold JS.trim. apply every_trimEnd, every_trimStart. exact Hc.
Qed.

(** * The client: [frontend/src/App.tsx]

    The state cells of the component and the handlers that update them.  A
    [File] is what the handlers read of it: its MIME type and its size in
    bytes. *)

Module App.

Record File : Type := {
  type : string;
  size : Z
}.

Record State : Type := {
  pdfFile : option File;
  results : option (list Verdict);
  meta : option (Value * string * Z);
  loading : bool;
  error : option string;
  dragActive : bool;
  expandedRows : gset nat
}.

Definition initial : State :=
  {| pdfFile := None; results := None; meta := None; loading := false;
     error := None; dragActive := false; expandedRows := ∅ |}.

Definition setPdfFile (f : option File) (st : State) : State :=
  {| pdfFile := f; results := results st; meta := meta st; loading := loading st;
     error := error st; dragActive := dragActive st;
     expandedRows := expandedRows st |}.

Definition setResults (r : option (list Verdict)) (st : State) : State :=
  {| pdfFile := pdfFile st; results := r; meta := meta st; loading := loading st;
     error := error st; dragActive := dragActive st;
     expandedRows := expandedRows st |}.

Definition setMeta (m : option (Value * string * Z)) (st : State) : State :=
  {| pdfFile := pdfFile st; results := results st; meta := m; loading := loading st;
     error := error st; dragActive := dragActive st;
     expandedRows := expandedRows st |}.

Definition setError (e : option string) (st : State) : State :=
  {| pdfFile := pdfFile st; results := results st; meta := meta st;
     loading := loading st; error := e; dragActive := dragActive st;
     expandedRows := expandedRows st |}.

Definition setDragActive (b : bool) (st : State) : State :=
  {| pdfFile := pdfFile st; results := results st; meta := meta st;
     loading := loading st; error := error st; dragActive := b;
     expandedRows := expandedRows st |}.

Definition setExpandedRows (update : gset nat -> gset nat) (st : State) : State :=
  {| pdfFile := pdfFile st; results := results st; meta := meta st;
     loading := loading st; error := error st; dragActive := dragActive st;
     expandedRows := update (expandedRows st) |}.

(** [10 * 1024 * 1024] *)
Definition sizeLimit : Z := 10 * 1024 * 1024.

Definition canSubmit (st : State) : bool :=
  match pdfFile st with Some _ => true | None => false end.

(** [file]: [event.target.files?.[0]]; the reset of the input element on a
    refusal is left to the page. *)
Definition handleFileChange (file : option File) (st : State) : State :=
  match file with
  | Some f =>
      if negb (String.eqb (type f) "application/pdf")
      then setError (Some "Please upload a valid PDF file.") st
      else if (sizeLimit <? size f)%Z
      then setError (Some "File size must be less than 10MB.") st
      else setPdfFile (Some f) (setError None st)
  | None => setPdfFile None (setError None st)
  end.

(** [eventType]: [e.type] *)
Definition handleDrag (eventType : string) (st : State) : State :=
  if String.eqb eventType "dragenter" || String.eqb eventType "dragover"
  then setDragActive true st
  else if String.eqb eventType "dragleave" then setDragActive false st
  else st.

(** [file]: [e.dataTransfer.files?.[0]] *)
Definition handleDrop (file : option File) (st : State) : State :=
  let st := setDragActive false st in
  match file with
  | Some f =>
      if String.eqb (type f) "application/pdf"
      then if (sizeLimit <? size f)%Z
           then setError (Some "File size must be less than 10MB.") st
           else setError None (setPdfFile (Some f) st)
      else setError (Some "Please drop a valid PDF file.") st
  | None => setError (Some "Please drop a valid PDF file.") st
  end.

(** The button that removes the file. *)
Definition removeFile (st : State) : State :=
  setMeta None (setResults None (setPdfFile None st)).

Definition toggleRowExpansion (index : nat) (st : State) : State :=
  setExpandedRows
    (fun prev => if decide (index ∈ prev) then prev ∖ {[index]}
                 else prev ∪ {[index]})
    st.

Definition passCount (results : option (list Verdict)) : nat :=
  match results with
  | Some rs => List.length (filter (fun r => status r = "pass") rs)
  | None => 0
  end.

Definition failCount (results : option (list Verdict)) : nat :=
  match results with
  | Some rs => List.length (filter (fun r => status r = "fail") rs)
  | None => 0
  end.

(** [a >= b] on numbers *)
Definition geq (a b : number) : bool := negb (num_ltb a b).

(** The class of the confidence badge. *)
Definition confidenceBadge (confidence : number) : string :=
  if geq confidence (num 80) then "high"
  else if geq confidence (num 50) then "medium"
  else "low".

(** What the user does with the upload area and the table. *)
Inductive Action : Type :=
| Change (file : option File)
| Drag (eventType : string)
| Drop (file : option File)
| Remove
| Toggle (index : nat).

Definition step (st : State) (a : Action) : State :=
  match a with
  | Change file => handleFileChange file st
  | Drag eventType => handleDrag eventType st
  | Drop file => handleDrop file st
  | Remove => removeFile st
  | Toggle index => toggleRowExpansion index st
  end.

End App.

(** The file held by the component is a PDF of at most 10 MB. *)
Definition uploadable (st : App.State) : Prop :=
  match App.pdfFile st with
  | Some f => App.type f = "application/pdf" /\ (App.size f <= App.sizeLimit)%Z
  | None => True
  end.

Lemma step_uploadable (st : App.State) (a : App.Action) :
  uploadable st -> uploadable (App.step st a).
Proof.
  unfold uploadable. intros H.
  destruct a as [[f|]|eventType|[f|]| |index]; cbn [App.step].
  - unfold App.handleFileChange.
    destruct (String.eqb_spec (App.type f) "application/pdf") as [Ht|_];
      cbn [negb]; [|exact H].
    destruct (Z.ltb_spec App.sizeLimit (App.size f)); [exact H|].
    cbn. auto.
  - exact I.
  - unfold App.handleDrag.
    destruct (_ || _); [exact H|]. destruct (String.eqb _ _); exact H.
  - unfold App.handleDrop. cbv zeta.
    destruct (String.eqb_spec (App.type f) "application/pdf") as [Ht|_];
      [|exact H].
    destruct (Z.ltb_spec App.sizeLimit (App.size f)); [exact H|].
    cbn. auto.
  - exact H.
  - exact I.
  - exact H.
Qed.

(** Whatever the user does with the upload area, by the file dialog or by
    drag and drop, the component never holds a file that is not a PDF or
    that is larger than 10 MB; the form can be submitted only with such a
    file. *)
Theorem upload_invariant (actions : list App.Action) :
  let st := foldl App.step App.initial actions in
  uploadable st
  /\ (App.canSubmit st = true ->
      exists f, App.pdfFile st = Some f
                /\ App.type f = "application/pdf"
                /\ (App.size f <= 10485760)%Z).
Proof.
  cbv zeta.
  assert (H : uploadable (foldl App.step App.initial actions)).
  { assert (Hgen : forall st, uploadable st -> uploadable (foldl App.step st actions)).
    { induction actions as [|a actions IH]; intros st Hst; [exact Hst|].
      cbn [foldl]. apply IH, step_uploadable, Hst. }
    apply Hgen. exact I. }
  split; [exact H|].
  unfold uploadable, App.canSubmit in *.
  destruct (App.pdfFile _) as [f|]; [|discriminate].
  intros _. exists f. destruct H as [Ht Hs]. auto.
Qed.

(** Toggling a row of the table changes the expansion of that row alone,
    and toggling it twice restores the set of expanded rows. *)
Theorem toggle_row (index : nat) (st : App.State) :
  let st' := App.toggleRowExpansion index st in
  (index ∈ App.expandedRows st' <-> index ∉ App.expandedRows st)
  /\ (forall other, other <> index ->
        (other ∈ App.expandedRows st' <-> other ∈ App.expandedRows st))
  /\ App.expandedRows (App.toggleRowExpansion index st') = App.expandedRows st.
Proof.
  cbv zeta. unfold App.toggleRowExpansion, App.setExpandedRows.
  cbn [App.expandedRows].
  set (rows := App.expandedRows st).
  destruct (decide (index ∈ rows)) as [Hin|Hout].
  - split; [rewrite elem_of_difference, elem_of_singleton; tauto|].
    split.
    { intros other Hne. rewrite elem_of_difference, elem_of_singleton. tauto. }
    rewrite decide_False
      by (rewrite elem_of_difference, elem_of_singleton; tauto).
    apply set_eq. intros x.
    rewrite elem_of_union, elem_of_difference, elem_of_singleton.
    destruct (decide (x = index)) as [->|Hne]; tauto.
  - split; [rewrite elem_of_union, elem_of_singleton; tauto|].
    split.
    { intros other Hne. rewrite elem_of_union, elem_of_singleton. tauto. }
    rewrite decide_True
      by (rewrite elem_of_union, elem_of_singleton; tauto).
    apply set_eq. intros x.
    rewrite elem_of_difference, elem_of_union, elem_of_singleton.
    destruct (decide (x = index)) as [->|Hne]; tauto.
Qed.

Section Summary.
Context {RT : Runtime}.

(** The summary of the client adds up: over the verdicts of a batch, the
    count of passed rules and the count of failed rules sum to the number
    of verdicts. *)
Theorem summary_counts (reg : Registry) (documentText : string)
    (provider : option string) (replies : nat -> Reply) (rules : list string) :
  let results :=
    imap (fun i rule => verdictOf reg rule documentText provider (replies i))
         rules in
  App.passCount (Some results) + App.failCount (Some results)
  = List.length results.
Proof.
  cbv zeta. unfold App.passCount, App.failCount.
  assert (Hgen : forall vs : list Verdict,
             Forall (fun v => status v = "pass" \/ status v = "fail") vs ->
             List.length (filter (fun r => status r = "pass") vs)
             + List.length (filter (fun r => status r = "fail") vs)
             = List.length vs).
  { induction 1 as [|v vs [Hv|Hv] _ IH].
    - reflexivity.
    - rewrite filter_cons_True by exact Hv.
      rewrite (filter_cons_False (fun r => status r = "fail")) by (rewrite Hv; discriminate).
      simpl. lia.
    - rewrite filter_cons_False by (rewrite Hv; discriminate).
      rewrite (filter_cons_True (fun r => status r = "fail")) by exact Hv.
      simpl. lia. }
  apply Hgen, Forall_forall. intros v Hv.
  apply elem_of_lookup_imap_1 in Hv as (i & r & -> & _).
  apply verdict_shape.
Qed.

End Summary.

(** A heuristic verdict is never shown with the badge of high confidence:
    a passing one has the medium badge, a failing one the low badge. *)
Theorem heuristic_badge (rule documentText : string) :
  let v := buildFallbackResult rule documentText in
  App.confidenceBadge (confidence v)
  = if String.eqb (status v) "pass" then "medium" else "low".
Proof.
  cbv zeta. rewrite heuristic_confidence, heuristic_status.
  destruct (passesUntrimmed rule documentText); reflexivity.
Qed.

(** * Concrete runs of the further properties *)

Lemma heuristic_monotone_witness :
  status (buildFallbackResult ownerRule "Jane Doe is responsible for delivery.")
  = "pass"
  /\ status (buildFallbackResult ownerRule
               ("This plan starts March 2024. "
                +:+ "Jane Doe is responsible for delivery." +:+ " Signed."))
     = "pass".
Proof.
  split; [vm_compute; reflexivity|].
  apply (heuristic_monotone ownerRule "Jane Doe is responsible for delivery."
           "This plan starts March 2024. " " Signed.").
  vm_compute. reflexivity.
Defined.

Lemma heuristic_case_insensitive_witness :
  status (buildFallbackResult "SOMEONE Responsible FOR delivery IS NAMED." "JANE DOE IS RESPONSIBLE FOR DELIVERY.")
  = status (buildFallbackResult ownerRule "Jane Doe is responsible for delivery.")
  /\ reasoning (buildFallbackResult "SOMEONE Responsible FOR delivery IS NAMED." "JANE DOE IS RESPONSIBLE FOR DELIVERY.")
     = reasoning (buildFallbackResult ownerRule "Jane Doe is responsible for delivery.")
  /\ confidence (buildFallbackResult "SOMEONE Responsible FOR delivery IS NAMED." "JANE DOE IS RESPONSIBLE FOR DELIVERY.")
     = confidence (buildFallbackResult ownerRule "Jane Doe is responsible for delivery.").
Proof.
  apply (heuristic_case_insensitive ownerRule
           "SOMEONE Responsible FOR delivery IS NAMED."
           "Jane Doe is responsible for delivery."
           "JANE DOE IS RESPONSIBLE FOR DELIVERY.");
    vm_compute; reflexivity.
Defined.

Definition answerBody : string :=
  quoted "status" +:+ ": " +:+ quoted "PASS" +:+ ", "
  +:+ quoted "evidence" +:+ ": " +:+ quoted "starts March 2024" +:+ ", "
  +:+ quoted "confidence" +:+ ": 132.7".

Lemma normalizer_ignores_prose_witness :
  lacks "{" "Here is the JSON: "
  /\ lacks "}" " Hope this helps."
  /\ parseLLMJson (RT := Reference.host)
       (VStr ("Here is the JSON: " +:+ ("{" +:+ answerBody +:+ "}")
              +:+ " Hope this helps."))
       (buildFallbackResult dateRule planText) "groq"
     = parseLLMJson (RT := Reference.host)
         (VStr ("{" +:+ answerBody +:+ "}"))
         (buildFallbackResult dateRule planText) "groq".
Proof.
  split; [reflexivity|]. split; [reflexivity|].
  apply (normalizer_ignores_prose (RT := Reference.host)
           "Here is the JSON: " answerBody " Hope this helps."
           (buildFallbackResult dateRule planText) "groq");
    reflexivity.
Defined.

Definition groqResponse : Value := VObj [("output_text", VStr wrappedAnswer)].

Lemma orchestrator_uses_answer_witness :
  answers (startup groqOnly) (effectiveOf (startup groqOnly) None) = true
  /\ outcome (evaluateRuleWithLLM (RT := Reference.host) (startup groqOnly)
                dateRule planText None (Resolved groqResponse))
     = parseLLMJson (RT := Reference.host) (VStr wrappedAnswer)
         (buildFallbackResult dateRule planText)
         (effectiveOf (startup groqOnly) None).
Proof.
  split; [reflexivity|].
  apply (orchestrator_uses_answer (RT := Reference.host) (startup groqOnly)
           dateRule planText None groqResponse (VStr wrappedAnswer));
    reflexivity.
Defined.

Definition plainRule : Request :=
  {| req_file := Some "%PDF-1.7"; body_rules := VStr ownerRule;
     body_provider := VUndef |}.

Lemma rules_plain_text_witness :
  JSON_parse (Runtime := Reference.host) ownerRule = None
  /\ exists pageCount model textLength,
       outcome (check (RT := Reference.host) groqOnly (startup groqOnly) plainRule
                  (Extracted (Some planText) (VNum (num 1)))
                  (fun _ => Rejected "503") (fun i => i))
       = Ret {| statusCode := 200;
                body := Report pageCount model textLength
                          [verdictOf (RT := Reference.host) (startup groqOnly)
                             (JS.trim ownerRule) (documentTextOf (Some planText))
                             (Some (effectiveProviderOf (startup groqOnly)
                                      (body_provider plainRule)))
                             (Rejected "503")] |}.
Proof.
  split; [vm_compute; reflexivity|].
  apply (rules_plain_text (RT := Reference.host) groqOnly (startup groqOnly)
           plainRule (Some planText) (VNum (num 1)) (fun _ => Rejected "503")
           (fun i => i) ownerRule).
  - eexists. reflexivity.
  - reflexivity.
  - vm_compute. reflexivity.
  - vm_compute. reflexivity.
  - vm_compute. reflexivity.
Defined.

Definition numberAsRules : Request :=
  {| req_file := Some "%PDF-1.7"; body_rules := VStr "42";
     body_provider := VUndef |}.

Lemma rules_not_a_list_witness :
  JSON_parse (Runtime := Reference.host) "42" = Some (VNum (num 42))
  /\ check (RT := Reference.host) groqOnly (startup groqOnly) numberAsRules planPdf
       (fun _ => Rejected "503") (fun i => i)
     = reject 500 "An unexpected error occurred while checking the document.".
Proof.
  split; [vm_compute; reflexivity|].
  apply (rules_not_a_list (RT := Reference.host) groqOnly (startup groqOnly)
           numberAsRules planPdf (fun _ => Rejected "503") (fun i => i)
           "42" (VNum (num 42))).
  - eexists. reflexivity.
  - reflexivity.
  - reflexivity.
  - vm_compute. reflexivity.
  - intros xs. discriminate.
Defined.

Lemma cleaning_idempotent_witness :
  nulFree ("  Plan" +:+ nl +:+ nl +:+ "for  2024 ")
  /\ cleanText (Some ("  Plan" +:+ nl +:+ nl +:+ "for  2024 ")) = "Plan for 2024"
  /\ cleanText (Some (cleanText (Some ("  Plan" +:+ nl +:+ nl +:+ "for  2024 "))))
     = cleanText (Some ("  Plan" +:+ nl +:+ nl +:+ "for  2024 ")).
Proof.
  split; [reflexivity|]. split; [reflexivity|].
  apply (cleaning_idempotent ("  Plan" +:+ nl +:+ nl +:+ "for  2024 ")).
  reflexivity.
Defined.

(** ** Mistral: a chunk that is not an object *)

(** Neither an object nor an array: [undefined], [null], a boolean, a
    number or a string. *)
Definition primitive (v : Value) : Prop :=
  match v with
  | VObj _ | VArr _ => False
  | _ => True
  end.

Lemma mapM_cons {A B : Type} (f : A -> Outcome B) (x : A) (l : list A) :
  mapM f (x :: l) = (y ← f x; ys ← mapM f l; Ret (y :: ys)).
Proof. reflexivity. Qed.

Lemma mapM_mistralChunk_primitive (chunks : list Value) (chunk : Value) :
  chunk ∈ chunks -> primitive chunk ->
  exists e, mapM mistralChunk chunks = Throw e.
Proof.
  intros Hin Hp. induction Hin as [chunk chunks|chunk other chunks Hin IH].
  - rewrite mapM_cons.
    destruct chunk; try contradiction; cbn [mistralChunk]; rewrite bind_throw; eauto.
  - destruct (IH Hp) as [e He]. rewrite mapM_cons.
    destruct (mistralChunk other) as [y|e']; [|rewrite bind_throw; eauto].
    rewrite bind_ret, He, bind_throw. eauto.
Qed.

Section Mistral.
Context {RT : Runtime}.

(** A Mistral message whose content is a list holding a chunk that is not
    an object makes the [in] test throw: the answer is dropped, whatever
    the other chunks hold, and the verdict is the heuristic one. *)
Theorem mistral_primitive_chunk (reg : Registry) (rule documentText : string)
    (provider : option string) (completion : Value) (chunks : list Value)
    (chunk : Value) :
  effectiveOf reg provider = "mistral" ->
  mistral reg = true ->
  messageContentOf completion = Ret (VArr chunks) ->
  chunk ∈ chunks ->
  primitive chunk ->
  outcome (evaluateRuleWithLLM reg rule documentText provider (Resolved completion))
  = Ret (buildFallbackResult rule documentText).
Proof.
  intros He Hm Hc Hin Hp.
  pose proof (evaluate_run reg rule documentText provider (Resolved completion)) as H.
  cbv zeta in H. rewrite H, He. clear H.
  assert (Ha : answers reg "mistral" = true).
  { unfold answers, configured. cbn [String.eqb Ascii.eqb Bool.eqb].
    rewrite Hm. now rewrite bool_decide_eq_true_2 by (apply list_elem_of_In; simpl; tauto). }
  rewrite Ha. cbn [outcome]. unfold payloadOf.
  cbn [String.eqb Ascii.eqb Bool.eqb]. rewrite Hc, bind_ret.
  cbn [mistralContent].
  destruct (mapM_mistralChunk_primitive chunks chunk Hin Hp) as [e ->].
  now rewrite !bind_throw.
Qed.

End Mistral.

Definition mistralOnly : Env :=
  {| OPENAI_API_KEY := None; MISTRAL_API_KEY := Some "ms-key"; GROQ_API_KEY := None;
     LLM_PROVIDER := None; OPENAI_MODEL := None; MISTRAL_MODEL := None;
     GROQ_MODEL := None |}.

Definition mixedChunks : list Value :=
  [VObj [("type", VStr "text"); ("text", VStr ("{" +:+ answerBody +:+ "}"))];
   VStr "Hope this helps."].

Lemma mistral_primitive_chunk_witness :
  outcome (evaluateRuleWithLLM (RT := Reference.host) (startup mistralOnly)
             dateRule planText None
             (Resolved (completionWith (VArr mixedChunks))))
  = Ret (buildFallbackResult dateRule planText).
Proof.
  apply (mistral_primitive_chunk (RT := Reference.host) (startup mistralOnly)
           dateRule planText None (completionWith (VArr mixedChunks)) mixedChunks
           (VStr "Hope this helps.")).
  - reflexivity.
  - reflexivity.
  - reflexivity.
  - apply list_elem_of_In. simpl. tauto.
  - exact I.
Defined.
